(** * AMS edge function: template versioning and migration engine

    A shallow embedding of [supabase/functions/ams/index.ts]: the SemVer
    gate, the migration planner, the dry-run engine, the idempotency guard,
    the version store and the upgrade dispatcher, with the properties of
    the specification stated over them.

    Conventions of the embedding:
    - the relational store is an explicit record of tables that every
      handler threads through; a thrown JavaScript exception is the [inl]
      outcome of a small state-and-exception monad, and writes made before
      the throw stay in the store (the handlers never roll back);
    - external collaborators (the hash, the JSON/YAML decoders, the
      JSON-Patch library, the remote agent API) are fields of a [Platform]
      record, so every statement holds for any implementation of them;
    - the npm [semver] package is modelled by the module [Semver] below;
    - a string is the UTF-8 encoding of the JavaScript text;
    - user ids are UUIDs in the text form of the database, as the columns
      that hold them ask;
    - requests are handled one at a time. *)

From Stdlib Require Import String Ascii List NArith Bool Lia.
From stdpp Require Import base option list gmap strings sets.

Local Open Scope string_scope.
Local Open Scope list_scope.

Set Warnings "-clear-no-such-hyp".

(** ** JavaScript helpers *)

(** Truthiness of a string value: the empty string is falsy. *)
Definition truthy (s : string) : bool :=
  match s with EmptyString => false | _ => true end.

(** Truthiness of an optional string ([undefined] is falsy). *)
Definition truthy_opt (o : option string) : bool :=
  match o with Some s => truthy s | None => false end.

(** [Array.prototype.includes] on an array of strings. *)
Fixpoint includes (l : list string) (x : string) : bool :=
  match l with
  | [] => false
  | y :: l' => if String.eqb y x then true else includes l' x
  end.

(** [Array.prototype.find]. *)
Fixpoint find_first {A} (p : A -> bool) (l : list A) : option A :=
  match l with
  | [] => None
  | x :: l' => if p x then Some x else find_first p l'
  end.

(** [Array.prototype.sort] with a comparator. The sort is stable, which a
    right-to-left insertion sort reproduces for every comparator that is
    consistent on the array; for other comparators ECMAScript leaves the
    order to the implementation, and the properties below that read the
    order state the consistency they need. *)
Fixpoint sort_insert {A} (cmp : A -> A -> comparison) (x : A) (l : list A) : list A :=
  match l with
  | [] => [x]
  | y :: l' =>
      match cmp x y with
      | Gt => y :: sort_insert cmp x l'
      | _ => x :: y :: l'
      end
  end.

Fixpoint js_sort {A} (cmp : A -> A -> comparison) (l : list A) : list A :=
  match l with
  | [] => []
  | x :: l' => sort_insert cmp x (js_sort cmp l')
  end.

(** ** The npm [semver] package (version 7.6.2, strict mode)

    [parse] is the constructor [new SemVer(version)]: the length check on
    the input, the package's FULL regular expression applied to the
    trimmed input (an optional letter v, three numeric identifiers
    separated by dots, an optional pre-release after a dash and an
    optional build after a plus sign), and the range check of the three
    main numbers, each failure with the message of its [TypeError].
    [compareSemVer] is [SemVer.prototype.compare]: the numeric triple
    first, then the pre-release identifiers, build metadata ignored. A
    numeric pre-release identifier is kept as the number its digits
    denote and is compared, as the package does, through the IEEE 754
    double nearest to it. *)
Module Semver.

Inductive Identifier :=
| Num (n : N)
| Alnum (s : string).

Record SemVer := mkSemVer {
  major : N;
  minor : N;
  patch : N;
  prerelease : list Identifier;
  build : list string
}.

Definition MAX_LENGTH : nat := 256.
Definition MAX_SAFE_INTEGER : N := 9007199254740991.

Definition is_digit (c : ascii) : bool :=
  let n := N_of_ascii c in ((48 <=? n) && (n <=? 57))%N.

Definition is_letter_dash (c : ascii) : bool :=
  let n := N_of_ascii c in
  (((65 <=? n) && (n <=? 90)) || ((97 <=? n) && (n <=? 122)) || (n =? 45))%N.

(** The UTF-16 code units that a byte of UTF-8 text stands for: one for a
    byte that starts a character, none for a continuation byte, two for
    the lead byte of a four-byte sequence (a surrogate pair). *)
Definition code_units (c : ascii) : nat :=
  let n := N_of_ascii c in
  if (n <? 128)%N then 1
  else if (n <? 192)%N then 0
  else if (n <? 240)%N then 1
  else 2.

(** [String.prototype.length]. *)
Fixpoint js_length (s : string) : nat :=
  match s with
  | EmptyString => 0
  | String c s' => code_units c + js_length s'
  end.

(** The white space and line terminators of ECMAScript, in UTF-8: tab,
    line feed, vertical tab, form feed, carriage return, space, U+00A0,
    U+1680, U+2000 to U+200A, U+2028, U+2029, U+202F, U+205F, U+3000 and
    U+FEFF. *)
Definition white_space : list (list ascii) :=
  List.map (List.map ascii_of_N)
    [[9]; [10]; [11]; [12]; [13]; [32];
     [194; 160];
     [225; 154; 128];
     [226; 128; 128]; [226; 128; 129]; [226; 128; 130]; [226; 128; 131];
     [226; 128; 132]; [226; 128; 133]; [226; 128; 134]; [226; 128; 135];
     [226; 128; 136]; [226; 128; 137]; [226; 128; 138];
     [226; 128; 168]; [226; 128; 169];
     [226; 128; 175];
     [226; 129; 159];
     [227; 128; 128];
     [239; 187; 191]]%N.

(** [l] without the prefix [w], when it starts with [w]. *)
Fixpoint drop_prefix (w l : list ascii) : option (list ascii) :=
  match w with
  | [] => Some l
  | a :: w' =>
      match l with
      | b :: l' => if Ascii.eqb a b then drop_prefix w' l' else None
      | [] => None
      end
  end.

(** [l] without the first of the sequences [ws] that it starts with. *)
Fixpoint drop_one (ws : list (list ascii)) (l : list ascii) : option (list ascii) :=
  match ws with
  | [] => None
  | w :: ws' =>
      match drop_prefix w l with
      | Some l' => Some l'
      | None => drop_one ws' l
      end
  end.

(** Drop leading sequences of [ws], at most [fuel] of them. *)
Fixpoint drop_leading (fuel : nat) (ws : list (list ascii)) (l : list ascii) : list ascii :=
  match fuel with
  | O => l
  | S fuel' =>
      match drop_one ws l with
      | Some l' => drop_leading fuel' ws l'
      | None => l
      end
  end.

(** [String.prototype.trim]: every sequence dropped is at least one byte
    long, so the length of the text bounds their number. *)
Definition trim (l : list ascii) : list ascii :=
  let front := drop_leading (length l) white_space l in
  rev (drop_leading (length front) (List.map (@rev ascii) white_space) (rev front)).

(** Split at the first occurrence of [sep]. *)
Fixpoint split_first (sep : ascii) (l : list ascii) : list ascii * option (list ascii) :=
  match l with
  | [] => ([], None)
  | c :: l' =>
      if Ascii.eqb c sep then ([], Some l')
      else let '(a, b) := split_first sep l' in (c :: a, b)
  end.

(** [String.prototype.split] on one separator character. *)
Fixpoint split_all (sep : ascii) (l : list ascii) : list (list ascii) :=
  match l with
  | [] => [[]]
  | c :: l' =>
      if Ascii.eqb c sep then [] :: split_all sep l'
      else match split_all sep l' with
           | w :: ws => (c :: w) :: ws
           | [] => [[c]]
           end
  end.

Definition digit_value (c : ascii) : N := (N_of_ascii c - 48)%N.

Definition decimal (l : list ascii) : N :=
  fold_left (fun acc c => (acc * 10 + digit_value c)%N) l 0%N.

(** A numeric identifier: a single zero, or digits without a leading zero. *)
Definition numeric_identifier (l : list ascii) : bool :=
  match l with
  | [] => false
  | [c] => is_digit c
  | c :: _ => is_digit c && negb (Ascii.eqb c "0"%char) && forallb is_digit l
  end.

(** A component of the main version, as the regular expression sees it. *)
Definition main_component (l : list ascii) : option N :=
  if numeric_identifier l then Some (decimal l) else None.

(** A pre-release identifier: numeric, or letters, digits and dashes
    with at least one letter or dash. *)
Definition prerelease_identifier (l : list ascii) : option Identifier :=
  if numeric_identifier l then Some (Num (decimal l))
  else if forallb (fun c => is_digit c || is_letter_dash c) l
          && existsb is_letter_dash l
  then Some (Alnum (string_of_list_ascii l))
  else None.

(** A build identifier: one or more letters, digits or dashes. *)
Definition build_identifier (l : list ascii) : option string :=
  match l with
  | [] => None
  | _ => if forallb (fun c => is_digit c || is_letter_dash c) l
         then Some (string_of_list_ascii l) else None
  end.

Fixpoint traverse {A B} (f : A -> option B) (l : list A) : option (list B) :=
  match l with
  | [] => Some []
  | x :: l' =>
      match f x, traverse f l' with
      | Some y, Some ys => Some (y :: ys)
      | _, _ => None
      end
  end.

Definition strip_v (l : list ascii) : list ascii :=
  match l with
  | c :: l' => if Ascii.eqb c "v"%char then l' else l
  | [] => []
  end.

(** The match of the FULL regular expression on the trimmed input: the
    three main numbers, the pre-release identifiers and the build
    identifiers. *)
Definition match_full (version : string)
  : option (N * N * N * list Identifier * list string) :=
  let body := strip_v (trim (list_ascii_of_string version)) in
  let '(mainpre, bld) := split_first "+"%char body in
  let '(main, pre) := split_first "-"%char mainpre in
  match traverse main_component (split_all "."%char main) with
  | Some [ma; mi; pa] =>
      let pre_ids :=
        match pre with
        | None => Some []
        | Some p => traverse prerelease_identifier (split_all "."%char p)
        end in
      let bld_ids :=
        match bld with
        | None => Some []
        | Some b => traverse build_identifier (split_all "."%char b)
        end in
      match pre_ids, bld_ids with
      | Some ps, Some bs => Some (ma, mi, pa, ps, bs)
      | _, _ => None
      end
  | _ => None
  end.

(** [new SemVer(version)]; [inl] carries the message of the thrown
    [TypeError]. *)
Definition parse (version : string) : string + SemVer :=
  if Nat.ltb MAX_LENGTH (js_length version) then
    inl "version is longer than 256 characters"
  else
    match match_full version with
    | None => inl ("Invalid Version: " +:+ version)
    | Some (ma, mi, pa, ps, bs) =>
        if (MAX_SAFE_INTEGER <? ma)%N then inl "Invalid major version"
        else if (MAX_SAFE_INTEGER <? mi)%N then inl "Invalid minor version"
        else if (MAX_SAFE_INTEGER <? pa)%N then inl "Invalid patch version"
        else inr (mkSemVer ma mi pa ps bs)
    end.

(** [semver.valid(v)], used for its truthiness. *)
Definition valid (version : string) : bool :=
  match parse version with inr _ => true | inl _ => false end.

(** The integer that the unary plus gives for a string of digits: the
    double nearest to the number, ties to the even significand. Numbers of
    at most 53 bits are kept as they are. *)
Definition to_double (n : N) : N :=
  let size := N.size n in
  if (size <=? 53)%N then n
  else
    let shift := (size - 53)%N in
    let q := N.shiftr n shift in
    let r := N.land n (N.ones shift) in
    let half := N.shiftl 1 (shift - 1) in
    let up := (half <? r)%N || ((half =? r)%N && N.odd q) in
    N.shiftl (if up then q + 1 else q)%N shift.

(** [compareIdentifiers]: numeric identifiers sort below alphanumeric
    ones, numbers by their doubles, strings by code unit. *)
Definition compareIdentifiers (a b : Identifier) : comparison :=
  match a, b with
  | Num x, Num y => N.compare (to_double x) (to_double y)
  | Num _, Alnum _ => Lt
  | Alnum _, Num _ => Gt
  | Alnum s, Alnum t => String.compare s t
  end.

(** [a === b] on two identifiers of the pre-release arrays. *)
Definition same_identifier (a b : Identifier) : bool :=
  match a, b with
  | Num x, Num y => N.eqb x y
  | Alnum s, Alnum t => String.eqb s t
  | _, _ => false
  end.

(** The loop of [comparePre] over both identifier arrays: identical
    identifiers are skipped, the first pair that differs decides. *)
Fixpoint compareIdentifierLists (p q : list Identifier) : comparison :=
  match p, q with
  | [], [] => Eq
  | _ :: _, [] => Gt
  | [], _ :: _ => Lt
  | a :: p', b :: q' =>
      if same_identifier a b then compareIdentifierLists p' q'
      else compareIdentifiers a b
  end.

(** JavaScript's [||] on two comparison results: the first one unless it
    is zero. *)
Definition or_else (c d : comparison) : comparison :=
  match c with Eq => d | _ => c end.

Definition compareMain (a b : SemVer) : comparison :=
  or_else (N.compare (major a) (major b))
    (or_else (N.compare (minor a) (minor b)) (N.compare (patch a) (patch b))).

Definition comparePre (a b : SemVer) : comparison :=
  match prerelease a, prerelease b with
  | _ :: _, [] => Lt
  | [], _ :: _ => Gt
  | [], [] => Eq
  | p, q => compareIdentifierLists p q
  end.

(** [SemVer.prototype.compare]. *)
Definition compareSemVer (a b : SemVer) : comparison :=
  or_else (compareMain a b) (comparePre a b).

(** [semver.compare(a, b)]: throws what the constructor throws for [a],
    or else for [b]. *)
Definition compare (a b : string) : string + comparison :=
  match parse a with
  | inl msg => inl msg
  | inr x =>
      match parse b with
      | inl msg => inl msg
      | inr y => inr (compareSemVer x y)
      end
  end.

(** [semver.rcompare(a, b)] is [compare(b, a)]. *)
Definition rcompare (a b : string) : string + comparison := compare b a.

(** [semver.lt(a, b)]. *)
Definition lt (a b : string) : string + bool :=
  match compare a b with
  | inr Lt => inr true
  | inr _ => inr false
  | inl msg => inl msg
  end.

End Semver.

(** ** SemverGate: [assessSemver] *)

Record SemverAssessment := mkAssessment {
  allowed : bool;
  message : option string
}.

(** A thrown JavaScript exception. *)
Inductive Exn :=
| IdempotencyError (msg : string)
| Error (msg : string)
| TypeError (msg : string).

(** The comparator handed to [sort]: the array has been filtered to valid
    versions, where [rcompare] cannot throw. *)
Definition rcompare_total (a b : string) : comparison :=
  match Semver.rcompare a b with inr c => c | inl _ => Eq end.

Definition assessSemver (nextVersion : string) (existing : list string)
  : Exn + SemverAssessment :=
  if includes existing nextVersion then
    inr (mkAssessment false (Some "Version already published"))
  else
    let sorted := js_sort rcompare_total (List.filter Semver.valid existing) in
    match sorted with
    | [] => inr (mkAssessment true None)
    | latest :: _ =>
        match Semver.lt nextVersion latest with
        | inl msg => inl (TypeError msg)
        | inr true =>
            inr (mkAssessment false
                   (Some ("Version " +:+ nextVersion +:+ " is lower than latest " +:+ latest)))
        | inr false => inr (mkAssessment true None)
        end
    end.

(** ** Data model *)

(** JSON values, for agent configurations and patch payloads. *)
#[warnings="-register-all"]
Inductive Json :=
| JNull
| JBool (b : bool)
| JNum (n : Z)
| JStr (s : string)
| JArr (items : list Json)
| JObj (fields : list (string * Json)).

(** A JavaScript object used as a string-keyed map ([LettaAgentConfig],
    [Record<string, unknown>]). *)
Abbreviation Config := (gmap string Json).

Inductive StepType := json_patch | script.

Record Script := mkScript {
  language : string;
  code : string
}.

(** One operation of an RFC 6902 patch document. *)
Record PatchOp := mkPatchOp {
  op : string;
  path : string;
  from : option string;
  value : option Json
}.

Record MigrationStep := mkStep {
  step_type : StepType;
  step_description : option string;
  step_patch : option (list PatchOp);
  step_script : option Script
}.

Record MigrationSpec := mkMigration {
  mig_from : string;
  mig_to : string;
  mig_steps : list MigrationStep
}.

Record TemplateInfo := mkTemplateInfo {
  id : string;
  name : string;
  version : string
}.

Record Engine := mkEngine {
  model : string;
  embedding : string;
  hyperparams : option Json
}.

Record VariablesSchema := mkSchema {
  required : option (list string)
}.

Record Persona := mkPersona {
  system_prompt : string;
  variables_schema : option VariablesSchema
}.

Record AgentFile := mkAgentFile {
  af_version : string;
  template : TemplateInfo;
  engine : Engine;
  persona : Persona;
  tools : option Json;
  init_messages : option Json;
  migrations : option (list MigrationSpec)
}.

Inductive Format := yaml | json.

Record PublishResponse := mkPublishResponse {
  pr_template_id : string;
  pr_version : string;
  pr_checksum : string;
  pr_is_latest : bool
}.

Record CreateAgentInput := mkCreateInput {
  ci_template_id : string;
  ci_version : option string;
  ci_use_latest : option bool;
  ci_variables : option Config;
  ci_agent_name : option string
}.

Record UpgradeAgentInput := mkUpgradeInput {
  target_version : option string;
  use_latest : option bool;
  allow_minor_auto : option bool;
  dry_run : option bool;
  use_queue : option bool
}.

(** An entry of the dry-run diff. *)
Record DiffEntry := mkDiffEntry {
  d_op : string;
  d_path : string;
  d_value : option Json
}.

Record DryRunResult := mkDryRun {
  diff : list DiffEntry;
  warnings : list string;
  updatedConfig : Config
}.

(** *** Tables of the relational store *)

Record VersionRow := mkVersionRow {
  vr_template_id : string;
  vr_version : string;
  vr_af_source : string;
  vr_checksum : string;
  vr_is_latest : bool
}.

Record AgentInstance := mkInstance {
  ai_agent_id : string;
  ai_user_id : string;
  ai_template_id : string;
  ai_version : string;
  ai_variables : Config
}.

Record MigrationAttempt := mkAttempt {
  ma_agent_id : string;
  ma_from_version : string;
  ma_to_version : string;
  ma_dry_run : bool;
  ma_plan : list MigrationStep;
  ma_diff : list DiffEntry;
  ma_status : string
}.

Record UpgradeJob := mkJob {
  job_agent_id : string;
  job_user_id : string;
  job_from_version : string;
  job_to_version : string;
  job_plan : list MigrationStep
}.

(** The state every handler works on: the tables ([af_versions] has the
    primary key (template_id, version), [agent_instances] the key agent_id,
    [request_dedup] the key idempotency_key, [user_profiles] the key id and
    for each row the agent its [letta_agent_id] binds), the storage bucket,
    the [upgrade_jobs] queue, the updates sent to the remote agent API so
    far, and the ids of [auth.users], which the function never writes and
    which the foreign key of [user_profiles] refers to. Timestamps are left
    out. *)
Record Store := mkStore {
  af_templates : gset string;
  af_versions : list VersionRow;
  agent_instances : gmap string AgentInstance;
  agent_migrations : list MigrationAttempt;
  request_dedup : gmap string string;
  user_profiles : gmap string string;
  af_cache : gmap string string;
  upgrade_jobs : list UpgradeJob;
  letta_updates : list (string * Config);
  auth_users : gset string
}.

Definition empty_store : Store :=
  mkStore ∅ [] ∅ [] ∅ ∅ ∅ [] [] ∅.

(** *** External collaborators *)

(** Everything the function reaches outside its own code: environment
    variables, [crypto.subtle.digest], [JSON.parse] with its [YAML.parse]
    fallback ([None] for a parse result that is not an object),
    [JSON.stringify] of the two idempotency payloads, [applyPatch] of
    fast-json-patch on patches that leave the document an object, the
    three calls of the remote agent API with the outcome of each request
    ([lettaCreate] gives the id of the new agent and the returned
    document), and whether the runtime keeps the legacy [__proto__]
    accessor on [Object.prototype] (Deno removes it unless it is started
    with [--unstable-unsafe-proto]). The Supabase client is taken to be
    initialised, and its queries to fail only on a violated constraint. *)
Record Platform := mkPlatform {
  ZUPLO_BASE_URL : option string;
  LETTA_API_KEY : option string;
  legacy_proto : bool;
  sha256 : string -> string;
  decode : string -> Exn + (Format * option AgentFile);
  stringifyCreate : CreateAgentInput -> string -> string;
  stringifyUpgrade : UpgradeAgentInput -> string -> string;
  applyPatch : Config -> list PatchOp -> Exn + Config;
  lettaCreate : Config -> Exn + (string * Config);
  lettaFetch : string -> Exn + Config;
  lettaUpdate : string -> Config -> Exn + Config
}.

(** *** HTTP responses *)

Inductive Status := OK | BadRequest | Forbidden | NotFound | Conflict | InternalServerError.

Inductive Body :=
| ErrorBody (error : option string)
| ValidationFailedBody (details : list string)
| PublishBody (format : Format) (r : PublishResponse)
| CreatedBody (agent : Config) (template_checksum : string)
| DryRunBody (plan : list MigrationStep) (diff : list DiffEntry) (warnings : list string)
| QueuedBody (plan : list MigrationStep)
| AppliedBody (agent : Config) (plan : list MigrationStep) (diff : list DiffEntry).

Record Response := mkResponse {
  status : Status;
  body : Body
}.

Definition jsonResponse (b : Body) (st : Status) : Response := mkResponse st b.

(** ** A state-and-exception monad for the handlers *)

Definition M (A : Type) : Type := Store -> (Exn + A) * Store.

Definition ret {A} (a : A) : M A := fun s => (inr a, s).

Definition throw {A} (e : Exn) : M A := fun s => (inl e, s).

Definition bind {A B} (m : M A) (k : A -> M B) : M B :=
  fun s => match m s with
           | (inr a, s') => k a s'
           | (inl e, s') => (inl e, s')
           end.

Definition gets {A} (f : Store -> A) : M A := fun s => (inr (f s), s).

Definition modify (f : Store -> Store) : M unit := fun s => (inr tt, f s).

(** Lift a pure computation that may throw. *)
Definition lift {A} (r : Exn + A) : M A := fun s => (r, s).

Notation "'let*' x ':=' m 'in' k" := (bind m (fun x => k))
  (at level 10, x pattern, m at level 100, k at level 200).

(** [error.message ?? String(error)]. *)
Definition exn_message (e : Exn) : string :=
  match e with
  | IdempotencyError m => m
  | Error m => m
  | TypeError m => m
  end.

(** The response built by the [catch] block of the handlers. *)
Definition error_response (e : Exn) : Response :=
  match e with
  | IdempotencyError msg => jsonResponse (ErrorBody (Some msg)) Conflict
  | _ => jsonResponse (ErrorBody (Some (exn_message e))) InternalServerError
  end.

(** The [try]/[catch] around every handler body. *)
Definition catch_handler (m : M Response) : Store -> Response * Store :=
  fun s => match m s with
           | (inr r, s') => (r, s')
           | (inl e, s') => (error_response e, s')
           end.

(** Store updates, one per table. *)
Definition set_af_templates (f : gset string -> gset string) (s : Store) : Store :=
  mkStore (f (af_templates s)) (af_versions s) (agent_instances s) (agent_migrations s)
          (request_dedup s) (user_profiles s) (af_cache s) (upgrade_jobs s) (letta_updates s)
          (auth_users s).
Definition set_af_versions (f : list VersionRow -> list VersionRow) (s : Store) : Store :=
  mkStore (af_templates s) (f (af_versions s)) (agent_instances s) (agent_migrations s)
          (request_dedup s) (user_profiles s) (af_cache s) (upgrade_jobs s) (letta_updates s)
          (auth_users s).
Definition set_agent_instances
    (f : gmap string AgentInstance -> gmap string AgentInstance) (s : Store) : Store :=
  mkStore (af_templates s) (af_versions s) (f (agent_instances s)) (agent_migrations s)
          (request_dedup s) (user_profiles s) (af_cache s) (upgrade_jobs s) (letta_updates s)
          (auth_users s).
Definition set_agent_migrations
    (f : list MigrationAttempt -> list MigrationAttempt) (s : Store) : Store :=
  mkStore (af_templates s) (af_versions s) (agent_instances s) (f (agent_migrations s))
          (request_dedup s) (user_profiles s) (af_cache s) (upgrade_jobs s) (letta_updates s)
          (auth_users s).
Definition set_request_dedup (f : gmap string string -> gmap string string) (s : Store) : Store :=
  mkStore (af_templates s) (af_versions s) (agent_instances s) (agent_migrations s)
          (f (request_dedup s)) (user_profiles s) (af_cache s) (upgrade_jobs s) (letta_updates s)
          (auth_users s).
Definition set_user_profiles (f : gmap string string -> gmap string string) (s : Store) : Store :=
  mkStore (af_templates s) (af_versions s) (agent_instances s) (agent_migrations s)
          (request_dedup s) (f (user_profiles s)) (af_cache s) (upgrade_jobs s) (letta_updates s)
          (auth_users s).
Definition set_af_cache (f : gmap string string -> gmap string string) (s : Store) : Store :=
  mkStore (af_templates s) (af_versions s) (agent_instances s) (agent_migrations s)
          (request_dedup s) (user_profiles s) (f (af_cache s)) (upgrade_jobs s) (letta_updates s)
          (auth_users s).
Definition set_upgrade_jobs (f : list UpgradeJob -> list UpgradeJob) (s : Store) : Store :=
  mkStore (af_templates s) (af_versions s) (agent_instances s) (agent_migrations s)
          (request_dedup s) (user_profiles s) (af_cache s) (f (upgrade_jobs s)) (letta_updates s)
          (auth_users s).
Definition set_letta_updates
    (f : list (string * Config) -> list (string * Config)) (s : Store) : Store :=
  mkStore (af_templates s) (af_versions s) (agent_instances s) (agent_migrations s)
          (request_dedup s) (user_profiles s) (af_cache s) (upgrade_jobs s) (f (letta_updates s))
          (auth_users s).

(** ** Parsing and validation *)

Definition parseAgentFile (P : Platform) (rawBody : string)
  : Exn + (string * AgentFile * Format) :=
  if negb (truthy rawBody) then inl (Error "Empty body")
  else
    match decode P rawBody with
    | inl e => inl e
    | inr (_, None) => inl (Error "Invalid Agent File content")
    | inr (format, Some agentFile) => inr (rawBody, agentFile, format)
    end.

Record Validation := mkValidation {
  valid : bool;
  errors : list string
}.

Definition validateStep (migration : MigrationSpec) (step : MigrationStep) : list string :=
  match step_type step with
  | json_patch =>
      match step_patch step with
      | None => ["Migration " +:+ mig_from migration +:+ "->" +:+ mig_to migration
                   +:+ " missing patch"]
      | Some _ => []
      end
  | script =>
      if truthy_opt (code <$> step_script step) then []
      else ["Migration " +:+ mig_from migration +:+ "->" +:+ mig_to migration
              +:+ " missing script"]
  end.

Definition validateMigration (migration : MigrationSpec) : list string :=
  (if negb (truthy (mig_from migration)) || negb (truthy (mig_to migration))
   then ["Migration entries must include from and to versions"] else [])
  ++ concat (List.map (validateStep migration) (mig_steps migration)).

Definition validateAgentFile (agentFile : AgentFile) : Validation :=
  let v := version (template agentFile) in
  let errors :=
    (if negb (truthy (af_version agentFile)) then ["af_version is required"] else [])
    ++ (if negb (truthy (id (template agentFile))) then ["template.id is required"] else [])
    ++ (if negb (truthy v) then ["template.version is required"] else [])
    ++ (if negb (truthy (system_prompt (persona agentFile)))
        then ["persona.system_prompt is required"] else [])
    ++ (if negb (truthy (model (engine agentFile))) then ["engine.model is required"] else [])
    ++ (if negb (truthy (embedding (engine agentFile)))
        then ["engine.embedding is required"] else [])
    ++ (if truthy v && negb (Semver.valid v)
        then ["template.version " +:+ v +:+ " is not valid SemVer"] else [])
    ++ match migrations agentFile with
       | Some ms => concat (List.map validateMigration ms)
       | None => []
       end in
  mkValidation (match errors with [] => true | _ => false end) errors.

(** ** VersionStore *)

Definition cacheAgentFile (templateId version raw : string) : M unit :=
  modify (set_af_cache (insert (templateId +:+ "/" +:+ version +:+ ".af") raw)).

(** [.maybeSingle()]: no row gives [null], several rows give an error. *)
Definition maybeSingle {A} (rows : list A) : Exn + option A :=
  match rows with
  | [] => inr None
  | [r] => inr (Some r)
  | _ => inl (Error "JSON object requested, multiple (or no) rows returned")
  end.

Definition resolveTemplateVersion (P : Platform)
    (templateId : string) (version : option string) (useLatest : bool)
  : M (AgentFile * string) :=
  let* rows := gets (fun s =>
    List.filter (fun r => String.eqb (vr_template_id r) templateId) (af_versions s)) in
  let* query :=
    match version with
    | Some v =>
        if truthy v then ret (List.filter (fun r => String.eqb (vr_version r) v) rows)
        else if useLatest then ret (List.filter vr_is_latest rows)
        else throw (Error "Either version or use_latest must be provided")
    | None =>
        if useLatest then ret (List.filter vr_is_latest rows)
        else throw (Error "Either version or use_latest must be provided")
    end in
  let* data := lift (maybeSingle query) in
  match data with
  | None => throw (Error "Template version not found")
  | Some row =>
      let* (_, parsed, _) := lift (parseAgentFile P (vr_af_source row)) in
      ret (parsed, vr_af_source row)
  end.

(** ** MigrationPlanner *)

(** The [while] loop of [buildMigrationPlan], bounded by [fuel] iterations
    ([None] when the bound is reached before the loop ends). *)
Fixpoint plan_loop (fuel : nat) (targetVersion : string) (migrations : list MigrationSpec)
    (version : string) (guard : gset string) (path : list MigrationStep)
  : option (Exn + list MigrationStep) :=
  match fuel with
  | O => None
  | S fuel' =>
      if String.eqb version targetVersion then Some (inr path)
      else if bool_decide (version ∈ guard) then
        Some (inl (Error "Circular migration plan detected"))
      else
        match find_first (fun m => String.eqb (mig_from m) version) migrations with
        | None =>
            Some (inl (Error ("No migration step found from " +:+ version
                                +:+ " towards " +:+ targetVersion)))
        | Some step =>
            plan_loop fuel' targetVersion migrations (mig_to step)
                      ({[version]} ∪ guard) (path ++ mig_steps step)
        end
  end.

Definition buildMigrationPlan_fuel (fuel : nat)
    (currentVersion targetVersion : string) (migrations : list MigrationSpec)
  : option (Exn + list MigrationStep) :=
  if String.eqb currentVersion targetVersion then Some (inr [])
  else plan_loop fuel targetVersion migrations currentVersion ∅ [].

(** Every pass of the loop that does not leave it adds to [guard] a new
    version that some migration starts from, so one more pass than there
    are migrations is always enough. *)
Definition buildMigrationPlan
    (currentVersion targetVersion : string) (migrations : list MigrationSpec)
  : option (Exn + list MigrationStep) :=
  buildMigrationPlan_fuel (S (length migrations)) currentVersion targetVersion migrations.

(** ** DryRunEngine *)

Definition billing_endpoint (P : Platform) (userId : string) : string :=
  default "undefined" (ZUPLO_BASE_URL P) +:+ "/api/v1/agents/" +:+ userId +:+ "/messages".

(** The [for] loop of [performDryRun] over the plan. *)
Fixpoint dry_run_steps (P : Platform) (plan : list MigrationStep)
    (updatedConfig : Config) (warnings : list string) : Exn + (Config * list string) :=
  match plan with
  | [] => inr (updatedConfig, warnings)
  | step :: rest =>
      match step_type step with
      | json_patch =>
          match applyPatch P updatedConfig (default [] (step_patch step)) with
          | inl e => inl e
          | inr newDocument => dry_run_steps P rest newDocument warnings
          end
      | script =>
          dry_run_steps P rest updatedConfig
            (warnings ++ ["Script step executed in dry-run only: "
                            +:+ default "no description" (step_description step)])
      end
  end.

Definition performDryRun (P : Platform) (plan : list MigrationStep)
    (currentConfig : Config) (userId : string) : Exn + DryRunResult :=
  let diff0 : list DiffEntry := [] in
  match dry_run_steps P plan currentConfig [] with
  | inl e => inl e
  | inr (config, warnings) =>
      let endpoint := billing_endpoint P userId in
      let config1 := <["model_endpoint" := JStr endpoint]> config in
      let config2 := <["embedding_endpoint" := JStr endpoint]> config1 in
      let diff1 := diff0 ++ [mkDiffEntry "set" "/model_endpoint" (Some (JStr endpoint))] in
      let diff2 := diff1 ++ [mkDiffEntry "set" "/embedding_endpoint" (Some (JStr endpoint))] in
      inr (mkDryRun diff2 warnings config2)
  end.

(** ** IdempotencyGuard *)

Definition ensureIdempotency (P : Platform) (key : option string) (payloadHashSource : string)
  : M unit :=
  match key with
  | None => ret tt
  | Some k =>
      if negb (truthy k) then ret tt
      else
        let checksum := sha256 P payloadHashSource in
        let* data := gets (fun s => request_dedup s !! k) in
        match data with
        | Some stored =>
            if negb (String.eqb stored checksum) then
              throw (IdempotencyError "Idempotency key re-used with different payload")
            else throw (IdempotencyError "Duplicate request")
        | None => modify (set_request_dedup (insert k checksum))
        end
  end.

(** ** Remote agent API *)

Definition createLettaAgent (P : Platform) (config : Config) : M (string * Config) :=
  if negb (truthy_opt (LETTA_API_KEY P)) then throw (Error "Missing Letta API key")
  else lift (lettaCreate P config).

Definition fetchLettaAgent (P : Platform) (agentId : string) : M Config :=
  if negb (truthy_opt (LETTA_API_KEY P)) then throw (Error "Missing Letta API key")
  else lift (lettaFetch P agentId).

(** The PATCH request is recorded in [letta_updates] when it is sent,
    whatever the remote side answers. *)
Definition updateLettaAgent (P : Platform) (agentId : string) (config : Config) : M Config :=
  if negb (truthy_opt (LETTA_API_KEY P)) then throw (Error "Missing Letta API key")
  else
    let* _ := modify (set_letta_updates (fun calls => calls ++ [(agentId, config)])) in
    lift (lettaUpdate P agentId config).

(** ** Publishing *)

Definition same_version (templateId version : string) (r : VersionRow) : bool :=
  String.eqb (vr_template_id r) templateId && String.eqb (vr_version r) version.

(** [insert] into [af_versions]: [false] is the unique violation 23505 on
    the primary key. *)
Definition insertVersion (row : VersionRow) : M bool :=
  fun s =>
    if existsb (same_version (vr_template_id row) (vr_version row)) (af_versions s)
    then (inr false, s)
    else (inr true, set_af_versions (fun rows => rows ++ [row]) s).

(** [update({ is_latest: false }).eq("template_id", t).neq("version", v)]. *)
Definition resetLatest (templateId version : string) (rows : list VersionRow) : list VersionRow :=
  List.map (fun r =>
    if String.eqb (vr_template_id r) templateId && negb (String.eqb (vr_version r) version)
    then mkVersionRow (vr_template_id r) (vr_version r) (vr_af_source r) (vr_checksum r) false
    else r) rows.

(** [from("af_versions").select("version").eq("template_id", templateId)]. *)
Definition selectVersions (templateId : string) (s : Store) : list string :=
  List.map vr_version
    (List.filter (fun r => String.eqb (vr_template_id r) templateId) (af_versions s)).

Definition handlePublishTemplate (P : Platform) (rawBody : string)
    (idempotencyKey : option string) : Store -> Response * Store :=
  catch_handler (
    let* (raw, agentFile, format) := lift (parseAgentFile P rawBody) in
    let* _ := ensureIdempotency P idempotencyKey rawBody in
    let validation := validateAgentFile agentFile in
    if negb (valid validation) then
      ret (jsonResponse (ValidationFailedBody (errors validation)) BadRequest)
    else
      let templateId := id (template agentFile) in
      let version := version (template agentFile) in
      let* existingVersions := gets (selectVersions templateId) in
      let* semverResult := lift (assessSemver version existingVersions) in
      if negb (allowed semverResult) then
        ret (jsonResponse (ErrorBody (message semverResult)) BadRequest)
      else
        let checksum := sha256 P raw in
        let* _ := modify (set_af_templates (fun t => {[templateId]} ∪ t)) in
        let* inserted := insertVersion (mkVersionRow templateId version raw checksum true) in
        if negb inserted then
          ret (jsonResponse (ErrorBody (Some "Version already exists")) Conflict)
        else
          let* _ := modify (set_af_versions (resetLatest templateId version)) in
          let* _ := cacheAgentFile templateId version raw in
          ret (jsonResponse
                 (PublishBody format (mkPublishResponse templateId version checksum true)) OK)).

(** ** Creating an agent *)

Definition buildAgentConfigFromTemplate (P : Platform) (agentFile : AgentFile) (userId : string)
  : Exn + Config :=
  if negb (truthy_opt (ZUPLO_BASE_URL P)) then inl (Error "Missing Zuplo base URL")
  else
    let endpoint := billing_endpoint P userId in
    inr (<["model" := JStr (model (engine agentFile))]>
         (<["embedding" := JStr (embedding (engine agentFile))]>
         (<["model_endpoint" := JStr endpoint]>
         (<["embedding_endpoint" := JStr endpoint]>
         (<["hyperparams" := default (JObj []) (hyperparams (engine agentFile))]>
         (<["system_prompt" := JStr (system_prompt (persona agentFile))]>
         (<["tools" := default (JArr []) (tools agentFile)]>
         (<["init_messages" := default (JArr []) (init_messages agentFile)]> ∅)))))))).

(** [Array.prototype.join] with the separator ", ". *)
Fixpoint join_comma (l : list string) : string :=
  match l with
  | [] => ""
  | [x] => x
  | x :: l' => x +:+ ", " +:+ join_comma l'
  end.

(** The property names that every object created by [JSON.parse] or by an
    object literal inherits from [Object.prototype]. *)
Definition object_prototype_keys : list string :=
  ["constructor"; "hasOwnProperty"; "isPrototypeOf"; "propertyIsEnumerable";
   "toLocaleString"; "toString"; "valueOf";
   "__defineGetter__"; "__defineSetter__"; "__lookupGetter__"; "__lookupSetter__"].

(** [key in object]: an own property, or one found on the prototype. *)
Definition has_property (P : Platform) (object : Config) (key : string) : bool :=
  bool_decide (is_Some (object !! key))
  || includes object_prototype_keys key
  || (legacy_proto P && String.eqb key "__proto__").

Definition validateTemplateVariables (P : Platform) (agentFile : AgentFile)
    (variables : Config) : Exn + unit :=
  match variables_schema (persona agentFile) with
  | None => inr tt
  | Some schema =>
      match required schema with
      | None => inr tt
      | Some req =>
          let missing := List.filter (fun key => negb (has_property P variables key)) req in
          match missing with
          | [] => inr tt
          | _ => inl (Error ("Missing required variables: " +:+ join_comma missing))
          end
      end
  end.

(** The double quote, for the messages of the database. *)
Definition quoted (s : string) : string :=
  String (ascii_of_N 34) s +:+ String (ascii_of_N 34) "".

(** The two constraints of [user_profiles] that a write of this function
    can violate: the unique [letta_agent_id] and the foreign key of [id]
    to [auth.users]. *)
Definition unique_violation : Exn :=
  Error ("duplicate key value violates unique constraint "
           +:+ quoted "user_profiles_letta_agent_id_key").

Definition foreign_key_violation : Exn :=
  Error ("insert or update on table " +:+ quoted "user_profiles"
           +:+ " violates foreign key constraint " +:+ quoted "user_profiles_id_fkey").

(** Whether the profile of another user binds [agentId]. *)
Definition bound_elsewhere (userId agentId : string) (profiles : gmap string string) : bool :=
  existsb (fun row => negb (String.eqb (fst row) userId) && String.eqb (snd row) agentId)
          (map_to_list profiles).

(** The update of an existing row is refused when it breaks the unique
    constraint; the insert of a new row is refused when it breaks the
    unique constraint, which the insertion into the index checks, or else
    the foreign key, which is checked at the end of the statement. *)
Definition upsertUserProfileAgent (userId agentId : string) : M unit :=
  let* existing := gets (fun s => user_profiles s !! userId) in
  match existing with
  | Some _ =>
      let* taken := gets (fun s => bound_elsewhere userId agentId (user_profiles s)) in
      if taken then throw unique_violation
      else modify (set_user_profiles (insert userId agentId))
  | None =>
      let* taken := gets (fun s => bound_elsewhere userId agentId (user_profiles s)) in
      if taken then throw unique_violation
      else
        let* known := gets (fun s => bool_decide (userId ∈ auth_users s)) in
        if negb known then throw foreign_key_violation
        else modify (set_user_profiles (insert userId agentId))
  end.

Definition handleCreateAgent (P : Platform) (payload : CreateAgentInput) (userId : string)
    (idempotencyKey : option string) : Store -> Response * Store :=
  if negb (truthy_opt (ZUPLO_BASE_URL P)) then
    fun s => (jsonResponse (ErrorBody (Some "Missing Zuplo base URL")) InternalServerError, s)
  else
  catch_handler (
    let* _ := ensureIdempotency P idempotencyKey (stringifyCreate P payload userId) in
    let* (resolved, raw) :=
      resolveTemplateVersion P (ci_template_id payload) (ci_version payload)
                             (default false (ci_use_latest payload)) in
    let variables := default ∅ (ci_variables payload) in
    let* _ := lift (validateTemplateVariables P resolved variables) in
    let* config0 := lift (buildAgentConfigFromTemplate P resolved userId) in
    let config :=
      if truthy_opt (ci_agent_name payload)
      then <["name" := JStr (default "" (ci_agent_name payload))]> config0
      else config0 in
    let* (agentId, agent) := createLettaAgent P config in
    let* _ := modify (set_agent_instances
      (insert agentId (mkInstance agentId userId (id (template resolved))
                                  (version (template resolved)) variables))) in
    let* _ := upsertUserProfileAgent userId agentId in
    ret (jsonResponse (CreatedBody agent (sha256 P raw)) OK)).

(** ** UpgradeDispatcher *)

Definition logMigration (agentId fromVersion toVersion : string) (dryRun : bool)
    (plan : list MigrationStep) (diff : list DiffEntry) : M unit :=
  modify (set_agent_migrations (fun log =>
    log ++ [mkAttempt agentId fromVersion toVersion dryRun plan diff
                      (if dryRun then "dry_run" else "applied")])).

Definition enqueueUpgradeJob (job : UpgradeJob) : M unit :=
  modify (set_upgrade_jobs (fun q => q ++ [job])).

(** The planner is called with enough passes for its loop to end
    ([buildMigrationPlan_terminates] below), so the fallback of [default]
    is never taken. *)
Definition handleUpgradeAgent (P : Platform) (agentId : string) (payload : UpgradeAgentInput)
    (userId : option string) (idempotencyKey : option string) : Store -> Response * Store :=
  if negb (truthy_opt (ZUPLO_BASE_URL P)) then
    fun s => (jsonResponse (ErrorBody (Some "Missing Zuplo base URL")) InternalServerError, s)
  else
  catch_handler (
    let* _ := ensureIdempotency P idempotencyKey (stringifyUpgrade P payload agentId) in
    let* agentRecord := gets (fun s => agent_instances s !! agentId) in
    match agentRecord with
    | None => ret (jsonResponse (ErrorBody (Some "Agent not found")) NotFound)
    | Some agentRecord =>
        if truthy_opt userId && negb (String.eqb (default "" userId) (ai_user_id agentRecord))
        then ret (jsonResponse (ErrorBody (Some "Forbidden")) Forbidden)
        else
          let* (resolved, _) :=
            resolveTemplateVersion P (ai_template_id agentRecord) (target_version payload)
                                   (default true (use_latest payload)) in
          let toVersion := version (template resolved) in
          let* plan :=
            lift (default (inl (Error "migration planner did not finish"))
                    (buildMigrationPlan (ai_version agentRecord) toVersion
                                        (default [] (migrations resolved)))) in
          let* currentConfig := fetchLettaAgent P agentId in
          let* dryRunResult := lift (performDryRun P plan currentConfig (ai_user_id agentRecord)) in
          if default true (dry_run payload) then
            let* _ := logMigration agentId (ai_version agentRecord) toVersion true plan
                                   (diff dryRunResult) in
            ret (jsonResponse (DryRunBody plan (diff dryRunResult) (warnings dryRunResult)) OK)
          else if default false (use_queue payload) then
            let* _ := enqueueUpgradeJob
              (mkJob agentId (ai_user_id agentRecord) (ai_version agentRecord) toVersion plan) in
            ret (jsonResponse (QueuedBody plan) OK)
          else
            let* applied := updateLettaAgent P agentId (updatedConfig dryRunResult) in
            let* _ := modify (set_agent_instances (alter (fun r =>
              mkInstance (ai_agent_id r) (ai_user_id r) (ai_template_id r) toVersion
                         (ai_variables r)) agentId)) in
            let* _ := logMigration agentId (ai_version agentRecord) toVersion false plan
                                   (diff dryRunResult) in
            ret (jsonResponse (AppliedBody applied plan (diff dryRunResult)) OK)
    end).


(** ** Vocabulary of the properties *)

(** *** Planner outcomes *)

(** The versions some migration starts from. *)
Definition origins (migrations : list MigrationSpec) : gset string :=
  list_to_set (List.map mig_from migrations).

Definition no_path_error (version targetVersion : string) : Exn :=
  Error ("No migration step found from " +:+ version +:+ " towards " +:+ targetVersion).

Definition circular_error : Exn := Error "Circular migration plan detected".

(** The node reached from [currentVersion] after [n] edges, each the first
    migration that starts at the node before it. *)
Fixpoint walk (migrations : list MigrationSpec) (currentVersion : string) (n : nat)
  : option string :=
  match n with
  | O => Some currentVersion
  | S n' =>
      match walk migrations currentVersion n' with
      | Some v => mig_to <$> find_first (fun m => String.eqb (mig_from m) v) migrations
      | None => None
      end
  end.

(** The three ways the planner can end, read on the walk from
    [currentVersion]: the target is reached; a node before the target has
    no outgoing edge; a node comes back before the target is reached. *)
Inductive plan_outcome (currentVersion targetVersion : string)
    (migrations : list MigrationSpec) : Exn + list MigrationStep -> Prop :=
| plan_steps n steps :
    walk migrations currentVersion n = Some targetVersion ->
    (forall k, k < n -> walk migrations currentVersion k <> Some targetVersion) ->
    plan_outcome currentVersion targetVersion migrations (inr steps)
| plan_no_path n version :
    walk migrations currentVersion n = Some version ->
    (forall k, k <= n -> walk migrations currentVersion k <> Some targetVersion) ->
    find_first (fun m => String.eqb (mig_from m) version) migrations = None ->
    plan_outcome currentVersion targetVersion migrations
                 (inl (no_path_error version targetVersion))
| plan_circular i j version :
    i < j ->
    walk migrations currentVersion i = Some version ->
    walk migrations currentVersion j = Some version ->
    (forall k, k <= j -> walk migrations currentVersion k <> Some targetVersion) ->
    plan_outcome currentVersion targetVersion migrations (inl circular_error).

(** *** Order vocabulary for the SemVer gate *)

(** A three-way comparison that behaves as a total preorder. *)
Record cmp_order {A} (c : A -> A -> comparison) : Prop := mk_cmp_order {
  cmp_refl : forall x, c x x = Eq;
  cmp_antisym : forall x y, c y x = CompOpp (c x y);
  cmp_trans : forall x y z, c x y = Lt -> c y z = Lt -> c x z = Lt;
  cmp_eq_compat : forall x y z, c x y = Eq -> c x z = c y z
}.

(** The precedence of the SemVer specification on parsed versions, with
    numeric identifiers compared as the numbers they are. *)
Definition precedenceIdentifiers (a b : Semver.Identifier) : comparison :=
  match a, b with
  | Semver.Num x, Semver.Num y => N.compare x y
  | Semver.Num _, Semver.Alnum _ => Lt
  | Semver.Alnum _, Semver.Num _ => Gt
  | Semver.Alnum s, Semver.Alnum t => String.compare s t
  end.

Fixpoint precedenceLists (p q : list Semver.Identifier) : comparison :=
  match p, q with
  | [], [] => Eq
  | _ :: _, [] => Gt
  | [], _ :: _ => Lt
  | a :: p', b :: q' =>
      match precedenceIdentifiers a b with
      | Eq => precedenceLists p' q'
      | c => c
      end
  end.

Definition precedencePre (a b : Semver.SemVer) : comparison :=
  match Semver.prerelease a, Semver.prerelease b with
  | _ :: _, [] => Lt
  | [], _ :: _ => Gt
  | [], [] => Eq
  | p, q => precedenceLists p q
  end.

Definition precedence (a b : Semver.SemVer) : comparison :=
  Semver.or_else (Semver.compareMain a b) (precedencePre a b).

(** A version is safe when it is valid SemVer and every numeric
    identifier of its pre-release is a safe integer, at most 2^53 - 1:
    those are the numbers that their doubles tell apart. *)
Definition safe_identifier (a : Semver.Identifier) : bool :=
  match a with
  | Semver.Num n => (n <=? Semver.MAX_SAFE_INTEGER)%N
  | Semver.Alnum _ => true
  end.

Definition safe_semver (x : Semver.SemVer) : bool :=
  forallb safe_identifier (Semver.prerelease x).

Definition safe_version (v : string) : bool :=
  match Semver.parse v with
  | inr x => safe_semver x
  | inl _ => false
  end.

(** Every valid entry of the list is safe. *)
Definition safe_versions (existing : list string) : Prop :=
  forall e, In e existing -> Semver.valid e = true -> safe_version e = true.

(** [m] is a maximum of the valid entries of [existing] under the
    package's comparison. *)
Definition is_semver_max (existing : list string) (m : string) : Prop :=
  In m existing /\ Semver.valid m = true
  /\ forall e, In e existing -> Semver.valid e = true -> Semver.compare e m <> inr Gt.

Definition duplicate_rejection : SemverAssessment :=
  mkAssessment false (Some "Version already published").

Definition regressive_rejection (nextVersion latest : string) : SemverAssessment :=
  mkAssessment false
    (Some ("Version " +:+ nextVersion +:+ " is lower than latest " +:+ latest)).

Definition allowance : SemverAssessment := mkAssessment true None.

(** *** The diff the specification describes *)


(** The entries that record the forced billing endpoint. *)
Definition override_entries (P : Platform) (userId : string) : list DiffEntry :=
  [mkDiffEntry "set" "/model_endpoint" (Some (JStr (billing_endpoint P userId)));
   mkDiffEntry "set" "/embedding_endpoint" (Some (JStr (billing_endpoint P userId)))].


(** *** Store predicates *)

(** The number of versions of a template flagged as latest. *)
Definition latest_count (templateId : string) (rows : list VersionRow) : nat :=
  length (List.filter (fun r => String.eqb (vr_template_id r) templateId && vr_is_latest r) rows).

Definition at_most_one_latest (s : Store) : Prop :=
  forall templateId, latest_count templateId (af_versions s) <= 1.

(** A sequence of publish requests, each a body with its idempotency key. *)
Fixpoint publish_all (P : Platform) (requests : list (string * option string)) (s : Store)
  : Store :=
  match requests with
  | [] => s
  | (rawBody, key) :: rest => publish_all P rest (snd (handlePublishTemplate P rawBody key s))
  end.

(** ** A sample deployment

    Stand-ins for the external collaborators, used to run the handlers on
    concrete requests: the body of a template is its version string, the
    hash tags its input, and the patch library knows the operations add,
    replace and remove on top-level keys, where replace sets the key
    whether or not it is present, as fast-json-patch does without
    validation; the stand-in refuses everything else. *)

Definition sample_patch : list PatchOp :=
  [mkPatchOp "replace" "/model" None (Some (JStr "gpt-4o-mini"))].

Definition sample_migrations : list MigrationSpec :=
  [mkMigration "1.0.0" "1.0.1" [mkStep json_patch None (Some sample_patch) None]].

Definition sampleAgentFile (version : string) : AgentFile :=
  mkAgentFile "1.0"
    (mkTemplateInfo "sample-support-agent" "Sample Support Agent" version)
    (mkEngine "gpt-4o" "text-embedding-3-large" None)
    (mkPersona "You are a helpful assistant." (Some (mkSchema (Some []))))
    None (Some (JArr []))
    (if String.eqb version "1.0.1" then Some sample_migrations else None).

Definition sample_pointer (path : string) : option string :=
  match path with
  | String "/"%char key => Some key
  | _ => None
  end.

Fixpoint sampleApplyPatch (document : Config) (operations : list PatchOp) : Exn + Config :=
  match operations with
  | [] => inr document
  | o :: rest =>
      match sample_pointer (path o), value o with
      | Some key, Some v =>
          if String.eqb (op o) "add" then sampleApplyPatch (<[key := v]> document) rest
          else if String.eqb (op o) "replace" then
            sampleApplyPatch (<[key := v]> document) rest
          else inl (Error "operation outside the sample patch library")
      | Some key, None =>
          if String.eqb (op o) "remove" then sampleApplyPatch (delete key document) rest
          else inl (Error "operation outside the sample patch library")
      | None, _ => inl (Error "path outside the sample patch library")
      end
  end.

Definition sampleConfig : Config :=
  <["model" := JStr "gpt-4o"]> (<["system_prompt" := JStr "You are a helpful assistant."]> ∅).

Definition samplePlatform : Platform :=
  mkPlatform
    (Some "https://gateway.example.com")
    (Some "letta-key")
    false
    (fun content => "sha256:" +:+ content)
    (fun rawBody => inr (yaml, Some (sampleAgentFile rawBody)))
    (fun payload userId => "create:" +:+ userId)
    (fun payload agentId => "upgrade:" +:+ agentId)
    sampleApplyPatch
    (fun config => inr ("agent-1", config))
    (fun agentId => inr sampleConfig)
    (fun agentId config => inr config).

(** The same deployment with a remote API that refuses every update. *)
Definition refusingPlatform : Platform :=
  mkPlatform
    (ZUPLO_BASE_URL samplePlatform) (LETTA_API_KEY samplePlatform)
    (legacy_proto samplePlatform) (sha256 samplePlatform)
    (decode samplePlatform) (stringifyCreate samplePlatform) (stringifyUpgrade samplePlatform)
    (applyPatch samplePlatform) (lettaCreate samplePlatform) (lettaFetch samplePlatform)
    (fun agentId config => inl (Error ("Failed to update agent " +:+ agentId +:+ ": 500 refused"))).

Definition sample_user : string := "00000000-0000-0000-0000-000000000000".

(** The store after publishing 1.0.0 and 1.0.1 and creating an agent at
    1.0.0. *)
Definition sample_store : Store :=
  mkStore {["sample-support-agent"]}
    [mkVersionRow "sample-support-agent" "1.0.0" "1.0.0" "sha256:1.0.0" false;
     mkVersionRow "sample-support-agent" "1.0.1" "1.0.1" "sha256:1.0.1" true]
    {["agent-1" := mkInstance "agent-1" sample_user "sample-support-agent" "1.0.0" ∅]}
    [] ∅ {[sample_user := "agent-1"]} ∅ [] [] {[sample_user]}.

Definition sample_plan : list MigrationStep :=
  [mkStep json_patch None (Some sample_patch) None].

(** The two failures of the idempotency guard. *)
Definition duplicate_request : Exn := IdempotencyError "Duplicate request".

Definition key_conflict : Exn :=
  IdempotencyError "Idempotency key re-used with different payload".

(** The two failures of version resolution. *)
Definition ambiguous_selector : Exn := Error "Either version or use_latest must be provided".

Definition version_not_found : Exn := Error "Template version not found".

(** *** Outcomes of an upgrade request

    What the dispatcher answers and the store it leaves, from the store
    [s1] that the idempotency guard has passed on. *)

Definition attempt_of (agentId : string) (agentRecord : AgentInstance) (toVersion : string)
    (dryRun : bool) (plan : list MigrationStep) (r : DryRunResult) : MigrationAttempt :=
  mkAttempt agentId (ai_version agentRecord) toVersion dryRun plan (diff r)
            (if dryRun then "dry_run" else "applied").

Definition advance_version (toVersion : string) (r : AgentInstance) : AgentInstance :=
  mkInstance (ai_agent_id r) (ai_user_id r) (ai_template_id r) toVersion (ai_variables r).

Inductive upgrade_outcome (P : Platform) (agentId : string) (payload : UpgradeAgentInput)
    (s1 : Store) : Response -> Store -> Prop :=
| upgrade_refused r :
    status r <> OK ->
    upgrade_outcome P agentId payload s1 r s1
| upgrade_simulated agentRecord toVersion plan currentConfig r :
    agent_instances s1 !! agentId = Some agentRecord ->
    performDryRun P plan currentConfig (ai_user_id agentRecord) = inr r ->
    default true (dry_run payload) = true ->
    upgrade_outcome P agentId payload s1
      (jsonResponse (DryRunBody plan (diff r) (warnings r)) OK)
      (set_agent_migrations
         (fun log => log ++ [attempt_of agentId agentRecord toVersion true plan r]) s1)
| upgrade_enqueued agentRecord toVersion plan :
    agent_instances s1 !! agentId = Some agentRecord ->
    default true (dry_run payload) = false ->
    default false (use_queue payload) = true ->
    upgrade_outcome P agentId payload s1
      (jsonResponse (QueuedBody plan) OK)
      (set_upgrade_jobs
         (fun q => q ++ [mkJob agentId (ai_user_id agentRecord) (ai_version agentRecord)
                               toVersion plan]) s1)
| upgrade_update_failed agentRecord plan currentConfig r e :
    agent_instances s1 !! agentId = Some agentRecord ->
    performDryRun P plan currentConfig (ai_user_id agentRecord) = inr r ->
    default true (dry_run payload) = false ->
    default false (use_queue payload) = false ->
    lettaUpdate P agentId (updatedConfig r) = inl e ->
    upgrade_outcome P agentId payload s1
      (error_response e)
      (set_letta_updates (fun calls => calls ++ [(agentId, updatedConfig r)]) s1)
| upgrade_applied agentRecord toVersion plan currentConfig r applied :
    agent_instances s1 !! agentId = Some agentRecord ->
    performDryRun P plan currentConfig (ai_user_id agentRecord) = inr r ->
    default true (dry_run payload) = false ->
    default false (use_queue payload) = false ->
    lettaUpdate P agentId (updatedConfig r) = inr applied ->
    upgrade_outcome P agentId payload s1
      (jsonResponse (AppliedBody applied plan (diff r)) OK)
      (set_agent_migrations
         (fun log => log ++ [attempt_of agentId agentRecord toVersion false plan r])
         (set_agent_instances (alter (advance_version toVersion) agentId)
            (set_letta_updates (fun calls => calls ++ [(agentId, updatedConfig r)]) s1))).

(** Upgrade requests for the sample agent: one that leaves [dry_run] out,
    one that asks for queued execution, one that asks for a synchronous
    upgrade. *)
Definition sample_dry_request : UpgradeAgentInput :=
  mkUpgradeInput None (Some true) None None None.

Definition sample_queued_request : UpgradeAgentInput :=
  mkUpgradeInput None (Some true) None (Some false) (Some true).

Definition sample_sync_request : UpgradeAgentInput :=
  mkUpgradeInput None (Some true) None (Some false) None.

Definition with_dry_run (flag : option bool) (payload : UpgradeAgentInput) : UpgradeAgentInput :=
  mkUpgradeInput (target_version payload) (use_latest payload) (allow_minor_auto payload)
                 flag (use_queue payload).

(** A computation commutes with an update [g] of the store when it reads
    nothing that [g] changes and [g] changes nothing that it writes. *)
Definition commutes {A} (g : Store -> Store) (m : M A) : Prop :=
  forall s, m (g s) = (fst (m s), g (snd (m s))).

(** The answer to a request that repeats a recorded key and payload. *)
Definition duplicate_response : Response :=
  jsonResponse (ErrorBody (Some "Duplicate request")) Conflict.

(** ** Vocabulary of the further properties *)

(** *** Planner: the steps along the walk *)

(** The steps of the edge that leaves [version], none when there is no
    such edge. *)
Definition edge_steps (migrations : list MigrationSpec) (version : string)
  : list MigrationStep :=
  match find_first (fun m => String.eqb (mig_from m) version) migrations with
  | Some m => mig_steps m
  | None => []
  end.

(** The steps collected along the first [n] edges of the walk. *)
Fixpoint walk_steps (migrations : list MigrationSpec) (currentVersion : string) (n : nat)
  : list MigrationStep :=
  match n with
  | O => []
  | S n' =>
      walk_steps migrations currentVersion n'
      ++ match walk migrations currentVersion n' with
         | Some v => edge_steps migrations v
         | None => []
         end
  end.

(** The walk from [currentVersion] meets [targetVersion] after [n] edges
    and not before. *)
Definition first_reached (migrations : list MigrationSpec)
    (currentVersion targetVersion : string) (n : nat) : Prop :=
  walk migrations currentVersion n = Some targetVersion
  /\ forall k, k < n -> walk migrations currentVersion k <> Some targetVersion.

(** A chain of two edges. *)
Definition sample_chain : list MigrationSpec :=
  [mkMigration "1.0.0" "1.0.1" [mkStep json_patch None (Some sample_patch) None];
   mkMigration "1.0.1" "1.0.2"
     [mkStep script (Some "reindex memory") None (Some (mkScript "js" "reindex()"))]].

(** *** Dry run: warnings and forced endpoints *)

Definition script_warning (step : MigrationStep) : string :=
  "Script step executed in dry-run only: " +:+ default "no description" (step_description step).

(** One warning per script step of the plan, in plan order. *)
Definition script_warnings (plan : list MigrationStep) : list string :=
  List.map script_warning
    (List.filter (fun step => match step_type step with script => true | json_patch => false end)
                 plan).

Definition is_script (step : MigrationStep) : bool :=
  match step_type step with script => true | json_patch => false end.

(** The configuration with both billing endpoints forced. *)
Definition force_endpoints (P : Platform) (userId : string) (config : Config) : Config :=
  <["embedding_endpoint" := JStr (billing_endpoint P userId)]>
    (<["model_endpoint" := JStr (billing_endpoint P userId)]> config).

(** A plan of two script steps around nothing else. *)
Definition sample_script_plan : list MigrationStep :=
  [mkStep script (Some "reindex memory") None (Some (mkScript "js" "reindex()"));
   mkStep script None None (Some (mkScript "js" "cleanup()"))].

(** *** Validation *)

(** [errors.length === 0]. *)
Definition is_nil {A} (l : list A) : bool := match l with [] => true | _ => false end.

(** What [validateAgentFile] asks of a migration step: a patch step has a
    patch, a script step has code. *)
Definition step_well_formed (step : MigrationStep) : bool :=
  match step_type step with
  | json_patch => match step_patch step with Some _ => true | None => false end
  | script => truthy_opt (code <$> step_script step)
  end.

Definition migration_well_formed (migration : MigrationSpec) : bool :=
  truthy (mig_from migration) && truthy (mig_to migration)
  && forallb step_well_formed (mig_steps migration).

Definition agent_file_well_formed (agentFile : AgentFile) : bool :=
  truthy (af_version agentFile)
  && truthy (id (template agentFile))
  && truthy (system_prompt (persona agentFile))
  && truthy (model (engine agentFile))
  && truthy (embedding (engine agentFile))
  && Semver.valid (version (template agentFile))
  && forallb migration_well_formed (default [] (migrations agentFile)).

(** The variables a template requires. *)
Definition required_variables (agentFile : AgentFile) : list string :=
  match variables_schema (persona agentFile) with
  | Some schema => default [] (required schema)
  | None => []
  end.

(** [handleValidateTemplate]: parse and validate, nothing stored. *)
Inductive ValidateBody :=
| ValidationReport (format : Format) (validation : Validation)
| ValidationError (error : string).

Definition handleValidateTemplate (P : Platform) (rawBody : string) : Status * ValidateBody :=
  match parseAgentFile P rawBody with
  | inr (_, agentFile, format) => (OK, ValidationReport format (validateAgentFile agentFile))
  | inl e => (BadRequest, ValidationError (exn_message e))
  end.

(** *** Stored versions *)

(** The primary key of a version row. *)
Definition row_key (r : VersionRow) : string * string := (vr_template_id r, vr_version r).

(** Everything of a version row but its latest flag. *)
Definition row_content (r : VersionRow) : string * string * string * string :=
  (vr_template_id r, vr_version r, vr_af_source r, vr_checksum r).

(** A row as publish writes it: the source parses to a valid agent file
    with the template id and version of the row, and the checksum is the
    hash of the source. *)
Definition row_sound (P : Platform) (r : VersionRow) : Prop :=
  exists agentFile format,
    parseAgentFile P (vr_af_source r) = inr (vr_af_source r, agentFile, format)
    /\ id (template agentFile) = vr_template_id r
    /\ version (template agentFile) = vr_version r
    /\ valid (validateAgentFile agentFile) = true
    /\ vr_checksum r = sha256 P (vr_af_source r).

(** Every stored version is a safe version, and a version flagged latest
    is not below any version of its template. *)
Definition latest_is_highest (s : Store) : Prop :=
  (forall r, In r (af_versions s) -> safe_version (vr_version r) = true)
  /\ forall l r,
       In l (af_versions s) -> In r (af_versions s) ->
       vr_is_latest l = true -> vr_template_id r = vr_template_id l ->
       Semver.compare (vr_version r) (vr_version l) <> inr Gt.

(** No request of the sequence carries a template whose version is valid
    SemVer and not safe. *)
Definition safe_requests (P : Platform) (requests : list (string * option string)) : Prop :=
  forall rawBody key agentFile format,
    In (rawBody, key) requests ->
    parseAgentFile P rawBody = inr (rawBody, agentFile, format) ->
    Semver.valid (version (template agentFile)) = true ->
    safe_version (version (template agentFile)) = true.

(** The store after the sample deployment has published 1.0.0, 1.0.1. *)
Definition sample_requests : list (string * option string) :=
  [("1.0.0", None); ("1.0.1", Some "publish-2")].

(** *** Creating an agent *)

(** The configuration [handleCreateAgent] sends to the remote API. *)
Definition create_config (payload : CreateAgentInput) (config0 : Config) : Config :=
  if truthy_opt (ci_agent_name payload)
  then <["name" := JStr (default "" (ci_agent_name payload))]> config0
  else config0.

(** A create request for the sample template at 1.0.0. *)
Definition sample_create_request : CreateAgentInput :=
  mkCreateInput "sample-support-agent" (Some "1.0.0") None None (Some "helper").

(** The sample store before any agent is created, and a user id that
    [auth.users] does not hold. *)
Definition sample_published_store : Store :=
  set_agent_instances (fun _ => ∅) (set_user_profiles (fun _ => ∅) sample_store).

Definition sample_stranger : string := "11111111-1111-1111-1111-111111111111".

(** *** Upgrades *)

(** The plan an upgrade response carries. *)
Definition response_plan (r : Response) : option (list MigrationStep) :=
  match body r with
  | DryRunBody plan _ _ => Some plan
  | QueuedBody plan => Some plan
  | AppliedBody _ plan _ => Some plan
  | _ => None
  end.

(** ** The router

    [serve] dispatches on the path and the method of a request. Of the
    request only what the router reads is kept: the pathname of the URL,
    the method, the two headers and the body text. *)

Record Request := mkRequest {
  pathname : string;
  method : string;
  idempotency_header : option string;
  user_header : option string;
  body_text : string
}.

(** [req.json()] for the two JSON endpoints: the decoded payload, for
    create together with the [user_id] field that the router falls back
    on, or the thrown syntax error. *)
Record BodyParser := mkBodyParser {
  parseCreate : string -> Exn + (CreateAgentInput * option string);
  parseUpgrade : string -> Exn + UpgradeAgentInput
}.

(** Numeric HTTP status of the responses of the handlers. *)
Definition status_code (st : Status) : N :=
  match st with
  | OK => 200
  | BadRequest => 400
  | Forbidden => 403
  | NotFound => 404
  | Conflict => 409
  | InternalServerError => 500
  end%N.

Inductive ReplyBody :=
| HandlerBody (b : Body)
| HealthBody (database zuplo_base_url letta_api_key : string)
| ValidateReplyBody (b : ValidateBody)
| ProfileBody (profile : option (string * string)).

Record Reply := mkReply {
  reply_code : N;
  reply_body : ReplyBody
}.

Definition reply_of (r : Response) : Reply :=
  mkReply (status_code (status r)) (HandlerBody (body r)).

Definition error_reply (c : N) (msg : string) : Reply :=
  mkReply c (HandlerBody (ErrorBody (Some msg))).

(** [s] without the prefix [p], when it starts with [p]. *)
Fixpoint strip_prefix (p s : string) : option string :=
  match p with
  | EmptyString => Some s
  | String a p' =>
      match s with
      | String b s' => if Ascii.eqb a b then strip_prefix p' s' else None
      | EmptyString => None
      end
  end.

Definition string_rev (s : string) : string :=
  string_of_list_ascii (rev (list_ascii_of_string s)).

(** [s] without the suffix [p], when it ends with [p]. *)
Definition strip_suffix (p s : string) : option string :=
  string_rev <$> strip_prefix (string_rev p) (string_rev s).

(** [url.pathname.replace(/^\/?api\/v1\//, "")]. *)
Definition route_path (pathname : string) : string :=
  match strip_prefix "/api/v1/" pathname with
  | Some rest => rest
  | None => default pathname (strip_prefix "api/v1/" pathname)
  end.

Definition upper_char (c : ascii) : ascii :=
  let n := N_of_ascii c in
  if ((97 <=? n) && (n <=? 122))%N then ascii_of_N (n - 32) else c.

(** [String.prototype.toUpperCase] on ASCII text; a request method is an
    HTTP token and so is ASCII. *)
Fixpoint toUpperCase (s : string) : string :=
  match s with
  | EmptyString => EmptyString
  | String c s' => String (upper_char c) (toUpperCase s')
  end.

(** A character that the dot of a regular expression matches. *)
Definition dot_char (c : ascii) : bool :=
  let n := N_of_ascii c in negb ((n =? 10) || (n =? 13))%N.

Fixpoint all_chars (p : ascii -> bool) (s : string) : bool :=
  match s with
  | EmptyString => true
  | String c s' => p c && all_chars p s'
  end.

(** [path.match(/^agents\/(.+?)\/upgrade$/)]: the captured agent id. The
    lazy group has to stretch to the last [/upgrade], so it is whatever
    stands between the prefix and that suffix. *)
Definition upgradeMatch (path : string) : option string :=
  match strip_prefix "agents/" path with
  | Some rest =>
      match strip_suffix "/upgrade" rest with
      | Some agentId =>
          if truthy agentId && all_chars dot_char agentId then Some agentId else None
      | None => None
      end
  | None => None
  end.

Definition handleHealth (P : Platform) : Reply :=
  mkReply 200 (HealthBody "ok"
    (if truthy_opt (ZUPLO_BASE_URL P) then "ok" else "missing")
    (if truthy_opt (LETTA_API_KEY P) then "ok" else "missing")).

(** [handleGetProfile]: of a profile row the model keeps the id and the
    bound agent; rows that bind no agent are not part of the store
    model. *)
Definition handleGetProfile (userId : string) (s : Store) : Reply :=
  mkReply 200 (ProfileBody ((fun agentId => (userId, agentId)) <$> user_profiles s !! userId)).

Definition serve (P : Platform) (J : BodyParser) (req : Request) (s : Store) : Reply * Store :=
  let path := route_path (pathname req) in
  let method := toUpperCase (method req) in
  if String.eqb path "health" && String.eqb method "GET" then (handleHealth P, s)
  else if String.eqb path "templates/validate" && String.eqb method "POST" then
    let '(st, b) := handleValidateTemplate P (body_text req) in
    (mkReply (status_code st) (ValidateReplyBody b), s)
  else if String.eqb path "templates/publish" && String.eqb method "POST" then
    let '(r, s') := handlePublishTemplate P (body_text req) (idempotency_header req) s in
    (reply_of r, s')
  else if String.eqb path "agents/create" && String.eqb method "POST" then
    match parseCreate J (body_text req) with
    | inl _ => (error_reply 500 "Internal Server Error", s)
    | inr (payload, payload_user) =>
        let userId := match user_header req with Some u => Some u | None => payload_user end in
        if negb (truthy_opt userId) then (error_reply 400 "Missing user context", s)
        else
          let '(r, s') := handleCreateAgent P payload (default "" userId)
                                            (idempotency_header req) s in
          (reply_of r, s')
    end
  else if String.eqb path "me" && String.eqb method "GET" then
    if negb (truthy_opt (user_header req)) then (error_reply 401 "Missing user context", s)
    else (handleGetProfile (default "" (user_header req)) s, s)
  else
    match upgradeMatch path with
    | Some agentId =>
        if String.eqb method "POST" then
          match parseUpgrade J (body_text req) with
          | inl _ => (error_reply 500 "Internal Server Error", s)
          | inr payload =>
              let '(r, s') := handleUpgradeAgent P agentId payload (user_header req)
                                                 (idempotency_header req) s in
              (reply_of r, s')
          end
        else (error_reply 404 "Not Found", s)
    | None => (error_reply 404 "Not Found", s)
    end.

(** JSON bodies of the sample requests: the body text names the payload. *)
Definition sampleParser : BodyParser :=
  mkBodyParser
    (fun text => if String.eqb text "create" then inr (sample_create_request, None)
                 else inl (Error "Unexpected token"))
    (fun text => if String.eqb text "dry" then inr sample_dry_request
                 else if String.eqb text "sync" then inr sample_sync_request
                 else inl (Error "Unexpected token")).
(** * Properties *)

(** ** MigrationPlanner *)

Lemma find_first_Some {A} (p : A -> bool) (l : list A) (x : A) :
  find_first p l = Some x -> In x l /\ p x = true.
Proof.
  induction l as [|y l IH]; simpl; [discriminate|].
  destruct (p y) eqn:Hp.
  - intros [= ->]. auto.
  - intros H. destruct (IH H). auto.
Qed.

Lemma origins_size (migrations : list MigrationSpec) :
  size (origins migrations) <= length migrations.
Proof.
  unfold origins. induction migrations as [|m ms IH].
  - change (List.map mig_from []) with (@nil string).
    rewrite list_to_set_nil, size_empty. lia.
  - change (List.map mig_from (m :: ms)) with (mig_from m :: List.map mig_from ms).
    rewrite list_to_set_cons. cbn [length].
    destruct (decide (mig_from m ∈ (list_to_set (List.map mig_from ms) : gset string)))
      as [Hin|Hout].
    + replace ({[mig_from m]} ∪ list_to_set (List.map mig_from ms))
        with (list_to_set (List.map mig_from ms) : gset string) by set_solver.
      lia.
    + rewrite size_union by set_solver. rewrite size_singleton. lia.
Qed.

Lemma origin_of_found (migrations : list MigrationSpec) (version : string)
    (step : MigrationSpec) :
  find_first (fun m => String.eqb (mig_from m) version) migrations = Some step ->
  version ∈ origins migrations.
Proof.
  intros H. apply find_first_Some in H as [Hin Heq].
  apply String.eqb_eq in Heq. subst version.
  unfold origins. apply elem_of_list_to_set, list_elem_of_In, in_map, Hin.
Qed.

(** The loop invariant: after [n] passes the current node is the [n]-th node
    of the walk, [guard] holds the nodes before it, none of which is the
    target, and the fuel left exceeds the number of origins not yet seen. *)
Lemma plan_loop_enough (currentVersion targetVersion : string)
    (migrations : list MigrationSpec) (fuel : nat) :
  forall n version guard path,
    walk migrations currentVersion n = Some version ->
    (forall v, v ∈ guard <-> exists k, k < n /\ walk migrations currentVersion k = Some v) ->
    (forall k, k < n -> walk migrations currentVersion k <> Some targetVersion) ->
    guard ⊆ origins migrations ->
    size (origins migrations) < fuel + size guard ->
    exists r, plan_loop fuel targetVersion migrations version guard path = Some r
              /\ plan_outcome currentVersion targetVersion migrations r.
Proof.
  induction fuel as [|fuel IH]; intros n version guard path Hwalk Hguard Hnot Hsub Hsize.
  - apply subseteq_size in Hsub. lia.
  - simpl. destruct (String.eqb version targetVersion) eqn:Htgt.
    + apply String.eqb_eq in Htgt. subst version.
      eexists; split; [reflexivity|]. by apply (plan_steps _ _ _ n).
    + apply String.eqb_neq in Htgt.
      assert (Hnot' : forall k, k <= n -> walk migrations currentVersion k <> Some targetVersion).
      { intros k Hk. destruct (decide (k = n)) as [->|Hne].
        - rewrite Hwalk. congruence.
        - apply Hnot. lia. }
      case_bool_decide as Hin.
      * eexists; split; [reflexivity|].
        apply Hguard in Hin as (k & Hk & Hwk).
        by apply (plan_circular _ _ _ k n version).
      * destruct (find_first _ migrations) as [step|] eqn:Hfind.
        -- apply (IH (S n)).
           ++ simpl. rewrite Hwalk, Hfind. reflexivity.
           ++ intros v. rewrite elem_of_union, elem_of_singleton, Hguard. split.
              ** intros [->|(k & Hk & Hwk)]; [exists n | exists k]; split; auto; lia.
              ** intros (k & Hk & Hwk). destruct (decide (k = n)) as [->|Hne].
                 --- left. congruence.
                 --- right. exists k. split; [lia | done].
           ++ intros k Hk. apply Hnot'. lia.
           ++ apply origin_of_found in Hfind. set_solver.
           ++ rewrite size_union by set_solver. rewrite size_singleton. lia.
        -- eexists; split; [reflexivity|]. by apply (plan_no_path _ _ _ n).
Qed.

Lemma plan_loop_mono (targetVersion : string) (migrations : list MigrationSpec)
    (fuel : nat) :
  forall fuel' version guard path r,
    fuel <= fuel' ->
    plan_loop fuel targetVersion migrations version guard path = Some r ->
    plan_loop fuel' targetVersion migrations version guard path = Some r.
Proof.
  induction fuel as [|fuel IH]; intros fuel' version guard path r Hle; simpl; [discriminate|].
  destruct fuel' as [|fuel']; [lia|]. simpl.
  destruct (String.eqb version targetVersion); [done|].
  case_bool_decide; [done|].
  destruct (find_first _ migrations); [|done].
  apply IH. lia.
Qed.

Lemma buildMigrationPlan_total (currentVersion targetVersion : string)
    (migrations : list MigrationSpec) :
  exists r, buildMigrationPlan currentVersion targetVersion migrations = Some r
            /\ plan_outcome currentVersion targetVersion migrations r.
Proof.
  unfold buildMigrationPlan, buildMigrationPlan_fuel.
  destruct (String.eqb_spec currentVersion targetVersion) as [->|Hne].
  - eexists. split; [done|]. apply (plan_steps _ _ _ 0); [done | intros; lia].
  - apply (plan_loop_enough currentVersion targetVersion migrations
             (S (length migrations)) 0).
    + done.
    + intros v. split; [set_solver | intros (k & Hk & _); lia].
    + intros; lia.
    + set_solver.
    + pose proof (origins_size migrations). rewrite size_empty. lia.
Qed.

(** C7. The planner terminates for every pair of versions and every finite
    edge list: the loop ends within one more pass than there are edges
    (more fuel never changes the answer), and it ends in one of three
    ways: with a step list when the walk reaches the target, with the
    no-path error at a node before the target that has no outgoing edge,
    or with the circular-path error when a node comes back before the
    target. The edges A->B, B->A with the request from A to C end with the
    circular-path error. *)
Theorem buildMigrationPlan_terminates
    (currentVersion targetVersion : string) (migrations : list MigrationSpec) :
  (exists r,
      buildMigrationPlan currentVersion targetVersion migrations = Some r
      /\ (forall fuel, S (length migrations) <= fuel ->
            buildMigrationPlan_fuel fuel currentVersion targetVersion migrations = Some r)
      /\ plan_outcome currentVersion targetVersion migrations r)
  /\ buildMigrationPlan "A" "C" [mkMigration "A" "B" []; mkMigration "B" "A" []]
     = Some (inl circular_error).
Proof.
  split; [|vm_compute; reflexivity].
  unfold buildMigrationPlan, buildMigrationPlan_fuel.
  destruct (String.eqb currentVersion targetVersion) eqn:Heq.
  - apply String.eqb_eq in Heq. subst targetVersion.
    eexists; split; [reflexivity|]. split; [done|].
    apply (plan_steps _ _ _ 0); [done | intros; lia].
  - destruct (plan_loop_enough currentVersion targetVersion migrations
                (S (length migrations)) 0 currentVersion ∅ []) as (r & Hr & Hout).
    + done.
    + intros v. split; [set_solver | intros (k & Hk & _); lia].
    + intros; lia.
    + set_solver.
    + pose proof (origins_size migrations). rewrite size_empty. lia.
    + exists r. split; [done|]. split; [|done].
      intros fuel Hfuel. by apply (plan_loop_mono _ _ (S (length migrations))).
Qed.

(** ** SemverGate *)

(** *** Comparisons that are total preorders *)

Lemma cmp_le_trans {A} (c : A -> A -> comparison) (Hc : cmp_order c) (x y z : A) :
  c x y <> Gt -> c y z <> Gt -> c x z <> Gt.
Proof.
  intros Hxy Hyz.
  destruct (c x y) eqn:Exy; [| |done].
  - by rewrite (cmp_eq_compat c Hc x y z Exy).
  - destruct (c y z) eqn:Eyz; [| |done].
    + assert (Ezy : c z y = Eq) by (rewrite (cmp_antisym c Hc y z), Eyz; done).
      pose proof (cmp_eq_compat c Hc z y x Ezy) as Hzx.
      rewrite (cmp_antisym c Hc x y), Exy in Hzx. simpl in Hzx.
      rewrite (cmp_antisym c Hc z x), Hzx. done.
    + by rewrite (cmp_trans c Hc x y z Exy Eyz).
Qed.

Lemma cmp_lt_le_trans {A} (c : A -> A -> comparison) (Hc : cmp_order c) (x y z : A) :
  c x y = Lt -> c y z <> Gt -> c x z = Lt.
Proof.
  intros Hxy Hyz. destruct (c y z) eqn:Eyz; [| |done].
  - assert (Ezy : c z y = Eq) by (rewrite (cmp_antisym c Hc y z), Eyz; done).
    pose proof (cmp_eq_compat c Hc z y x Ezy) as Hzx.
    rewrite (cmp_antisym c Hc x y), Hxy in Hzx. simpl in Hzx.
    rewrite (cmp_antisym c Hc z x), Hzx. done.
  - by apply (cmp_trans c Hc x y z).
Qed.

Lemma cmp_order_N : cmp_order N.compare.
Proof.
  split.
  - apply N.compare_refl.
  - intros x y. apply N.compare_antisym.
  - intros x y z. rewrite !N.compare_lt_iff. lia.
  - intros x y z Hxy. apply N.compare_eq in Hxy. by subst.
Qed.

Lemma cmp_order_ascii : cmp_order Ascii.compare.
Proof.
  unfold Ascii.compare. split.
  - intros x. apply N.compare_refl.
  - intros x y. apply N.compare_antisym.
  - intros x y z. rewrite !N.compare_lt_iff. lia.
  - intros x y z Hxy. apply N.compare_eq in Hxy. by rewrite Hxy.
Qed.

Lemma cmp_order_string : cmp_order String.compare.
Proof.
  split.
  - induction x as [|a x IH]; simpl; [done|].
    by rewrite (cmp_refl _ cmp_order_ascii).
  - intros x y. apply String.compare_antisym.
  - induction x as [|a x IH]; intros [|b y] [|c z]; simpl; try done.
    destruct (Ascii.compare a b) eqn:Eab; try done;
      destruct (Ascii.compare b c) eqn:Ebc; try done.
    + rewrite (cmp_eq_compat _ cmp_order_ascii a b c Eab), Ebc. apply IH.
    + by rewrite (cmp_eq_compat _ cmp_order_ascii a b c Eab), Ebc.
    + apply Ascii.compare_eq_iff in Ebc. subst c. by rewrite Eab.
    + by rewrite (cmp_trans _ cmp_order_ascii a b c Eab Ebc).
  - intros x y z Hxy. apply String.compare_eq_iff in Hxy. by subst.
Qed.

Lemma cmp_order_proj {A B} (f : A -> B) (c : B -> B -> comparison) :
  cmp_order c -> cmp_order (fun x y => c (f x) (f y)).
Proof.
  intros Hc. split; intros.
  - apply (cmp_refl c Hc).
  - apply (cmp_antisym c Hc).
  - by apply (cmp_trans c Hc _ (f y)).
  - by apply (cmp_eq_compat c Hc).
Qed.

Lemma cmp_order_or_else {A} (c d : A -> A -> comparison) :
  cmp_order c -> cmp_order d ->
  cmp_order (fun x y => Semver.or_else (c x y) (d x y)).
Proof.
  intros Hc Hd. split.
  - intros x. by rewrite (cmp_refl c Hc), (cmp_refl d Hd).
  - intros x y. rewrite (cmp_antisym c Hc x y), (cmp_antisym d Hd x y).
    by destruct (c x y).
  - intros x y z. unfold Semver.or_else.
    destruct (c x y) eqn:Exy; [| |done]; destruct (c y z) eqn:Eyz; try done.
    + rewrite (cmp_eq_compat c Hc x y z Exy), Eyz. apply (cmp_trans d Hd).
    + by rewrite (cmp_eq_compat c Hc x y z Exy), Eyz.
    + intros _ _. rewrite (cmp_lt_le_trans c Hc x y z Exy); [done | by rewrite Eyz].
    + intros _ _. by rewrite (cmp_trans c Hc x y z Exy Eyz).
  - intros x y z. unfold Semver.or_else.
    destruct (c x y) eqn:Exy; [|done..]. intros Edxy.
    by rewrite (cmp_eq_compat c Hc x y z Exy), (cmp_eq_compat d Hd x y z Edxy).
Qed.

Lemma precedenceIdentifiers_eq (a b : Semver.Identifier) :
  precedenceIdentifiers a b = Eq -> a = b.
Proof.
  destruct a, b; simpl; try done.
  - intros H. apply N.compare_eq in H. by subst.
  - intros H. apply String.compare_eq_iff in H. by subst.
Qed.

Lemma cmp_order_identifiers : cmp_order precedenceIdentifiers.
Proof.
  split.
  - intros [n|s]; simpl; [apply N.compare_refl | apply (cmp_refl _ cmp_order_string)].
  - intros [n|s] [m|t]; simpl; try done;
      [apply N.compare_antisym | apply String.compare_antisym].
  - intros [n|s] [m|t] [k|u]; simpl; try done;
      [apply (cmp_trans _ cmp_order_N) | apply (cmp_trans _ cmp_order_string)].
  - intros x y z H. apply precedenceIdentifiers_eq in H. by subst.
Qed.

Lemma precedenceLists_eq (p q : list Semver.Identifier) :
  precedenceLists p q = Eq -> p = q.
Proof.
  revert q. induction p as [|a p IH]; intros [|b q]; simpl; try done.
  destruct (precedenceIdentifiers a b) eqn:E; try done.
  apply precedenceIdentifiers_eq in E. subst b. intros H. by rewrite (IH q H).
Qed.

Lemma cmp_order_identifier_lists : cmp_order precedenceLists.
Proof.
  pose proof cmp_order_identifiers as Hi.
  split.
  - induction x as [|a x IH]; simpl; [done|]. by rewrite (cmp_refl _ Hi).
  - induction x as [|a x IH]; intros [|b y]; simpl; try done.
    rewrite (cmp_antisym _ Hi a b). destruct (precedenceIdentifiers a b); simpl; auto.
  - induction x as [|a x IH]; intros [|b y] [|c z]; simpl; try done.
    destruct (precedenceIdentifiers a b) eqn:Eab; try done;
      destruct (precedenceIdentifiers b c) eqn:Ebc; try done.
    + rewrite (cmp_eq_compat _ Hi a b c Eab), Ebc. apply IH.
    + by rewrite (cmp_eq_compat _ Hi a b c Eab), Ebc.
    + apply precedenceIdentifiers_eq in Ebc. subst c. by rewrite Eab.
    + by rewrite (cmp_trans _ Hi a b c Eab Ebc).
  - intros x y z H. apply precedenceLists_eq in H. by subst.
Qed.

Lemma cmp_order_precedencePre : cmp_order precedencePre.
Proof.
  pose proof cmp_order_identifier_lists as Hl.
  unfold precedencePre. split.
  - intros x. destruct (Semver.prerelease x); [done | apply (cmp_refl _ Hl)].
  - intros x y. destruct (Semver.prerelease x), (Semver.prerelease y); try done.
    apply (cmp_antisym _ Hl).
  - intros x y z.
    destruct (Semver.prerelease x), (Semver.prerelease y), (Semver.prerelease z); try done.
    apply (cmp_trans _ Hl).
  - intros x y z.
    destruct (Semver.prerelease x), (Semver.prerelease y), (Semver.prerelease z); try done.
    apply (cmp_eq_compat _ Hl).
Qed.

Lemma cmp_order_precedence : cmp_order precedence.
Proof.
  unfold precedence, Semver.compareMain.
  apply cmp_order_or_else; [|apply cmp_order_precedencePre].
  apply (cmp_order_or_else (fun a b => N.compare (Semver.major a) (Semver.major b))).
  - apply (cmp_order_proj Semver.major), cmp_order_N.
  - apply (cmp_order_or_else (fun a b => N.compare (Semver.minor a) (Semver.minor b))
                             (fun a b => N.compare (Semver.patch a) (Semver.patch b)));
      [apply (cmp_order_proj Semver.minor) | apply (cmp_order_proj Semver.patch)];
      apply cmp_order_N.
Qed.

(** Versions that the precedence does not tell apart differ in their
    build metadata only. *)
Lemma precedence_eq_fields (a b : Semver.SemVer) :
  precedence a b = Eq ->
  Semver.major a = Semver.major b /\ Semver.minor a = Semver.minor b
  /\ Semver.patch a = Semver.patch b /\ Semver.prerelease a = Semver.prerelease b.
Proof.
  unfold precedence, Semver.compareMain, Semver.or_else, precedencePre.
  destruct (N.compare_spec (Semver.major a) (Semver.major b)); try done.
  destruct (N.compare_spec (Semver.minor a) (Semver.minor b)); try done.
  destruct (N.compare_spec (Semver.patch a) (Semver.patch b)); try done.
  destruct (Semver.prerelease a) as [|i p] eqn:Ea, (Semver.prerelease b) as [|j q] eqn:Eb;
    try done.
  intros Hl. apply precedenceLists_eq in Hl. done.
Qed.

(** *** The package's comparison on safe versions *)

Lemma to_double_safe (n : N) : (n <= Semver.MAX_SAFE_INTEGER)%N -> Semver.to_double n = n.
Proof.
  intros Hn. unfold Semver.to_double.
  assert (Hsize : (N.size n <= 53)%N).
  { destruct (N.eq_dec n 0%N) as [->|Hpos]; [done|].
    rewrite N.size_log2 by done.
    assert (N.log2 n < 53)%N; [|lia].
    apply N.log2_lt_pow2; [lia|].
    unfold Semver.MAX_SAFE_INTEGER in Hn. change (2 ^ 53)%N with 9007199254740992%N. lia. }
  apply N.leb_le in Hsize. by rewrite Hsize.
Qed.

Lemma same_identifier_eq (a b : Semver.Identifier) :
  Semver.same_identifier a b = true <-> a = b.
Proof.
  destruct a, b; simpl; try (split; done).
  - rewrite N.eqb_eq. split; congruence.
  - rewrite String.eqb_eq. split; congruence.
Qed.

Lemma compareIdentifiers_safe (a b : Semver.Identifier) :
  safe_identifier a = true -> safe_identifier b = true ->
  Semver.compareIdentifiers a b = precedenceIdentifiers a b.
Proof.
  destruct a, b; simpl; try done.
  intros Ha%N.leb_le Hb%N.leb_le. by rewrite !to_double_safe.
Qed.

Lemma compareIdentifierLists_safe (p q : list Semver.Identifier) :
  forallb safe_identifier p = true -> forallb safe_identifier q = true ->
  Semver.compareIdentifierLists p q = precedenceLists p q.
Proof.
  revert q. induction p as [|a p IH]; intros [|b q]; simpl; try done.
  intros [Ha Hp]%andb_true_iff [Hb Hq]%andb_true_iff.
  rewrite <- (compareIdentifiers_safe a b Ha Hb).
  destruct (Semver.same_identifier a b) eqn:Hsame.
  - apply same_identifier_eq in Hsame. subst b.
    rewrite (compareIdentifiers_safe a a Ha Ha), (cmp_refl _ cmp_order_identifiers).
    by apply IH.
  - destruct (Semver.compareIdentifiers a b) eqn:E; try done.
    rewrite (compareIdentifiers_safe a b Ha Hb) in E.
    apply precedenceIdentifiers_eq in E. subst b.
    assert (Semver.same_identifier a a = true) by by apply same_identifier_eq.
    congruence.
Qed.

(** On safe versions the package's comparison is the precedence of the
    SemVer specification. *)
Lemma compareSemVer_safe (a b : Semver.SemVer) :
  safe_semver a = true -> safe_semver b = true ->
  Semver.compareSemVer a b = precedence a b.
Proof.
  unfold safe_semver, Semver.compareSemVer, precedence, Semver.comparePre, precedencePre.
  intros Ha Hb. f_equal.
  destruct (Semver.prerelease a), (Semver.prerelease b); try done.
  by apply compareIdentifierLists_safe.
Qed.

(** The package's comparison reads the numbers and the pre-release of a
    version only. *)
Lemma compareSemVer_fields (x a b : Semver.SemVer) :
  Semver.major a = Semver.major b -> Semver.minor a = Semver.minor b ->
  Semver.patch a = Semver.patch b -> Semver.prerelease a = Semver.prerelease b ->
  Semver.compareSemVer x a = Semver.compareSemVer x b.
Proof.
  unfold Semver.compareSemVer, Semver.compareMain, Semver.comparePre.
  by intros -> -> -> ->.
Qed.

(** *** The head of a sorted array *)

Lemma sort_insert_head {A} (cmp : A -> A -> comparison) (x : A) (l : list A) :
  match l with
  | [] => sort_insert cmp x l = [x]
  | h :: _ =>
      exists t, sort_insert cmp x l = (match cmp x h with Gt => h | _ => x end) :: t
  end.
Proof.
  destruct l as [|h l]; simpl; [done|].
  destruct (cmp x h); eauto.
Qed.

Lemma js_sort_head {A} (cmp : A -> A -> comparison) (P : A -> Prop) :
  (forall x, P x -> cmp x x <> Gt) ->
  (forall x y, P x -> P y -> cmp x y = Gt -> cmp y x <> Gt) ->
  (forall x y z, P x -> P y -> P z -> cmp x y <> Gt -> cmp y z <> Gt -> cmp x z <> Gt) ->
  forall l, Forall P l ->
    match js_sort cmp l with
    | [] => l = []
    | h :: _ => In h l /\ forall y, In y l -> cmp h y <> Gt
    end.
Proof.
  intros Hrefl Htot Htrans l. induction l as [|x l IH]; intros HP; simpl; [done|].
  apply Forall_cons in HP as [Px Pl]. specialize (IH Pl).
  pose proof (sort_insert_head cmp x (js_sort cmp l)) as Hins.
  destruct (js_sort cmp l) as [|h t].
  - subst l. rewrite Hins. split; [by left|]. intros y [<-|[]]. by apply Hrefl.
  - destruct IH as [Hh Hmax], Hins as [t' ->].
    assert (Ph : P h) by (rewrite Forall_forall in Pl; by apply Pl, list_elem_of_In).
    destruct (cmp x h) eqn:Exh.
    + split; [by left|]. intros y [<-|Hy]; [by apply Hrefl|].
      apply (Htrans x h y); auto.
      * rewrite Forall_forall in Pl. by apply Pl, list_elem_of_In.
      * by rewrite Exh.
    + split; [by left|]. intros y [<-|Hy]; [by apply Hrefl|].
      apply (Htrans x h y); auto.
      * rewrite Forall_forall in Pl. by apply Pl, list_elem_of_In.
      * by rewrite Exh.
    + split; [by right|]. intros y [<-|Hy]; [by apply Htot | by apply Hmax].
Qed.

(** The sorted array holds the elements of the array, whatever the
    comparator. *)
Lemma sort_insert_In {A} (cmp : A -> A -> comparison) (x y : A) (l : list A) :
  In y (sort_insert cmp x l) <-> y = x \/ In y l.
Proof.
  induction l as [|h l IH]; simpl; [intuition|].
  destruct (cmp x h); simpl; rewrite ?IH; intuition.
Qed.

Lemma js_sort_In {A} (cmp : A -> A -> comparison) (y : A) (l : list A) :
  In y (js_sort cmp l) <-> In y l.
Proof.
  induction l as [|x l IH]; simpl; [done|].
  rewrite sort_insert_In, IH. intuition.
Qed.

Lemma includes_In (l : list string) (x : string) : includes l x = true <-> In x l.
Proof.
  induction l as [|y l IH]; simpl; [split; [done | tauto]|].
  destruct (String.eqb_spec y x) as [->|Hne]; [tauto|].
  rewrite IH. split; [tauto | intros [?|?]; [done | tauto]].
Qed.

Lemma valid_parse (v : string) :
  Semver.valid v = true <-> exists x, Semver.parse v = inr x.
Proof.
  unfold Semver.valid. destruct (Semver.parse v); split; eauto; [|intros [? ?]]; done.
Qed.

Lemma safe_version_parse (v : string) :
  safe_version v = true <-> exists x, Semver.parse v = inr x /\ safe_semver x = true.
Proof.
  unfold safe_version. destruct (Semver.parse v) as [msg|x].
  - split; [done | by intros (? & ? & ?)].
  - split; [eauto | by intros (? & [= <-] & ?)].
Qed.

Lemma safe_version_valid (v : string) : safe_version v = true -> Semver.valid v = true.
Proof. intros (x & Hx & _)%safe_version_parse. apply valid_parse. eauto. Qed.

(** When the valid entries are safe, the first element of the sorted
    valid entries is one of their maxima. *)
Lemma sorted_latest_is_max (existing : list string) :
  safe_versions existing ->
  match js_sort rcompare_total (List.filter Semver.valid existing) with
  | [] => forall e, In e existing -> Semver.valid e = false
  | latest :: _ => is_semver_max existing latest
  end.
Proof.
  intros Hsafe.
  pose proof cmp_order_precedence as Hc.
  pose proof (js_sort_head rcompare_total (fun v => safe_version v = true)) as Hsort.
  unfold rcompare_total, Semver.rcompare, Semver.compare in Hsort.
  specialize (Hsort ltac:(
    intros x (a & Ha & Sa)%safe_version_parse;
    rewrite Ha, (compareSemVer_safe _ _ Sa Sa), (cmp_refl _ Hc); done)).
  specialize (Hsort ltac:(
    intros x y (a & Ha & Sa)%safe_version_parse (b & Hb & Sb)%safe_version_parse;
    rewrite Ha, Hb, (compareSemVer_safe _ _ Sa Sb), (compareSemVer_safe _ _ Sb Sa);
    rewrite (cmp_antisym _ Hc b a); destruct (precedence b a); done)).
  specialize (Hsort ltac:(
    intros x y z (a & Ha & Sa)%safe_version_parse (b & Hb & Sb)%safe_version_parse
           (c & Hc' & Sc)%safe_version_parse;
    rewrite Ha, Hb, Hc', (compareSemVer_safe _ _ Sb Sa), (compareSemVer_safe _ _ Sc Sb),
            (compareSemVer_safe _ _ Sc Sa);
    intros H1 H2; by apply (cmp_le_trans _ Hc c b a))).
  specialize (Hsort (List.filter Semver.valid existing)).
  specialize (Hsort ltac:(
    apply Forall_forall; intros v [Hv1 Hv2]%list_elem_of_In%filter_In; by apply Hsafe)).
  unfold rcompare_total, Semver.rcompare.
  destruct (js_sort _ (List.filter Semver.valid existing)) as [|latest t].
  - intros e He. destruct (Semver.valid e) eqn:Ev; [|done].
    assert (In e (List.filter Semver.valid existing)) as Hin by (apply filter_In; auto).
    rewrite Hsort in Hin. destruct Hin.
  - destruct Hsort as [[Hin Hv]%filter_In Hmax]. repeat split; [done..|].
    intros e He Hev. specialize (Hmax e ltac:(apply filter_In; auto)).
    unfold Semver.compare.
    apply valid_parse in Hev as [a Ha], Hv as [b Hb]. rewrite Ha, Hb in *. congruence.
Qed.

Lemma lt_of_compare (a b : string) (x y : Semver.SemVer) :
  Semver.parse a = inr x -> Semver.parse b = inr y ->
  Semver.lt a b = inr (match Semver.compareSemVer x y with Lt => true | _ => false end).
Proof.
  intros Ha Hb. unfold Semver.lt, Semver.compare. rewrite Ha, Hb.
  by destruct (Semver.compareSemVer x y).
Qed.

(** Two maxima of safe entries are equivalent, so the proposed version is
    below one exactly when it is below the other. *)
Lemma lt_max_irrelevant (nextVersion : string) (existing : list string) (m m' : string) :
  safe_versions existing ->
  Semver.valid nextVersion = true ->
  is_semver_max existing m -> is_semver_max existing m' ->
  Semver.lt nextVersion m = Semver.lt nextVersion m'.
Proof.
  pose proof cmp_order_precedence as Hc.
  intros Hsafe [x Hx]%valid_parse (Hin & Hv & Hmax) (Hin' & Hv' & Hmax').
  specialize (Hmax m' Hin' Hv'). specialize (Hmax' m Hin Hv).
  pose proof (Hsafe m Hin Hv) as (a & Ha & Sa)%safe_version_parse.
  pose proof (Hsafe m' Hin' Hv') as (b & Hb & Sb)%safe_version_parse.
  unfold Semver.compare in Hmax, Hmax'. rewrite Ha, Hb in *.
  rewrite (compareSemVer_safe _ _ Sb Sa) in Hmax.
  rewrite (compareSemVer_safe _ _ Sa Sb) in Hmax'.
  rewrite (lt_of_compare _ _ _ _ Hx Ha), (lt_of_compare _ _ _ _ Hx Hb). f_equal.
  assert (Hab : precedence a b = Eq).
  { destruct (precedence a b) eqn:E; [done| |congruence].
    rewrite (cmp_antisym _ Hc a b), E in Hmax. simpl in Hmax. congruence. }
  apply precedence_eq_fields in Hab as (H1 & H2 & H3 & H4).
  by rewrite (compareSemVer_fields x a b H1 H2 H3 H4).
Qed.

(** The gate allows a version that is not present and not below any valid
    entry, whatever order the sort gives the valid entries. *)
Lemma assessSemver_allows (nextVersion : string) (existing : list string) :
  includes existing nextVersion = false ->
  (forall e, In e existing -> Semver.valid e = true -> Semver.lt nextVersion e = inr false) ->
  assessSemver nextVersion existing = inr allowance.
Proof.
  intros Hfresh Hnot. unfold assessSemver. rewrite Hfresh.
  destruct (js_sort rcompare_total (List.filter Semver.valid existing)) as [|latest t] eqn:Hs;
    [done|].
  assert (Hin : In latest (List.filter Semver.valid existing)).
  { apply (js_sort_In rcompare_total). rewrite Hs. by left. }
  apply filter_In in Hin as [Hin Hv]. by rewrite (Hnot latest Hin Hv).
Qed.

(** The gate rejects a version that is not present and below every valid
    entry, of which there is one, whatever order the sort gives them. *)
Lemma assessSemver_rejects (nextVersion : string) (existing : list string) :
  includes existing nextVersion = false ->
  (exists e, In e existing /\ Semver.valid e = true) ->
  (forall e, In e existing -> Semver.valid e = true -> Semver.lt nextVersion e = inr true) ->
  exists latest,
    In latest existing /\ Semver.valid latest = true
    /\ assessSemver nextVersion existing = inr (regressive_rejection nextVersion latest).
Proof.
  intros Hfresh (e & He & Hv) Hall. unfold assessSemver. rewrite Hfresh.
  destruct (js_sort rcompare_total (List.filter Semver.valid existing)) as [|latest t] eqn:Hs.
  - assert (In e (js_sort rcompare_total (List.filter Semver.valid existing))) as Hin
      by (apply js_sort_In, filter_In; auto).
    rewrite Hs in Hin. destruct Hin.
  - assert (Hin : In latest (List.filter Semver.valid existing)).
    { apply (js_sort_In rcompare_total). rewrite Hs. by left. }
    apply filter_In in Hin as [Hin Hlv]. exists latest. by rewrite (Hall latest Hin Hlv).
Qed.

(** C6 (amended). For a proposed version that is valid SemVer, the gate
    applies its rules in order: a version already present is rejected as a
    duplicate; otherwise, when the valid existing entries are safe (no
    numeric pre-release identifier above 2^53 - 1), it is rejected as
    regressive when it compares below the maximum of the existing valid
    entries, and allowed when it does not (existing entries that are not
    valid SemVer take no part). Whatever the existing entries are, a
    version that is not present is allowed when it is below none of the
    valid entries and rejected as regressive when it is below all of them.
    The gate does not check the syntax of the proposed version itself: a
    template whose version is not valid SemVer fails [validateAgentFile],
    which every publish runs before the gate. The three examples of the
    specification evaluate as stated. *)
Theorem assessSemver_rules (nextVersion : string) (existing : list string) :
  (Semver.valid nextVersion = true ->
     (In nextVersion existing ->
        assessSemver nextVersion existing = inr duplicate_rejection)
     /\ (~ In nextVersion existing -> safe_versions existing ->
           (exists latest,
               is_semver_max existing latest
               /\ Semver.lt nextVersion latest = inr true
               /\ assessSemver nextVersion existing
                  = inr (regressive_rejection nextVersion latest))
           \/ ((forall m, is_semver_max existing m -> Semver.lt nextVersion m = inr false)
               /\ assessSemver nextVersion existing = inr allowance))
     /\ (~ In nextVersion existing ->
           ((forall e, In e existing -> Semver.valid e = true ->
                       Semver.lt nextVersion e = inr false) ->
            assessSemver nextVersion existing = inr allowance)
           /\ ((exists e, In e existing /\ Semver.valid e = true) ->
               (forall e, In e existing -> Semver.valid e = true ->
                          Semver.lt nextVersion e = inr true) ->
               exists latest,
                 In latest existing /\ Semver.valid latest = true
                 /\ assessSemver nextVersion existing
                    = inr (regressive_rejection nextVersion latest))))
  /\ (forall agentFile : AgentFile,
        Semver.valid (version (template agentFile)) = false ->
        valid (validateAgentFile agentFile) = false)
  /\ assessSemver "1.2.0" ["1.3.0"] = inr (regressive_rejection "1.2.0" "1.3.0")
  /\ assessSemver "1.4.0" ["1.3.0"] = inr allowance
  /\ assessSemver "2.0.0-rc.1" [] = inr allowance.
Proof.
  split; [|split; [|repeat split; vm_compute; reflexivity]].
  - intros Hvalid. split; [|split].
    + intros Hin%includes_In. unfold assessSemver. by rewrite Hin.
    + intros Hnot Hsafe. unfold assessSemver.
      destruct (includes existing nextVersion) eqn:Hinc; [by apply includes_In in Hinc|].
      pose proof (sorted_latest_is_max existing Hsafe) as Hmax.
      destruct (js_sort rcompare_total (List.filter Semver.valid existing)) as [|latest t].
      * right. split; [|done]. intros m (Hin & Hv & _). rewrite (Hmax m Hin) in Hv. done.
      * pose proof Hmax as (_ & Hv & _).
        pose proof Hvalid as [x Hx]%valid_parse. apply valid_parse in Hv as [y Hy].
        rewrite (lt_of_compare _ _ _ _ Hx Hy).
        destruct (Semver.compareSemVer x y) eqn:Hcmp.
        -- right. split; [|done]. intros m Hm.
           rewrite (lt_max_irrelevant nextVersion existing m latest Hsafe Hvalid Hm Hmax).
           by rewrite (lt_of_compare _ _ _ _ Hx Hy), Hcmp.
        -- left. exists latest. repeat split; try apply Hmax.
           by rewrite (lt_of_compare _ _ _ _ Hx Hy), Hcmp.
        -- right. split; [|done]. intros m Hm.
           rewrite (lt_max_irrelevant nextVersion existing m latest Hsafe Hvalid Hm Hmax).
           by rewrite (lt_of_compare _ _ _ _ Hx Hy), Hcmp.
    + intros Hnot.
      assert (Hinc : includes existing nextVersion = false).
      { destruct (includes existing nextVersion) eqn:Hinc; [by apply includes_In in Hinc|done]. }
      split; [by apply assessSemver_allows | by apply assessSemver_rejects].
  - intros agentFile Hinvalid. unfold validateAgentFile. rewrite Hinvalid. simpl.
    destruct (truthy (version (template agentFile))); simpl;
      repeat (match goal with
              | |- context [if negb ?b then _ else _] => destruct b
              end; simpl);
      done.
Qed.

(** C6 (witness). The gate at a valid proposed version that is below the
    highest of three existing entries, one of which is not valid SemVer. *)
Lemma assessSemver_rules_witness :
  Semver.valid "1.2.0" = true
  /\ ~ In "1.2.0" ["1.1.0"; "latest"; "1.3.0-rc.1"]
  /\ safe_versions ["1.1.0"; "latest"; "1.3.0-rc.1"]
  /\ ((exists latest,
          is_semver_max ["1.1.0"; "latest"; "1.3.0-rc.1"] latest
          /\ Semver.lt "1.2.0" latest = inr true
          /\ assessSemver "1.2.0" ["1.1.0"; "latest"; "1.3.0-rc.1"]
             = inr (regressive_rejection "1.2.0" latest))
      \/ ((forall m, is_semver_max ["1.1.0"; "latest"; "1.3.0-rc.1"] m ->
                     Semver.lt "1.2.0" m = inr false)
          /\ assessSemver "1.2.0" ["1.1.0"; "latest"; "1.3.0-rc.1"] = inr allowance)).
Proof.
  assert (Hvalid : Semver.valid "1.2.0" = true) by (vm_compute; reflexivity).
  assert (Hnot : ~ In "1.2.0" ["1.1.0"; "latest"; "1.3.0-rc.1"]).
  { intros [H|[H|[H|[]]]]; discriminate H. }
  assert (Hsafe : safe_versions ["1.1.0"; "latest"; "1.3.0-rc.1"]).
  { intros e [<-|[<-|[<-|[]]]] Hv; vm_compute; vm_compute in Hv; congruence. }
  split; [exact Hvalid|]. split; [exact Hnot|]. split; [exact Hsafe|].
  exact (proj1 (proj2 (proj1 (assessSemver_rules "1.2.0" ["1.1.0"; "latest"; "1.3.0-rc.1"])
                            Hvalid))
               Hnot Hsafe).
Defined.

(** C6 (counterexample). A proposed version that is not valid SemVer is not
    rejected by the gate when no valid version exists yet. *)
Lemma assessSemver_accepts_invalid :
  Semver.valid "not-a-version" = false
  /\ assessSemver "not-a-version" [] = inr allowance.
Proof. split; vm_compute; reflexivity. Qed.

(** ** DryRunEngine *)

Lemma performDryRun_inr (P : Platform) (plan : list MigrationStep) (currentConfig : Config)
    (userId : string) (r : DryRunResult) :
  performDryRun P plan currentConfig userId = inr r ->
  exists config warnings,
    dry_run_steps P plan currentConfig [] = inr (config, warnings)
    /\ r = mkDryRun (override_entries P userId) warnings
             (<["embedding_endpoint" := JStr (billing_endpoint P userId)]>
                (<["model_endpoint" := JStr (billing_endpoint P userId)]> config)).
Proof.
  unfold performDryRun.
  destruct (dry_run_steps P plan currentConfig []) as [e|[config ws]]; [done|].
  intros [= <-]. by exists config, ws.
Qed.




(** ** IdempotencyGuard *)

Lemma ensureIdempotency_fresh (P : Platform) (k payload : string) (s : Store) :
  truthy k = true ->
  request_dedup s !! k = None ->
  ensureIdempotency P (Some k) payload s
  = (inr tt, set_request_dedup (insert k (sha256 P payload)) s).
Proof.
  intros Hk Hfresh. unfold ensureIdempotency, bind, gets, modify.
  rewrite Hk. cbv beta iota delta [negb]. by rewrite Hfresh.
Qed.

Lemma ensureIdempotency_known (P : Platform) (k payload stored : string) (s : Store) :
  truthy k = true ->
  request_dedup s !! k = Some stored ->
  ensureIdempotency P (Some k) payload s
  = (inl (if String.eqb stored (sha256 P payload) then duplicate_request else key_conflict), s).
Proof.
  intros Hk Hknown. unfold ensureIdempotency, bind, gets, throw.
  rewrite Hk. cbv beta iota delta [negb]. rewrite Hknown.
  by destruct (String.eqb stored (sha256 P payload)).
Qed.

(** C8. Without a key the guard always proceeds and leaves the store as it
    is. With a fresh key it records the fingerprint of the payload and
    proceeds; a second request with the same key and the same payload then
    fails as a duplicate request, and one with the same key and a payload
    of another fingerprint fails as a key conflict, which is a different
    failure; neither changes the record. *)
Theorem ensureIdempotency_guard (P : Platform) (k payload payload' : string) (s : Store) :
  truthy k = true ->
  request_dedup s !! k = None ->
  sha256 P payload' <> sha256 P payload ->
  (forall s0 source, ensureIdempotency P None source s0 = (inr tt, s0)
                     /\ ensureIdempotency P (Some "") source s0 = (inr tt, s0))
  /\ exists s1,
      ensureIdempotency P (Some k) payload s = (inr tt, s1)
      /\ request_dedup s1 = <[k := sha256 P payload]> (request_dedup s)
      /\ ensureIdempotency P (Some k) payload s1 = (inl duplicate_request, s1)
      /\ ensureIdempotency P (Some k) payload' s1 = (inl key_conflict, s1)
      /\ duplicate_request <> key_conflict.
Proof.
  intros Hk Hfresh Hdiff. split; [done|].
  eexists. split; [by apply ensureIdempotency_fresh|].
  split; [done|].
  assert (Hknown : request_dedup (set_request_dedup (insert k (sha256 P payload)) s) !! k
                   = Some (sha256 P payload)) by apply lookup_insert_eq.
  repeat split.
  - rewrite (ensureIdempotency_known P k payload _ _ Hk Hknown).
    by rewrite String.eqb_refl.
  - rewrite (ensureIdempotency_known P k payload' _ _ Hk Hknown).
    destruct (String.eqb_spec (sha256 P payload) (sha256 P payload')); [congruence | done].
  - done.
Qed.

(** C8 (witness). The guard on the empty store of the sample deployment. *)
Lemma ensureIdempotency_guard_witness :
  (forall s0 source, ensureIdempotency samplePlatform None source s0 = (inr tt, s0)
                     /\ ensureIdempotency samplePlatform (Some "") source s0 = (inr tt, s0))
  /\ exists s1,
      ensureIdempotency samplePlatform (Some "publish-1") "1.0.0" empty_store = (inr tt, s1)
      /\ request_dedup s1
         = <["publish-1" := sha256 samplePlatform "1.0.0"]> (request_dedup empty_store)
      /\ ensureIdempotency samplePlatform (Some "publish-1") "1.0.0" s1
         = (inl duplicate_request, s1)
      /\ ensureIdempotency samplePlatform (Some "publish-1") "1.0.1" s1
         = (inl key_conflict, s1)
      /\ duplicate_request <> key_conflict.
Proof.
  apply (ensureIdempotency_guard samplePlatform "publish-1" "1.0.0" "1.0.1" empty_store).
  - reflexivity.
  - reflexivity.
  - simpl. discriminate.
Defined.

(** ** VersionStore: resolution *)

Lemma filter_none {A} (p : A -> bool) (l : list A) :
  (forall x, In x l -> p x = false) -> List.filter p l = [].
Proof.
  induction l as [|x l IH]; simpl; [done|]. intros H.
  rewrite (H x) by auto. apply IH. auto.
Qed.

Lemma filter_filter_and {A} (p q : A -> bool) (l : list A) :
  List.filter q (List.filter p l) = List.filter (fun x => p x && q x) l.
Proof.
  induction l as [|x l IH]; simpl; [done|].
  destruct (p x); simpl; [destruct (q x)|]; by rewrite IH.
Qed.

(** C3 (amended). A call that supplies neither a version nor
    [use_latest = true] fails with the ambiguous-selector error. A supplied
    version selects by version whether or not [use_latest] is set, so
    supplying both is not an error. When the selected query (by version,
    or by the latest flag when no version is supplied) matches no row the
    call fails with the not-found error. *)
Theorem resolveTemplateVersion_selector (P : Platform) (templateId : string) (s : Store) :
  (forall version, truthy_opt version = false ->
     resolveTemplateVersion P templateId version false s = (inl ambiguous_selector, s))
  /\ (forall v useLatest, truthy v = true ->
        resolveTemplateVersion P templateId (Some v) useLatest s
        = resolveTemplateVersion P templateId (Some v) false s)
  /\ (forall v useLatest, truthy v = true ->
        (forall r, In r (af_versions s) -> same_version templateId v r = false) ->
        resolveTemplateVersion P templateId (Some v) useLatest s = (inl version_not_found, s))
  /\ (forall version, truthy_opt version = false ->
        (forall r, In r (af_versions s) ->
                   String.eqb (vr_template_id r) templateId && vr_is_latest r = false) ->
        resolveTemplateVersion P templateId version true s = (inl version_not_found, s)).
Proof.
  unfold resolveTemplateVersion, bind, gets, throw, lift, ret.
  split; [|split; [|split]].
  - intros [v|] Hv; simpl in *; [by rewrite Hv | done].
  - intros v useLatest Hv. by rewrite Hv.
  - intros v useLatest Hv Hnone. rewrite Hv, filter_filter_and.
    rewrite filter_none; [done|]. intros r Hr. apply (Hnone r Hr).
  - intros version Hv Hnone.
    assert (Hq : List.filter vr_is_latest
                   (List.filter (fun r => String.eqb (vr_template_id r) templateId)
                                (af_versions s)) = []).
    { rewrite filter_filter_and. by apply filter_none. }
    destruct version as [v|]; simpl in *; [rewrite Hv|]; by rewrite Hq.
Qed.

(** C3 (counterexample). A call that supplies both a version and
    [use_latest = true] succeeds with the version asked for. *)
Lemma resolveTemplateVersion_accepts_both :
  resolveTemplateVersion samplePlatform "sample-support-agent" (Some "1.0.0") true sample_store
  = (inr (sampleAgentFile "1.0.0", "1.0.0"), sample_store).
Proof. vm_compute. reflexivity. Qed.

(** ** Handlers: what each step does to the store *)

Lemma ensureIdempotency_store (P : Platform) (key : option string) (source : string)
    (s : Store) :
  (exists e, ensureIdempotency P key source s = (inl (IdempotencyError e), s))
  \/ (exists d, ensureIdempotency P key source s
                = (inr tt, set_request_dedup (fun _ => d) s)
                /\ forall k, truthy k = true -> key = Some k ->
                             d = <[k := sha256 P source]> (request_dedup s)).
Proof.
  unfold ensureIdempotency, bind, gets, modify, throw, ret.
  destruct key as [k|].
  - destruct (truthy k) eqn:Hk; cbv beta iota delta [negb].
    + destruct (request_dedup s !! k) as [stored|] eqn:Hd.
      * left. destruct (String.eqb stored (sha256 P source)); eexists; reflexivity.
      * right. eexists. split; [reflexivity|]. by intros k' _ [= <-].
    + right. exists (request_dedup s). split; [by destruct s|].
      intros k' Hk' [= <-]. congruence.
  - right. exists (request_dedup s). split; [by destruct s | done].
Qed.

Lemma resolveTemplateVersion_store (P : Platform) (templateId : string)
    (version : option string) (useLatest : bool) (s : Store) :
  snd (resolveTemplateVersion P templateId version useLatest s) = s.
Proof.
  unfold resolveTemplateVersion, bind, gets, throw, ret, lift.
  destruct version as [v|]; [destruct (truthy v)|]; destruct useLatest;
    repeat (simpl; case_match); simplify_eq; done.
Qed.

Lemma resetLatest_other (templateId version other : string) (rows : list VersionRow) :
  other <> templateId ->
  latest_count other (resetLatest templateId version rows) = latest_count other rows.
Proof.
  intros Hne. unfold latest_count, resetLatest. f_equal.
  induction rows as [|r rows IH]; simpl; [done|].
  destruct (String.eqb_spec (vr_template_id r) templateId) as [Heq|Hneq]; simpl.
  - destruct (negb (String.eqb (vr_version r) version)); simpl;
      destruct (String.eqb_spec (vr_template_id r) other); try congruence; simpl; apply IH.
  - destruct (String.eqb (vr_template_id r) other && vr_is_latest r); by rewrite IH.
Qed.

Lemma resetLatest_same (templateId version : string) (rows : list VersionRow) :
  List.filter (fun r => String.eqb (vr_template_id r) templateId && vr_is_latest r)
              (resetLatest templateId version rows)
  = List.filter (fun r => same_version templateId version r && vr_is_latest r) rows.
Proof.
  unfold resetLatest, same_version.
  induction rows as [|r rows IH]; simpl; [done|].
  destruct (String.eqb (vr_template_id r) templateId) eqn:Et; simpl.
  - destruct (String.eqb (vr_version r) version); simpl; rewrite Et; simpl; [|apply IH].
    destruct (vr_is_latest r); by rewrite IH.
  - rewrite Et. simpl. apply IH.
Qed.

Lemma latest_count_after_publish (templateId version raw checksum : string)
    (rows : list VersionRow) :
  existsb (same_version templateId version) rows = false ->
  latest_count templateId
    (resetLatest templateId version (rows ++ [mkVersionRow templateId version raw checksum true]))
  = 1.
Proof.
  intros Hnone. unfold latest_count. rewrite resetLatest_same, List.filter_app.
  rewrite (filter_none _ rows).
  - simpl. unfold same_version. simpl. by rewrite !String.eqb_refl.
  - intros r Hr. destruct (same_version templateId version r) eqn:E; [|done].
    assert (existsb (same_version templateId version) rows = true) as Hsome
      by (apply existsb_exists; eauto).
    congruence.
Qed.

(** ** Publishing *)

Arguments validateAgentFile : simpl never.
Arguments assessSemver : simpl never.

Lemma parseAgentFile_raw P rawBody raw agentFile format :
  parseAgentFile P rawBody = inr (raw, agentFile, format) -> raw = rawBody.
Proof. unfold parseAgentFile. intros H. repeat case_match; simplify_eq; done. Qed.

Lemma selectVersions_includes (templateId version : string) (s : Store) :
  includes (selectVersions templateId s) version
  = existsb (same_version templateId version) (af_versions s).
Proof.
  unfold selectVersions, same_version.
  induction (af_versions s) as [|r rows IH]; simpl; [done|].
  destruct (String.eqb (vr_template_id r) templateId); simpl; [|done].
  destruct (String.eqb (vr_version r) version); simpl; [done|apply IH].
Qed.

Lemma assessSemver_allowed_fresh (nextVersion : string) (existing : list string)
    (a : SemverAssessment) :
  assessSemver nextVersion existing = inr a -> allowed a = true ->
  includes existing nextVersion = false.
Proof.
  unfold assessSemver. destruct (includes existing nextVersion); [|done].
  by intros [= <-].
Qed.

(** The publish handler, branch by branch. *)
Lemma handlePublishTemplate_run (P : Platform) (rawBody : string) (key : option string)
    (s : Store) :
  handlePublishTemplate P rawBody key s =
  match parseAgentFile P rawBody with
  | inl e => catch_handler (throw e) s
  | inr (_, agentFile, format) =>
      match ensureIdempotency P key rawBody s with
      | (inl e, s1) => catch_handler (throw e) s1
      | (inr _, s1) =>
          let templateId := id (template agentFile) in
          let version := version (template agentFile) in
          if negb (valid (validateAgentFile agentFile)) then
            (jsonResponse (ValidationFailedBody (errors (validateAgentFile agentFile)))
                          BadRequest, s1)
          else
            match assessSemver version (selectVersions templateId s1) with
            | inl e => catch_handler (throw e) s1
            | inr semverResult =>
                if negb (allowed semverResult) then
                  (jsonResponse (ErrorBody (message semverResult)) BadRequest, s1)
                else
                  (jsonResponse
                     (PublishBody format
                        (mkPublishResponse templateId version (sha256 P rawBody) true)) OK,
                   set_af_cache (insert (templateId +:+ "/" +:+ version +:+ ".af") rawBody)
                     (set_af_versions
                        (fun rows => resetLatest templateId version
                           (rows ++ [mkVersionRow templateId version rawBody
                                                  (sha256 P rawBody) true]))
                        (set_af_templates (fun t => {[templateId]} ∪ t) s1)))
            end
      end
  end.
Proof.
  unfold handlePublishTemplate, catch_handler.
  unfold bind at 1. unfold lift at 1.
  destruct (parseAgentFile P rawBody) as [e|[[raw agentFile] format]] eqn:Hparse;
    [by destruct e|].
  apply parseAgentFile_raw in Hparse as Hraw. subst raw.
  unfold bind at 1.
  destruct (ensureIdempotency P key rawBody s) as [[e|[]] s1]; [by destruct e|].
  destruct (valid (validateAgentFile agentFile)) eqn:Hvalid; cbn [negb]; [|done].
  unfold bind at 1. unfold gets at 1.
  unfold bind at 1. unfold lift at 1. cbv zeta.
  destruct (assessSemver _ _) as [e|semverResult] eqn:Hassess; [by destruct e|].
  destruct (allowed semverResult) eqn:Hallowed; cbn [negb]; [|done].
  pose proof (assessSemver_allowed_fresh _ _ _ Hassess Hallowed) as Hfresh.
  rewrite selectVersions_includes in Hfresh.
  unfold bind at 1. unfold modify at 1.
  unfold bind at 1. unfold insertVersion at 1.
  cbn [vr_template_id vr_version af_versions set_af_templates].
  rewrite Hfresh. cbn [negb].
  unfold bind, modify, cacheAgentFile, ret. by destruct s1.
Qed.

(** A publish either fails and leaves every table but [request_dedup] as it
    was, or adds the new version as the only latest one of its template. *)
Lemma handlePublishTemplate_cases (P : Platform) (rawBody : string) (key : option string)
    (s : Store) (r : Response) (s' : Store) :
  handlePublishTemplate P rawBody key s = (r, s') ->
  (status r <> OK /\ exists d, s' = set_request_dedup (fun _ => d) s)
  \/ (exists agentFile format d,
        let templateId := id (template agentFile) in
        let version := version (template agentFile) in
        parseAgentFile P rawBody = inr (rawBody, agentFile, format)
        /\ valid (validateAgentFile agentFile) = true
        /\ existsb (same_version templateId version) (af_versions s) = false
        /\ r = jsonResponse (PublishBody format
                   (mkPublishResponse templateId version (sha256 P rawBody) true)) OK
        /\ s' = set_af_cache (insert (templateId +:+ "/" +:+ version +:+ ".af") rawBody)
                  (set_af_versions
                     (fun rows => resetLatest templateId version
                        (rows ++ [mkVersionRow templateId version rawBody
                                               (sha256 P rawBody) true]))
                     (set_af_templates (fun t => {[templateId]} ∪ t)
                        (set_request_dedup (fun _ => d) s)))).
Proof.
  rewrite handlePublishTemplate_run.
  assert (Hsame : s = set_request_dedup (fun _ => request_dedup s) s) by by destruct s.
  destruct (parseAgentFile P rawBody) as [e|[[raw agentFile] format]] eqn:Hparse.
  { intros [= <- <-]. left. split; [by destruct e | eauto]. }
  apply parseAgentFile_raw in Hparse as Hraw. subst raw.
  destruct (ensureIdempotency_store P key rawBody s) as [[e He]|[d [Hd _]]]; rewrite ?He, ?Hd.
  { intros [= <- <-]. left. split; [done | eauto]. }
  destruct (valid (validateAgentFile agentFile)) eqn:Hvalid; cbn [negb].
  2:{ intros [= <- <-]. left. split; [done | eauto]. }
  cbv zeta.
  destruct (assessSemver _ _) as [e|semverResult] eqn:Hassess.
  { intros [= <- <-]. left. split; [by destruct e | eauto]. }
  destruct (allowed semverResult) eqn:Hallowed; cbn [negb].
  2:{ intros [= <- <-]. left. split; [done | eauto]. }
  intros [= <- <-]. right. exists agentFile, format, d. cbv zeta.
  repeat split; try done.
  pose proof (assessSemver_allowed_fresh _ _ _ Hassess Hallowed) as Hfresh.
  by rewrite selectVersions_includes in Hfresh.
Qed.

Lemma latest_count_app (templateId : string) (rows rows' : list VersionRow) :
  latest_count templateId (rows ++ rows')
  = latest_count templateId rows + latest_count templateId rows'.
Proof. unfold latest_count. by rewrite List.filter_app, length_app. Qed.

Lemma handlePublishTemplate_latest (P : Platform) (rawBody : string) (key : option string)
    (s : Store) :
  at_most_one_latest s ->
  at_most_one_latest (snd (handlePublishTemplate P rawBody key s)).
Proof.
  intros Hinv.
  destruct (handlePublishTemplate P rawBody key s) as [r s'] eqn:Hrun.
  apply handlePublishTemplate_cases in Hrun
    as [[_ [d ->]]|(agentFile & format & d & _ & _ & Hfresh & _ & ->)]; [done|].
  intros other. simpl.
  destruct (decide (other = id (template agentFile))) as [->|Hne].
  - by rewrite latest_count_after_publish.
  - rewrite resetLatest_other, latest_count_app by done.
    unfold latest_count at 2. simpl.
    destruct (String.eqb_spec (id (template agentFile)) other); [congruence|].
    simpl. rewrite Nat.add_0_r. apply Hinv.
Qed.

(** C5. For every template, after any finite sequence of publish requests
    on a store with at most one latest version per template (the empty
    store is one), at most one stored version of the template is flagged
    as latest; and a publish that succeeds leaves exactly one latest
    version of its template, the one it has inserted. *)
Theorem publish_all_at_most_one_latest (P : Platform)
    (requests : list (string * option string)) (s : Store) :
  at_most_one_latest s ->
  at_most_one_latest (publish_all P requests s)
  /\ (forall rawBody key r s',
        handlePublishTemplate P rawBody key (publish_all P requests s) = (r, s') ->
        status r = OK ->
        exists format published,
          body r = PublishBody format published
          /\ latest_count (pr_template_id published) (af_versions s') = 1
          /\ In (mkVersionRow (pr_template_id published) (pr_version published) rawBody
                              (pr_checksum published) true) (af_versions s')).
Proof.
  intros Hinv. split.
  - revert s Hinv. induction requests as [|[rawBody key] rest IH]; intros s Hinv; simpl.
    + done.
    + apply IH. by apply handlePublishTemplate_latest.
  - intros rawBody key r s' Hrun Hok.
    apply handlePublishTemplate_cases in Hrun
      as [[Hno _]|(agentFile & format & d & _ & _ & Hfresh & -> & ->)]; [done|].
    eexists _, _. split; [reflexivity|]. simpl. split.
    + by apply latest_count_after_publish.
    + unfold resetLatest. apply in_map_iff. eexists. split; [|apply in_or_app; right; by left].
      simpl. by rewrite !String.eqb_refl.
Qed.

(** C5 (witness). Two publishes on the empty store of the sample
    deployment. *)
Lemma publish_all_at_most_one_latest_witness :
  at_most_one_latest empty_store
  /\ at_most_one_latest
       (publish_all samplePlatform [("1.0.0", None); ("1.0.1", Some "publish-2")] empty_store).
Proof.
  assert (H : at_most_one_latest empty_store).
  { intros t. apply le_S, le_n. }
  split; [exact H|].
  apply (publish_all_at_most_one_latest samplePlatform
           [("1.0.0", None); ("1.0.1", Some "publish-2")] empty_store H).
Defined.

Lemma resetLatest_keeps (templateId version : string) (rows : list VersionRow)
    (r : VersionRow) :
  In r rows -> vr_version r = version -> In r (resetLatest templateId version rows).
Proof.
  intros Hin Hv. unfold resetLatest. apply in_map_iff. exists r. split; [|done].
  rewrite Hv, String.eqb_refl. simpl. by rewrite andb_false_r.
Qed.

Lemma existsb_same_version (templateId version : string) (rows : list VersionRow)
    (r : VersionRow) :
  In r rows -> vr_template_id r = templateId -> vr_version r = version ->
  existsb (same_version templateId version) rows = true.
Proof.
  intros Hin Ht Hv. apply existsb_exists. exists r. split; [done|].
  unfold same_version. by rewrite Ht, Hv, !String.eqb_refl.
Qed.

Lemma ensureIdempotency_passes (P : Platform) (key : option string) (source : string)
    (s : Store) :
  (forall k, key = Some k -> request_dedup s !! k = None) ->
  exists d, ensureIdempotency P key source s = (inr tt, set_request_dedup (fun _ => d) s).
Proof.
  intros Hfresh.
  destruct (ensureIdempotency_store P key source s) as [[e He]|[d [Hd _]]]; [|eauto].
  unfold ensureIdempotency, bind, gets, throw in He.
  destruct key as [k|]; [|done].
  destruct (negb (truthy k)); [done|].
  by rewrite (Hfresh k eq_refl) in He.
Qed.

(** C4 (amended). A publish of a (template_id, version) pair that is not
    stored yet succeeds when its body parses to an agent file that passes
    validation, its idempotency key, if it has one, is not recorded yet,
    and its version is not below any valid stored version of the template;
    its row is then stored with the published content and checksum. After
    it, every publish of the same pair fails and leaves the stored
    versions as they are, the row of the first publish included. Such a
    publish is rejected as a version already published when it passes the
    idempotency guard and validation; a retry that repeats the key and the
    body of the first publish is stopped by the guard before that and is
    answered as a duplicate request. *)
Theorem publish_twice (P : Platform) (body1 : string) (key1 : option string) (s : Store)
    (agentFile : AgentFile) (format : Format) :
  parseAgentFile P body1 = inr (body1, agentFile, format) ->
  valid (validateAgentFile agentFile) = true ->
  (forall k, key1 = Some k -> request_dedup s !! k = None) ->
  existsb (same_version (id (template agentFile)) (version (template agentFile)))
          (af_versions s) = false ->
  (forall e, In e (selectVersions (id (template agentFile)) s) -> Semver.valid e = true ->
             Semver.lt (version (template agentFile)) e = inr false) ->
  exists s1,
    let first := mkVersionRow (id (template agentFile)) (version (template agentFile))
                              body1 (sha256 P body1) true in
    handlePublishTemplate P body1 key1 s
    = (jsonResponse
         (PublishBody format
            (mkPublishResponse (id (template agentFile)) (version (template agentFile))
                               (sha256 P body1) true)) OK, s1)
    /\ In first (af_versions s1)
    /\ forall body2 key2 agentFile2 format2 r2 s2,
         parseAgentFile P body2 = inr (body2, agentFile2, format2) ->
         id (template agentFile2) = id (template agentFile) ->
         version (template agentFile2) = version (template agentFile) ->
         handlePublishTemplate P body2 key2 s1 = (r2, s2) ->
         status r2 <> OK
         /\ af_versions s2 = af_versions s1
         /\ In first (af_versions s2)
         /\ ((exists s1', ensureIdempotency P key2 body2 s1 = (inr tt, s1')) ->
             valid (validateAgentFile agentFile2) = true ->
             r2 = jsonResponse (ErrorBody (Some "Version already published")) BadRequest)
         /\ (forall k, truthy k = true -> key1 = Some k -> key2 = Some k -> body2 = body1 ->
             r2 = duplicate_response).
Proof.
  intros Hparse Hvalid Hkey Hfresh Hnot.
  set (t := id (template agentFile)) in *. set (v := version (template agentFile)) in *.
  destruct (ensureIdempotency_passes P key1 body1 s Hkey) as [d Hguard].
  assert (Hgate : assessSemver v (selectVersions t (set_request_dedup (fun _ => d) s))
                  = inr allowance).
  { apply assessSemver_allows; [by rewrite selectVersions_includes | done]. }
  eexists. cbv zeta. split.
  { rewrite handlePublishTemplate_run, Hparse, Hguard, Hvalid. cbn [negb]. cbv zeta.
    fold t v. rewrite Hgate. cbn [negb allowed allowance]. reflexivity. }
  set (s1 := set_af_cache _ _).
  set (first := mkVersionRow t v body1 (sha256 P body1) true).
  assert (Hfirst : In first (af_versions s1)).
  { simpl. apply resetLatest_keeps; [|done]. apply in_or_app. right. by left. }
  split; [done|].
  intros body2 key2 agentFile2 format2 r2 s2 Hparse2 Ht Hv Hrun2.
  assert (Hexists : forall d',
    existsb (same_version (id (template agentFile2)) (version (template agentFile2)))
            (af_versions (set_request_dedup (fun _ => d') s1)) = true).
  { intros d'. apply (existsb_same_version _ _ _ first); [done | by rewrite Ht | by rewrite Hv]. }
  assert (Hfail : status r2 <> OK /\ af_versions s2 = af_versions s1).
  { apply handlePublishTemplate_cases in Hrun2 as Hcases.
    destruct Hcases as [[Hno [d' ->]]|(af & f & d' & Hp & _ & Hfresh' & _ & _)]; [done|].
    rewrite Hparse2 in Hp. injection Hp as <- <-.
    specialize (Hexists (request_dedup s1)).
    replace (set_request_dedup (fun _ => request_dedup s1) s1) with s1 in Hexists
      by (by destruct s1).
    congruence. }
  destruct Hfail as [Hno Hsame].
  split; [done|]. split; [done|]. split; [by rewrite Hsame|]. split.
  - intros [s1' Hguard2] Hvalid2.
    rewrite handlePublishTemplate_run, Hparse2, Hguard2, Hvalid2 in Hrun2.
    cbn [negb] in Hrun2. cbv zeta in Hrun2.
    destruct (ensureIdempotency_store P key2 body2 s1) as [[e He]|[d' [Hd' _]]];
      [congruence|].
    rewrite Hd' in Hguard2. injection Hguard2 as <-.
    assert (Hdup : assessSemver (version (template agentFile2))
                     (selectVersions (id (template agentFile2))
                                     (set_request_dedup (fun _ => d') s1))
                   = inr duplicate_rejection).
    { unfold assessSemver. by rewrite selectVersions_includes, Hexists. }
    rewrite Hdup in Hrun2. simpl in Hrun2. by injection Hrun2 as <- _.
  - intros k Hk -> -> ->.
    assert (Hd : d = <[k := sha256 P body1]> (request_dedup s)).
    { rewrite (ensureIdempotency_fresh P k body1 s Hk (Hkey k eq_refl)) in Hguard.
      by injection Hguard. }
    assert (Hknown : request_dedup s1 !! k = Some (sha256 P body1)).
    { simpl. rewrite Hd. apply lookup_insert_eq. }
    rewrite handlePublishTemplate_run, Hparse2 in Hrun2.
    rewrite (ensureIdempotency_known P k body1 _ s1 Hk Hknown), String.eqb_refl in Hrun2.
    by injection Hrun2 as <- _.
Qed.

(** C4 (witness). Version 1.0.2 of the sample template, published with a
    key on the store that holds 1.0.0 and 1.0.1. *)
Lemma publish_twice_witness :
  exists s1,
    let first := mkVersionRow "sample-support-agent" "1.0.2" "1.0.2"
                              (sha256 samplePlatform "1.0.2") true in
    handlePublishTemplate samplePlatform "1.0.2" (Some "publish-3") sample_store
    = (jsonResponse
         (PublishBody yaml
            (mkPublishResponse "sample-support-agent" "1.0.2"
                               (sha256 samplePlatform "1.0.2") true)) OK, s1)
    /\ In first (af_versions s1)
    /\ forall body2 key2 agentFile2 format2 r2 s2,
         parseAgentFile samplePlatform body2 = inr (body2, agentFile2, format2) ->
         id (template agentFile2) = "sample-support-agent" ->
         version (template agentFile2) = "1.0.2" ->
         handlePublishTemplate samplePlatform body2 key2 s1 = (r2, s2) ->
         status r2 <> OK
         /\ af_versions s2 = af_versions s1
         /\ In first (af_versions s2)
         /\ ((exists s1', ensureIdempotency samplePlatform key2 body2 s1 = (inr tt, s1')) ->
             valid (validateAgentFile agentFile2) = true ->
             r2 = jsonResponse (ErrorBody (Some "Version already published")) BadRequest)
         /\ (forall k, truthy k = true -> Some "publish-3" = Some k -> key2 = Some k ->
                       body2 = "1.0.2" ->
             r2 = duplicate_response).
Proof.
  apply (publish_twice samplePlatform "1.0.2" (Some "publish-3") sample_store
           (sampleAgentFile "1.0.2") yaml).
  - reflexivity.
  - vm_compute. reflexivity.
  - intros k _. reflexivity.
  - reflexivity.
  - intros e [<-|[<-|[]]] _; vm_compute; reflexivity.
Defined.

(** C4 (counterexample). The second publish of a pair does not always fail
    as a duplicate version: a retry with the key of the first publish is
    answered as a duplicate request; and the first publish of a pair does
    not always succeed: a version below the latest one is refused both
    times as regressive. *)
Lemma publish_twice_other_failures :
  (let first := handlePublishTemplate samplePlatform "1.0.0" (Some "publish-1") empty_store in
   let second := handlePublishTemplate samplePlatform "1.0.0" (Some "publish-1") (snd first) in
   status (fst first) = OK
   /\ fst second = jsonResponse (ErrorBody (Some "Duplicate request")) Conflict)
  /\ (let first := handlePublishTemplate samplePlatform "0.9.0" None sample_store in
      let second := handlePublishTemplate samplePlatform "0.9.0" None (snd first) in
      fst first = jsonResponse (ErrorBody (Some "Version 0.9.0 is lower than latest 1.0.1"))
                               BadRequest
      /\ fst second = fst first
      /\ af_versions (snd second) = af_versions sample_store).
Proof. split; vm_compute; repeat split. Qed.

(** ** UpgradeDispatcher *)

Lemma fetchLettaAgent_store (P : Platform) (agentId : string) (s : Store) :
  snd (fetchLettaAgent P agentId s) = s.
Proof. unfold fetchLettaAgent, throw, lift. by destruct (negb _). Qed.

Lemma handleUpgradeAgent_cases (P : Platform) (agentId : string)
    (payload : UpgradeAgentInput) (userId key : option string) (s : Store)
    (r : Response) (s' : Store) :
  truthy_opt (ZUPLO_BASE_URL P) = true ->
  handleUpgradeAgent P agentId payload userId key s = (r, s') ->
  (exists msg,
      ensureIdempotency P key (stringifyUpgrade P payload agentId) s
      = (inl (IdempotencyError msg), s)
      /\ r = jsonResponse (ErrorBody (Some msg)) Conflict /\ s' = s)
  \/ (exists d,
        ensureIdempotency P key (stringifyUpgrade P payload agentId) s
        = (inr tt, set_request_dedup (fun _ => d) s)
        /\ upgrade_outcome P agentId payload (set_request_dedup (fun _ => d) s) r s').
Proof.
  intros Hzuplo. unfold handleUpgradeAgent. rewrite Hzuplo. cbn [negb].
  unfold catch_handler. unfold bind at 1.
  destruct (ensureIdempotency_store P key (stringifyUpgrade P payload agentId) s)
    as [[e He]|[d [Hd _]]]; rewrite ?He, ?Hd.
  { intros [= <- <-]. left. eauto. }
  set (s1 := set_request_dedup (fun _ => d) s).
  intros Hrun. right. exists d. split; [done|]. revert Hrun.
  unfold bind at 1. unfold gets at 1.
  destruct (agent_instances s1 !! agentId) as [agentRecord|] eqn:Hrec.
  2:{ intros [= <- <-]. by apply upgrade_refused. }
  destruct (truthy_opt userId && _).
  { intros [= <- <-]. by apply upgrade_refused. }
  unfold bind at 1.
  pose proof (resolveTemplateVersion_store P (ai_template_id agentRecord)
                (target_version payload) (default true (use_latest payload)) s1) as Hres.
  destruct (resolveTemplateVersion _ _ _ _ s1) as [[e|[resolved raw]] s1'].
  all: simpl in Hres; subst s1'.
  { intros [= <- <-]. apply upgrade_refused. by destruct e. }
  unfold bind at 1. unfold lift at 1.
  destruct (default _ (buildMigrationPlan _ _ _)) as [e|plan].
  { intros [= <- <-]. apply upgrade_refused. by destruct e. }
  unfold bind at 1.
  pose proof (fetchLettaAgent_store P agentId s1) as Hfetch.
  destruct (fetchLettaAgent P agentId s1) as [[e|currentConfig] s1'].
  all: simpl in Hfetch; subst s1'.
  { intros [= <- <-]. apply upgrade_refused. by destruct e. }
  unfold bind at 1. unfold lift at 1.
  destruct (performDryRun P plan currentConfig (ai_user_id agentRecord)) as [e|dr] eqn:Hdry.
  { intros [= <- <-]. apply upgrade_refused. by destruct e. }
  destruct (default true (dry_run payload)) eqn:Hdr.
  { unfold bind, logMigration, modify, ret. intros [= <- <-].
    by apply (upgrade_simulated _ _ _ _ agentRecord _ plan currentConfig dr). }
  destruct (default false (use_queue payload)) eqn:Hq.
  { unfold bind, enqueueUpgradeJob, modify, ret. intros [= <- <-].
    by apply (upgrade_enqueued _ _ _ _ agentRecord). }
  unfold bind at 1. unfold updateLettaAgent.
  destruct (negb (truthy_opt (LETTA_API_KEY P))).
  { unfold throw. intros [= <- <-]. by apply upgrade_refused. }
  unfold bind at 1. unfold modify at 1. unfold lift at 1.
  destruct (lettaUpdate P agentId (updatedConfig dr)) as [e|applied] eqn:Hupd.
  { intros [= <- <-]. by apply (upgrade_update_failed _ _ _ _ agentRecord plan currentConfig dr). }
  unfold bind, logMigration, modify, ret. intros [= <- <-].
  by apply (upgrade_applied _ _ _ _ agentRecord _ plan currentConfig dr).
Qed.

Lemma error_response_not_OK (e : Exn) : status (error_response e) <> OK.
Proof. by destruct e. Qed.

(** C2 (amended). For an upgrade request that reaches the dispatcher, a
    MigrationAttempt is persisted with status [dry_run] when the request is
    a dry run and with status [applied] when the synchronous update
    succeeds, in both cases with the plan and the diff of the response. A
    queued request appends its job to the queue and persists no
    MigrationAttempt. A request that fails persists no MigrationAttempt and
    does not advance the stored version; when it fails because the remote
    update was sent and refused, the response carries that error. *)
Theorem handleUpgradeAgent_audit (P : Platform) (agentId : string)
    (payload : UpgradeAgentInput) (userId key : option string) (s s' : Store)
    (r : Response) :
  truthy_opt (ZUPLO_BASE_URL P) = true ->
  handleUpgradeAgent P agentId payload userId key s = (r, s') ->
  (default true (dry_run payload) = true -> status r = OK ->
     exists a ws,
       agent_migrations s' = agent_migrations s ++ [a]
       /\ ma_status a = "dry_run" /\ ma_dry_run a = true /\ ma_agent_id a = agentId
       /\ body r = DryRunBody (ma_plan a) (ma_diff a) ws)
  /\ (default true (dry_run payload) = false -> default false (use_queue payload) = false ->
      status r = OK ->
      exists a applied,
        agent_migrations s' = agent_migrations s ++ [a]
        /\ ma_status a = "applied" /\ ma_dry_run a = false /\ ma_agent_id a = agentId
        /\ body r = AppliedBody applied (ma_plan a) (ma_diff a)
        /\ ai_version <$> agent_instances s' !! agentId = Some (ma_to_version a))
  /\ (default true (dry_run payload) = false -> default false (use_queue payload) = true ->
      status r = OK ->
      agent_migrations s' = agent_migrations s
      /\ exists job,
          upgrade_jobs s' = upgrade_jobs s ++ [job]
          /\ job_agent_id job = agentId
          /\ body r = QueuedBody (job_plan job))
  /\ (status r <> OK ->
      agent_migrations s' = agent_migrations s
      /\ agent_instances s' = agent_instances s
      /\ (letta_updates s' <> letta_updates s ->
          exists config e,
            letta_updates s' = letta_updates s ++ [(agentId, config)]
            /\ lettaUpdate P agentId config = inl e
            /\ r = error_response e)).
Proof.
  intros Hzuplo Hrun.
  apply handleUpgradeAgent_cases in Hrun as [(msg & _ & -> & ->)|(d & _ & Hout)]; [|clear Hzuplo|done].
  - repeat split; try done.
  - inversion Hout as
      [r0 Hno
      |agentRecord toVersion plan currentConfig dr Hrec Hdry Hflag
      |agentRecord toVersion plan Hrec Hflag Hq
      |agentRecord plan currentConfig dr e Hrec Hdry Hflag Hq Hupd
      |agentRecord toVersion plan currentConfig dr applied Hrec Hdry Hflag Hq Hupd];
      subst; simpl.
    + repeat split; try done.
    + split; [|repeat split; try congruence; done].
      intros _ _. by eexists _, _.
    + split; [congruence|]. split; [congruence|]. split; [|done].
      intros _ _ _. split; [done|]. by eexists.
    + pose proof (error_response_not_OK e). repeat split; try done.
      intros _. by eexists _, _.
    + split; [congruence|]. split; [|split; [congruence|done]].
      intros _ _ _. eexists _, _. repeat split.
      simpl. rewrite lookup_alter_eq. simpl in Hrec. by rewrite Hrec.
Qed.

(** C2 (witness). A dry run of the sample agent's upgrade. *)
Lemma handleUpgradeAgent_audit_witness :
  let run := handleUpgradeAgent samplePlatform "agent-1" sample_dry_request
                                (Some sample_user) None sample_store in
  truthy_opt (ZUPLO_BASE_URL samplePlatform) = true
  /\ exists a ws,
      agent_migrations (snd run) = agent_migrations sample_store ++ [a]
      /\ ma_status a = "dry_run" /\ ma_dry_run a = true /\ ma_agent_id a = "agent-1"
      /\ body (fst run) = DryRunBody (ma_plan a) (ma_diff a) ws.
Proof.
  intros run. split; [reflexivity|].
  destruct (handleUpgradeAgent_audit samplePlatform "agent-1" sample_dry_request
              (Some sample_user) None sample_store (snd run) (fst run)) as (Hdry & _).
  - reflexivity.
  - apply surjective_pairing.
  - apply Hdry; vm_compute; reflexivity.
Defined.

(** C2 (counterexample). A queued request is answered as queued and no
    MigrationAttempt is persisted; an upgrade whose remote update is
    refused is answered with the error and no MigrationAttempt is
    persisted either. *)
Lemma handleUpgradeAgent_no_queued_or_failed_attempt :
  (let run := handleUpgradeAgent samplePlatform "agent-1" sample_queued_request
                                 (Some sample_user) None sample_store in
   fst run = jsonResponse (QueuedBody sample_plan) OK
   /\ length (upgrade_jobs (snd run)) = 1
   /\ agent_migrations (snd run) = [])
  /\ (let run := handleUpgradeAgent refusingPlatform "agent-1" sample_sync_request
                                    (Some sample_user) None sample_store in
      fst run = jsonResponse (ErrorBody (Some "Failed to update agent agent-1: 500 refused"))
                             InternalServerError
      /\ length (letta_updates (snd run)) = 1
      /\ agent_migrations (snd run) = []).
Proof. split; vm_compute; repeat split. Qed.

Lemma buildMigrationPlan_default (currentVersion targetVersion : string)
    (migrations : list MigrationSpec) (fallback : Exn + list MigrationStep) :
  exists r, buildMigrationPlan currentVersion targetVersion migrations = Some r
            /\ default fallback (buildMigrationPlan currentVersion targetVersion migrations) = r.
Proof.
  destruct (buildMigrationPlan_total currentVersion targetVersion migrations) as (r & Hr & _).
  exists r. by rewrite Hr.
Qed.

(** A successful upgrade, step by step. *)
Lemma handleUpgradeAgent_success (P : Platform) (agentId : string)
    (payload : UpgradeAgentInput) (userId key : option string) (s s' : Store)
    (r : Response) :
  truthy_opt (ZUPLO_BASE_URL P) = true ->
  handleUpgradeAgent P agentId payload userId key s = (r, s') ->
  status r = OK ->
  exists d agentRecord resolved raw plan currentConfig dr,
    let s1 := set_request_dedup (fun _ => d) s in
    let toVersion := version (template resolved) in
    agent_instances s !! agentId = Some agentRecord
    /\ (truthy_opt userId = true -> userId = Some (ai_user_id agentRecord))
    /\ resolveTemplateVersion P (ai_template_id agentRecord) (target_version payload)
                              (default true (use_latest payload)) s1
       = (inr (resolved, raw), s1)
    /\ buildMigrationPlan (ai_version agentRecord) toVersion
                          (default [] (migrations resolved)) = Some (inr plan)
    /\ lettaFetch P agentId = inr currentConfig
    /\ performDryRun P plan currentConfig (ai_user_id agentRecord) = inr dr
    /\ ((default true (dry_run payload) = true
         /\ r = jsonResponse (DryRunBody plan (diff dr) (warnings dr)) OK
         /\ s' = set_agent_migrations
                   (fun log => log ++ [attempt_of agentId agentRecord toVersion true plan dr])
                   s1)
        \/ (default true (dry_run payload) = false
            /\ default false (use_queue payload) = true
            /\ r = jsonResponse (QueuedBody plan) OK
            /\ s' = set_upgrade_jobs
                      (fun q => q ++ [mkJob agentId (ai_user_id agentRecord)
                                            (ai_version agentRecord) toVersion plan]) s1)
        \/ (default true (dry_run payload) = false
            /\ default false (use_queue payload) = false
            /\ exists applied,
                lettaUpdate P agentId (updatedConfig dr) = inr applied
                /\ r = jsonResponse (AppliedBody applied plan (diff dr)) OK
                /\ s' = set_agent_migrations
                          (fun log => log ++ [attempt_of agentId agentRecord toVersion
                                                         false plan dr])
                          (set_agent_instances (alter (advance_version toVersion) agentId)
                             (set_letta_updates
                                (fun calls => calls ++ [(agentId, updatedConfig dr)]) s1)))).
Proof.
  intros Hzuplo. unfold handleUpgradeAgent. rewrite Hzuplo. cbn [negb].
  unfold catch_handler. unfold bind at 1.
  destruct (ensureIdempotency_store P key (stringifyUpgrade P payload agentId) s)
    as [[e He]|[d [Hd _]]]; rewrite ?He, ?Hd.
  { by intros [= <- <-]. }
  set (s1 := set_request_dedup (fun _ => d) s).
  unfold bind at 1. unfold gets at 1.
  change (agent_instances s1) with (agent_instances s).
  destruct (agent_instances s !! agentId) as [agentRecord|] eqn:Hrec.
  2:{ by intros [= <- <-]. }
  destruct (truthy_opt userId && _) eqn:Howner.
  { by intros [= <- <-]. }
  unfold bind at 1.
  pose proof (resolveTemplateVersion_store P (ai_template_id agentRecord)
                (target_version payload) (default true (use_latest payload)) s1) as Hres.
  destruct (resolveTemplateVersion _ _ _ _ s1) as [[e|[resolved raw]] s1'] eqn:Hresolve.
  all: simpl in Hres; subst s1'.
  { intros [= <- <-]. by destruct e. }
  unfold bind at 1. unfold lift at 1.
  destruct (buildMigrationPlan_default (ai_version agentRecord) (version (template resolved))
              (default [] (migrations resolved))
              (inl (Error "migration planner did not finish"))) as (out & Hplan & ->).
  destruct out as [e|plan].
  { intros [= <- <-]. by destruct e. }
  unfold bind at 1. unfold fetchLettaAgent.
  destruct (negb (truthy_opt (LETTA_API_KEY P))) eqn:Hkey.
  { unfold throw. by intros [= <- <-]. }
  unfold lift at 1.
  destruct (lettaFetch P agentId) as [e|currentConfig] eqn:Hfetch.
  { intros [= <- <-]. by destruct e. }
  unfold bind at 1. unfold lift at 1.
  destruct (performDryRun P plan currentConfig (ai_user_id agentRecord)) as [e|dr] eqn:Hdry.
  { intros [= <- <-]. by destruct e. }
  assert (Hown : truthy_opt userId = true -> userId = Some (ai_user_id agentRecord)).
  { intros Ht. rewrite Ht in Howner. simpl in Howner.
    apply negb_false_iff, String.eqb_eq in Howner.
    destruct userId as [u|]; [|done]. simpl in Howner. by subst. }
  destruct (default true (dry_run payload)) eqn:Hdr.
  { unfold bind, logMigration, modify, ret. intros [= <- <-] _.
    exists d, agentRecord, resolved, raw, plan, currentConfig, dr. cbv zeta.
    repeat split; try done. by left. }
  destruct (default false (use_queue payload)) eqn:Hq.
  { unfold bind, enqueueUpgradeJob, modify, ret. intros [= <- <-] _.
    exists d, agentRecord, resolved, raw, plan, currentConfig, dr. cbv zeta.
    repeat split; try done. right. by left. }
  unfold bind at 1. unfold updateLettaAgent. rewrite Hkey.
  unfold bind at 1. unfold modify at 1. unfold lift at 1.
  destruct (lettaUpdate P agentId (updatedConfig dr)) as [e|applied] eqn:Hupd.
  { intros [= <- <-]. by destruct e. }
  unfold bind, logMigration, modify, ret. intros [= <- <-] _.
  exists d, agentRecord, resolved, raw, plan, currentConfig, dr. cbv zeta.
  repeat split; try done. right. right. repeat split; try done. by exists applied.
Qed.

Lemma handleUpgradeAgent_OK_configured (P : Platform) (agentId : string)
    (payload : UpgradeAgentInput) (userId key : option string) (s s' : Store)
    (r : Response) :
  handleUpgradeAgent P agentId payload userId key s = (r, s') ->
  status r = OK -> truthy_opt (ZUPLO_BASE_URL P) = true.
Proof.
  intros Hrun Hok. destruct (truthy_opt (ZUPLO_BASE_URL P)) eqn:Hzuplo; [done|].
  unfold handleUpgradeAgent in Hrun. rewrite Hzuplo in Hrun. by injection Hrun as <- _.
Qed.

Lemma resolveTemplateVersion_versions (P : Platform) (templateId : string)
    (version : option string) (useLatest : bool) (s s2 : Store) :
  af_versions s = af_versions s2 ->
  fst (resolveTemplateVersion P templateId version useLatest s)
  = fst (resolveTemplateVersion P templateId version useLatest s2).
Proof.
  intros Hsame. unfold resolveTemplateVersion, bind, gets, ret, throw, lift.
  rewrite Hsame.
  destruct version as [v|]; [destruct (truthy v)|]; destruct useLatest;
    repeat (simpl; case_match); simplify_eq; done.
Qed.

(** *** Computations that leave the idempotency records alone *)

Lemma commutes_ret {A} (g : Store -> Store) (a : A) : commutes g (ret a).
Proof. done. Qed.

Lemma commutes_throw {A} (g : Store -> Store) (e : Exn) : commutes g (@throw A e).
Proof. done. Qed.

Lemma commutes_lift {A} (g : Store -> Store) (r : Exn + A) : commutes g (lift r).
Proof. done. Qed.

Lemma commutes_gets {A} (g : Store -> Store) (h : Store -> A) :
  (forall s, h (g s) = h s) -> commutes g (gets h).
Proof. intros H s. unfold gets. by rewrite H. Qed.

Lemma commutes_modify (g : Store -> Store) (u : Store -> Store) :
  (forall s, u (g s) = g (u s)) -> commutes g (modify u).
Proof. intros H s. unfold modify. by rewrite H. Qed.

Lemma commutes_bind {A B} (g : Store -> Store) (m : M A) (k : A -> M B) :
  commutes g m -> (forall a, commutes g (k a)) -> commutes g (bind m k).
Proof.
  intros Hm Hk s. unfold bind. rewrite Hm.
  destruct (m s) as [[e|a] s1]; simpl; [done|]. apply Hk.
Qed.

Lemma commutes_catch (g : Store -> Store) (m : M Response) (s : Store) :
  commutes g m ->
  catch_handler m (g s) = (fst (catch_handler m s), g (snd (catch_handler m s))).
Proof.
  intros Hm. unfold catch_handler. rewrite Hm. by destruct (m s) as [[e|r] s1].
Qed.

Ltac commute :=
  repeat first
    [ apply commutes_ret
    | apply commutes_throw
    | apply commutes_lift
    | apply commutes_gets; intros; reflexivity
    | apply commutes_modify; intros; reflexivity
    | apply commutes_bind; [|intros]
    | match goal with
      | |- commutes _ (match ?x with _ => _ end) => destruct x
      end ].

(** Past the guard the dispatcher neither reads nor writes the
    idempotency records. *)
Lemma handleUpgradeAgent_dedup (P : Platform) (agentId : string)
    (payload : UpgradeAgentInput) (userId : option string) (d : gmap string string)
    (s : Store) :
  handleUpgradeAgent P agentId payload userId None (set_request_dedup (fun _ => d) s)
  = (fst (handleUpgradeAgent P agentId payload userId None s),
     set_request_dedup (fun _ => d) (snd (handleUpgradeAgent P agentId payload userId None s))).
Proof.
  unfold handleUpgradeAgent. destruct (negb (truthy_opt (ZUPLO_BASE_URL P))); [done|].
  apply commutes_catch.
  unfold ensureIdempotency, resolveTemplateVersion, fetchLettaAgent, updateLettaAgent,
    logMigration, enqueueUpgradeJob.
  commute.
Qed.

(** A request that the guard lets pass is handled as the request without
    key on the store the guard leaves. *)
Lemma handleUpgradeAgent_past_guard (P : Platform) (agentId : string)
    (payload : UpgradeAgentInput) (userId key : option string) (s s1 : Store) :
  truthy_opt (ZUPLO_BASE_URL P) = true ->
  ensureIdempotency P key (stringifyUpgrade P payload agentId) s = (inr tt, s1) ->
  handleUpgradeAgent P agentId payload userId key s
  = handleUpgradeAgent P agentId payload userId None s1.
Proof.
  intros Hzuplo Hguard. unfold handleUpgradeAgent. rewrite Hzuplo. cbn [negb].
  unfold catch_handler. unfold bind at 1. rewrite Hguard.
  unfold bind at 2. reflexivity.
Qed.

(** Without a key, a request that leaves [dry_run] out and one that sets
    it are handled alike. *)
Lemma handleUpgradeAgent_flag (P : Platform) (agentId : string)
    (payload : UpgradeAgentInput) (userId : option string) (flag : option bool)
    (s : Store) :
  dry_run payload <> Some false -> flag <> Some false ->
  handleUpgradeAgent P agentId (with_dry_run flag payload) userId None s
  = handleUpgradeAgent P agentId payload userId None s.
Proof.
  intros Hp Hf. destruct payload as [tv ul ama dr uq].
  destruct dr as [[]|], flag as [[]|]; try done.
Qed.

(** C9. An upgrade request that does not ask for [dry_run = false], and so
    one that leaves [dry_run] out, never sends an update to the remote
    agent, enqueues nothing and leaves the stored instances (and their
    versions) unchanged. When it succeeds, the response is the dry-run
    response and it carries the plan that the planner builds from the
    stored version of the instance to the version of the resolved target,
    with the diff and the warnings of the dry run of that plan on the
    configuration fetched from the remote agent; the attempt is logged as
    a dry run. A request without [dry_run] is handled as the same request
    with [dry_run = true]: when its key is not recorded yet, both get the
    same response and leave the same store, up to the fingerprint recorded
    for the key; when its key is recorded, both are answered 409 and
    change nothing. *)
Theorem handleUpgradeAgent_dry_run_default (P : Platform) (agentId : string)
    (payload : UpgradeAgentInput) (userId key : option string) (s s' : Store)
    (r : Response) :
  dry_run payload <> Some false ->
  handleUpgradeAgent P agentId payload userId key s = (r, s') ->
  (agent_instances s' = agent_instances s
   /\ letta_updates s' = letta_updates s
   /\ upgrade_jobs s' = upgrade_jobs s)
  /\ (status r = OK ->
      exists agentRecord resolved raw plan currentConfig simulated,
        agent_instances s !! agentId = Some agentRecord
        /\ fst (resolveTemplateVersion P (ai_template_id agentRecord) (target_version payload)
                  (default true (use_latest payload)) s) = inr (resolved, raw)
        /\ buildMigrationPlan (ai_version agentRecord) (version (template resolved))
                              (default [] (migrations resolved)) = Some (inr plan)
        /\ lettaFetch P agentId = inr currentConfig
        /\ performDryRun P plan currentConfig (ai_user_id agentRecord) = inr simulated
        /\ r = jsonResponse (DryRunBody plan (diff simulated) (warnings simulated)) OK
        /\ agent_migrations s'
           = agent_migrations s
             ++ [attempt_of agentId agentRecord (version (template resolved)) true plan
                            simulated])
  /\ (forall flag, flag <> Some false ->
      ((forall k, key = Some k -> request_dedup s !! k = None) ->
       exists d, handleUpgradeAgent P agentId (with_dry_run flag payload) userId key s
                 = (r, set_request_dedup (fun _ => d) s'))
      /\ (forall k c, key = Some k -> truthy k = true -> request_dedup s !! k = Some c ->
          truthy_opt (ZUPLO_BASE_URL P) = true ->
          status r = Conflict /\ s' = s
          /\ status (fst (handleUpgradeAgent P agentId (with_dry_run flag payload)
                                             userId key s)) = Conflict
          /\ snd (handleUpgradeAgent P agentId (with_dry_run flag payload) userId key s) = s)).
Proof.
  intros Hflag Hrun.
  assert (Hdry : default true (dry_run payload) = true).
  { destruct (dry_run payload) as [[]|]; done. }
  destruct (truthy_opt (ZUPLO_BASE_URL P)) eqn:Hzuplo.
  2:{ assert (Hany : forall p, handleUpgradeAgent P agentId p userId key s
                               = (jsonResponse (ErrorBody (Some "Missing Zuplo base URL"))
                                               InternalServerError, s)).
      { intros p. unfold handleUpgradeAgent. by rewrite Hzuplo. }
      rewrite Hany in Hrun. injection Hrun as <- <-.
      split; [done|]. split; [done|]. intros flag Hf. split; [|done].
      intros _. exists (request_dedup s). rewrite Hany. by destruct s. }
  split; [|split].
  - apply handleUpgradeAgent_cases in Hrun as [(msg & _ & -> & ->)|(d & _ & Hout)];
      [done| |done].
    inversion Hout; subst; try done; congruence.
  - intros Hok.
    destruct (handleUpgradeAgent_success P agentId payload userId key s s' r Hzuplo Hrun Hok)
      as (d & agentRecord & resolved & raw & plan & currentConfig & dr
          & Hrec & _ & Hres & Hplan & Hfetch & Hsim & Hcase).
    exists agentRecord, resolved, raw, plan, currentConfig, dr.
    assert (Hres' : fst (resolveTemplateVersion P (ai_template_id agentRecord)
                           (target_version payload) (default true (use_latest payload)) s)
                    = inr (resolved, raw)).
    { assert (Hc : commutes (set_request_dedup (fun _ => d))
                     (resolveTemplateVersion P (ai_template_id agentRecord)
                        (target_version payload) (default true (use_latest payload)))).
      { unfold resolveTemplateVersion. commute. }
      rewrite Hc in Hres. by injection Hres. }
    destruct Hcase as [(_ & -> & ->)|[(Hf & _)|(Hf & _)]]; [|congruence..].
    repeat split; done.
  - intros flag Hf. split.
    + intros Hfresh.
      destruct (ensureIdempotency_passes P key (stringifyUpgrade P payload agentId) s Hfresh)
        as [d0 Hg0].
      destruct (ensureIdempotency_passes P key
                  (stringifyUpgrade P (with_dry_run flag payload) agentId) s Hfresh)
        as [d1 Hg1].
      rewrite (handleUpgradeAgent_past_guard P agentId payload userId key s _ Hzuplo Hg0),
        handleUpgradeAgent_dedup in Hrun.
      rewrite (handleUpgradeAgent_past_guard P agentId _ userId key s _ Hzuplo Hg1),
        handleUpgradeAgent_dedup.
      rewrite (handleUpgradeAgent_flag P agentId payload userId flag s Hflag Hf).
      injection Hrun as <- <-. by exists d1.
    + intros k c -> Hk Hknown _.
      assert (Hany : forall p, exists msg,
                handleUpgradeAgent P agentId p userId (Some k) s
                = (jsonResponse (ErrorBody (Some msg)) Conflict, s)).
      { intros p. unfold handleUpgradeAgent, catch_handler. rewrite Hzuplo. cbn [negb].
        unfold bind at 1.
        rewrite (ensureIdempotency_known P k _ c s Hk Hknown).
        destruct (String.eqb c _); eexists; reflexivity. }
      destruct (Hany payload) as [msg Hp]. rewrite Hp in Hrun. injection Hrun as <- <-.
      destruct (Hany (with_dry_run flag payload)) as [msg' ->]. done.
Qed.

(** C9 (witness). The upgrade of the sample agent with [dry_run] left out,
    sent with a key. *)
Lemma handleUpgradeAgent_dry_run_default_witness :
  let run := handleUpgradeAgent samplePlatform "agent-1" sample_dry_request
                                (Some sample_user) (Some "upgrade-1") sample_store in
  dry_run sample_dry_request <> Some false
  /\ (agent_instances (snd run) = agent_instances sample_store
      /\ letta_updates (snd run) = letta_updates sample_store
      /\ upgrade_jobs (snd run) = upgrade_jobs sample_store)
  /\ (exists agentRecord resolved raw plan currentConfig simulated,
        agent_instances sample_store !! "agent-1" = Some agentRecord
        /\ fst (resolveTemplateVersion samplePlatform (ai_template_id agentRecord)
                  (target_version sample_dry_request)
                  (default true (use_latest sample_dry_request)) sample_store)
           = inr (resolved, raw)
        /\ buildMigrationPlan (ai_version agentRecord) (version (template resolved))
                              (default [] (migrations resolved)) = Some (inr plan)
        /\ lettaFetch samplePlatform "agent-1" = inr currentConfig
        /\ performDryRun samplePlatform plan currentConfig (ai_user_id agentRecord)
           = inr simulated
        /\ fst run = jsonResponse (DryRunBody plan (diff simulated) (warnings simulated)) OK
        /\ agent_migrations (snd run)
           = agent_migrations sample_store
             ++ [attempt_of "agent-1" agentRecord (version (template resolved)) true plan
                            simulated])
  /\ exists d,
      handleUpgradeAgent samplePlatform "agent-1" (with_dry_run (Some true) sample_dry_request)
                         (Some sample_user) (Some "upgrade-1") sample_store
      = (fst run, set_request_dedup (fun _ => d) (snd run)).
Proof.
  intros run.
  assert (Hflag : dry_run sample_dry_request <> Some false) by discriminate.
  split; [exact Hflag|].
  destruct (handleUpgradeAgent_dry_run_default samplePlatform "agent-1" sample_dry_request
              (Some sample_user) (Some "upgrade-1") sample_store (snd run) (fst run) Hflag)
    as (Hframe & Hbody & Hsame).
  - apply surjective_pairing.
  - split; [exact Hframe|]. split; [apply Hbody; vm_compute; reflexivity|].
    apply (proj1 (Hsame (Some true) ltac:(discriminate))).
    intros k _. reflexivity.
Defined.

(** ** The guard runs before the operation *)

Lemma ensureIdempotency_retry (P : Platform) (k source : string) (s : Store) :
  truthy k = true ->
  request_dedup s !! k = Some (sha256 P source) ->
  ensureIdempotency P (Some k) source s = (inl duplicate_request, s).
Proof.
  intros Hk Hknown. rewrite (ensureIdempotency_known P k source _ s Hk Hknown).
  by rewrite String.eqb_refl.
Qed.

Lemma handlePublishTemplate_retry (P : Platform) (k rawBody : string) (s : Store)
    (agentFile : AgentFile) (format : Format) :
  truthy k = true ->
  parseAgentFile P rawBody = inr (rawBody, agentFile, format) ->
  request_dedup s !! k = Some (sha256 P rawBody) ->
  handlePublishTemplate P rawBody (Some k) s = (duplicate_response, s).
Proof.
  intros Hk Hparse Hknown.
  by rewrite handlePublishTemplate_run, Hparse, (ensureIdempotency_retry P k rawBody s Hk Hknown).
Qed.

Lemma handleUpgradeAgent_retry (P : Platform) (k agentId : string) (payload : UpgradeAgentInput)
    (userId : option string) (s : Store) :
  truthy k = true ->
  truthy_opt (ZUPLO_BASE_URL P) = true ->
  request_dedup s !! k = Some (sha256 P (stringifyUpgrade P payload agentId)) ->
  handleUpgradeAgent P agentId payload userId (Some k) s = (duplicate_response, s).
Proof.
  intros Hk Hzuplo Hknown. unfold handleUpgradeAgent, catch_handler. rewrite Hzuplo. cbn [negb].
  unfold bind at 1. by rewrite (ensureIdempotency_retry P k _ s Hk Hknown).
Qed.

Lemma handleCreateAgent_retry (P : Platform) (k userId : string) (payload : CreateAgentInput)
    (s : Store) :
  truthy k = true ->
  truthy_opt (ZUPLO_BASE_URL P) = true ->
  request_dedup s !! k = Some (sha256 P (stringifyCreate P payload userId)) ->
  handleCreateAgent P payload userId (Some k) s = (duplicate_response, s).
Proof.
  intros Hk Hzuplo Hknown. unfold handleCreateAgent, catch_handler. rewrite Hzuplo. cbn [negb].
  unfold bind at 1. by rewrite (ensureIdempotency_retry P k _ s Hk Hknown).
Qed.

Lemma handlePublishTemplate_records (P : Platform) (k rawBody : string) (s s' : Store)
    (r : Response) (agentFile : AgentFile) (format : Format) :
  truthy k = true ->
  request_dedup s !! k = None ->
  parseAgentFile P rawBody = inr (rawBody, agentFile, format) ->
  handlePublishTemplate P rawBody (Some k) s = (r, s') ->
  request_dedup s' = <[k := sha256 P rawBody]> (request_dedup s)
  /\ (status r = BadRequest ->
      af_versions s' = af_versions s /\ af_templates s' = af_templates s
      /\ af_cache s' = af_cache s).
Proof.
  intros Hk Hfresh Hparse.
  rewrite handlePublishTemplate_run, Hparse, (ensureIdempotency_fresh P k rawBody s Hk Hfresh).
  cbv zeta.
  destruct (negb (valid (validateAgentFile agentFile))); [by intros [= <- <-]|].
  destruct (assessSemver _ _) as [e|a]; [destruct e; by intros [= <- <-]|].
  destruct (negb (allowed a)); by intros [= <- <-].
Qed.

Lemma handleUpgradeAgent_records (P : Platform) (k agentId : string)
    (payload : UpgradeAgentInput) (userId : option string) (s s' : Store) (r : Response) :
  truthy k = true ->
  truthy_opt (ZUPLO_BASE_URL P) = true ->
  request_dedup s !! k = None ->
  handleUpgradeAgent P agentId payload userId (Some k) s = (r, s') ->
  request_dedup s' = <[k := sha256 P (stringifyUpgrade P payload agentId)]> (request_dedup s).
Proof.
  intros Hk Hzuplo Hfresh Hrun.
  apply handleUpgradeAgent_cases in Hrun as [(msg & Hguard & _)|(d & Hguard & Hout)];
    [| |done]; rewrite (ensureIdempotency_fresh P k _ s Hk Hfresh) in Hguard; [done|].
  injection Hguard as <-.
  by inversion Hout.
Qed.

Lemma createLettaAgent_store (P : Platform) (config : Config) (s : Store) :
  snd (createLettaAgent P config s) = s.
Proof. unfold createLettaAgent, throw, lift. by destruct (negb _). Qed.

Lemma handleCreateAgent_records (P : Platform) (k userId : string)
    (payload : CreateAgentInput) (s s' : Store) (r : Response) :
  truthy k = true ->
  truthy_opt (ZUPLO_BASE_URL P) = true ->
  request_dedup s !! k = None ->
  handleCreateAgent P payload userId (Some k) s = (r, s') ->
  request_dedup s' = <[k := sha256 P (stringifyCreate P payload userId)]> (request_dedup s).
Proof.
  intros Hk Hzuplo Hfresh. unfold handleCreateAgent, catch_handler. rewrite Hzuplo. cbn [negb].
  unfold bind at 1. rewrite (ensureIdempotency_fresh P k _ s Hk Hfresh).
  set (s1 := set_request_dedup _ s).
  unfold bind at 1.
  pose proof (resolveTemplateVersion_store P (ci_template_id payload) (ci_version payload)
                (default false (ci_use_latest payload)) s1) as Hres.
  destruct (resolveTemplateVersion _ _ _ _ s1) as [[e|[resolved raw]] s1'].
  all: simpl in Hres; subst s1'.
  { by intros [= <- <-]. }
  unfold bind at 1. unfold lift at 1.
  destruct (validateTemplateVariables _ _ _) as [e|[]]; [by intros [= <- <-]|].
  unfold bind at 1. unfold lift at 1.
  destruct (buildAgentConfigFromTemplate _ _ _) as [e|config0]; [by intros [= <- <-]|].
  unfold bind at 1.
  match goal with |- context [createLettaAgent P ?c s1] =>
    pose proof (createLettaAgent_store P c s1) as Hcreate;
    destruct (createLettaAgent P c s1) as [[e|[newId agent]] s1'] end.
  all: simpl in Hcreate; subst s1'.
  { by intros [= <- <-]. }
  unfold upsertUserProfileAgent. unfold bind, modify, gets, ret, throw. cbv beta iota.
  match goal with
  | |- context [user_profiles ?x !! userId] => destruct (user_profiles x !! userId)
  end;
    (match goal with
     | |- context [bound_elsewhere ?u ?a ?m] => destruct (bound_elsewhere u a m)
     end; [by intros [= <- <-]|]);
    [by intros [= <- <-]|].
  destruct (negb _); by intros [= <- <-].
Qed.

Lemma handlePublishTemplate_bad_request (P : Platform) (rawBody : string)
    (key : option string) (s s' : Store) (r : Response) :
  handlePublishTemplate P rawBody key s = (r, s') ->
  status r = BadRequest ->
  exists agentFile format, parseAgentFile P rawBody = inr (rawBody, agentFile, format).
Proof.
  rewrite handlePublishTemplate_run.
  destruct (parseAgentFile P rawBody) as [e|[[raw agentFile] format]] eqn:Hparse.
  - intros [= <- <-]. by destruct e.
  - apply parseAgentFile_raw in Hparse as ->. eauto.
Qed.

(** C10. The guard records the key before the operation is validated or
    carried out. A keyed publish that is answered as a bad request, which
    is how a failed validation and a rejection by the SemVer gate are
    answered, has changed no template, version or cache entry, yet it has
    recorded its key, and the same request sent again is answered as a
    duplicate request. The create and upgrade handlers record the key
    before anything else as well: whatever the first answer was, the same
    request sent again is answered as a duplicate request. *)
Theorem guard_precedes_validation (P : Platform) (k : string) :
  truthy k = true ->
  (forall rawBody s r1 s1,
      request_dedup s !! k = None ->
      handlePublishTemplate P rawBody (Some k) s = (r1, s1) ->
      status r1 = BadRequest ->
      (af_versions s1 = af_versions s /\ af_templates s1 = af_templates s
       /\ af_cache s1 = af_cache s)
      /\ request_dedup s1 = <[k := sha256 P rawBody]> (request_dedup s)
      /\ handlePublishTemplate P rawBody (Some k) s1 = (duplicate_response, s1))
  /\ (truthy_opt (ZUPLO_BASE_URL P) = true ->
      (forall payload userId s r1 s1,
          request_dedup s !! k = None ->
          handleCreateAgent P payload userId (Some k) s = (r1, s1) ->
          request_dedup s1
          = <[k := sha256 P (stringifyCreate P payload userId)]> (request_dedup s)
          /\ handleCreateAgent P payload userId (Some k) s1 = (duplicate_response, s1))
      /\ (forall agentId payload userId s r1 s1,
            request_dedup s !! k = None ->
            handleUpgradeAgent P agentId payload userId (Some k) s = (r1, s1) ->
            request_dedup s1
            = <[k := sha256 P (stringifyUpgrade P payload agentId)]> (request_dedup s)
            /\ handleUpgradeAgent P agentId payload userId (Some k) s1
               = (duplicate_response, s1))).
Proof.
  intros Hk. split; [|intros Hzuplo; split].
  - intros rawBody s r1 s1 Hfresh Hrun Hbad.
    destruct (handlePublishTemplate_bad_request _ _ _ _ _ _ Hrun Hbad)
      as (agentFile & format & Hparse).
    destruct (handlePublishTemplate_records _ _ _ _ _ _ _ _ Hk Hfresh Hparse Hrun)
      as [Hrec Hsame].
    split; [by apply Hsame|]. split; [done|].
    apply (handlePublishTemplate_retry P k rawBody s1 agentFile format Hk Hparse).
    rewrite Hrec. apply lookup_insert_eq.
  - intros payload userId s r1 s1 Hfresh Hrun.
    pose proof (handleCreateAgent_records _ _ _ _ _ _ _ Hk Hzuplo Hfresh Hrun) as Hrec.
    split; [done|]. apply (handleCreateAgent_retry P k userId payload s1 Hk Hzuplo).
    rewrite Hrec. apply lookup_insert_eq.
  - intros agentId payload userId s r1 s1 Hfresh Hrun.
    pose proof (handleUpgradeAgent_records _ _ _ _ _ _ _ _ Hk Hzuplo Hfresh Hrun) as Hrec.
    split; [done|]. apply (handleUpgradeAgent_retry P k agentId payload userId s1 Hk Hzuplo).
    rewrite Hrec. apply lookup_insert_eq.
Qed.

(** C10 (witness). A keyed publish of a template whose version is not valid
    SemVer, and its retry. *)
Lemma guard_precedes_validation_witness :
  let run := handlePublishTemplate samplePlatform "not-a-version" (Some "publish-1")
                                   empty_store in
  truthy "publish-1" = true
  /\ status (fst run) = BadRequest
  /\ (af_versions (snd run) = af_versions empty_store
      /\ af_templates (snd run) = af_templates empty_store
      /\ af_cache (snd run) = af_cache empty_store)
  /\ request_dedup (snd run)
     = <["publish-1" := sha256 samplePlatform "not-a-version"]> (request_dedup empty_store)
  /\ handlePublishTemplate samplePlatform "not-a-version" (Some "publish-1") (snd run)
     = (duplicate_response, snd run).
Proof.
  intros run.
  assert (Hk : truthy "publish-1" = true) by reflexivity.
  assert (Hbad : status (fst run) = BadRequest) by (vm_compute; reflexivity).
  split; [exact Hk|]. split; [exact Hbad|].
  apply (proj1 (guard_precedes_validation samplePlatform "publish-1" Hk)
           "not-a-version" empty_store (fst run) (snd run)).
  - reflexivity.
  - apply surjective_pairing.
  - exact Hbad.
Defined.

(** * Further properties *)

(** ** MigrationPlanner: the plan is the walk *)

Lemma walk_shift (migrations : list MigrationSpec) (a b : string) (n : nat) :
  walk migrations a n = Some b ->
  forall m, walk migrations a (n + m) = walk migrations b m.
Proof.
  intros Hn m. induction m as [|m IH].
  - by rewrite Nat.add_0_r.
  - rewrite Nat.add_succ_r. simpl. by rewrite IH.
Qed.

Lemma walk_steps_shift (migrations : list MigrationSpec) (a b : string) (n : nat) :
  walk migrations a n = Some b ->
  forall m, walk_steps migrations a (n + m)
            = walk_steps migrations a n ++ walk_steps migrations b m.
Proof.
  intros Hn m. induction m as [|m IH].
  - by rewrite Nat.add_0_r, app_nil_r.
  - rewrite Nat.add_succ_r. simpl. rewrite IH, (walk_shift _ _ _ _ Hn), app_assoc. done.
Qed.

Lemma walk_None_later (migrations : list MigrationSpec) (a : string) (n m : nat) :
  walk migrations a n = None -> n <= m -> walk migrations a m = None.
Proof.
  intros Hn Hle. induction Hle as [|m Hle IH]; [done|]. simpl. by rewrite IH.
Qed.

Lemma first_reached_unique (migrations : list MigrationSpec) (a b : string) (n m : nat) :
  first_reached migrations a b n -> first_reached migrations a b m -> n = m.
Proof.
  intros [Hn Hbefore] [Hm Hbefore'].
  destruct (Nat.lt_trichotomy n m) as [Hlt|[Heq|Hgt]]; [|done|].
  - by destruct (Hbefore' n Hlt).
  - by destruct (Hbefore m Hgt).
Qed.

(** A walk that comes back to a node never reaches anything new. *)
Lemma walk_cycle_closed (migrations : list MigrationSpec) (a v : string) (i j : nat) :
  i < j ->
  walk migrations a i = Some v -> walk migrations a j = Some v ->
  forall n, j <= n -> exists k, k < n /\ walk migrations a k = walk migrations a n.
Proof.
  intros Hij Hi Hj n Hn. exists (i + (n - j)). split; [lia|].
  rewrite (walk_shift _ _ _ _ Hi). replace n with (j + (n - j)) at 2 by lia.
  by rewrite (walk_shift _ _ _ _ Hj).
Qed.

(** What the loop returns when it returns steps: the steps so far, then
    those of the walk up to the first meeting with the target. *)
Lemma plan_loop_steps (currentVersion targetVersion : string)
    (migrations : list MigrationSpec) (fuel : nat) :
  forall n version guard steps,
    walk migrations currentVersion n = Some version ->
    (forall k, k < n -> walk migrations currentVersion k <> Some targetVersion) ->
    plan_loop fuel targetVersion migrations version guard
              (walk_steps migrations currentVersion n) = Some (inr steps) ->
    exists m, first_reached migrations currentVersion targetVersion m
              /\ steps = walk_steps migrations currentVersion m.
Proof.
  induction fuel as [|fuel IH]; intros n version guard steps Hwalk Hnot; simpl; [done|].
  destruct (String.eqb_spec version targetVersion) as [->|Hne].
  - intros [= <-]. exists n. by split.
  - case_bool_decide; [done|].
    destruct (find_first _ migrations) as [step|] eqn:Hfind; [|done].
    intros Hrun. apply (IH (S n) (mig_to step) ({[version]} ∪ guard) steps).
    + simpl. by rewrite Hwalk, Hfind.
    + intros k Hk. destruct (decide (k = n)) as [->|]; [rewrite Hwalk; congruence|].
      apply Hnot. lia.
    + simpl. rewrite Hwalk. unfold edge_steps. by rewrite Hfind.
Qed.

Lemma buildMigrationPlan_sound (currentVersion targetVersion : string)
    (migrations : list MigrationSpec) (steps : list MigrationStep) :
  buildMigrationPlan currentVersion targetVersion migrations = Some (inr steps) ->
  exists n, first_reached migrations currentVersion targetVersion n
            /\ steps = walk_steps migrations currentVersion n.
Proof.
  unfold buildMigrationPlan, buildMigrationPlan_fuel.
  destruct (String.eqb_spec currentVersion targetVersion) as [->|Hne].
  - intros [= <-]. exists 0. split; [split; [done | intros; lia] | done].
  - intros Hrun.
    apply (plan_loop_steps currentVersion targetVersion migrations
             (S (length migrations)) 0 currentVersion ∅);
      [done | intros; lia | done].
Qed.

Lemma buildMigrationPlan_complete (currentVersion targetVersion : string)
    (migrations : list MigrationSpec) (n : nat) :
  first_reached migrations currentVersion targetVersion n ->
  buildMigrationPlan currentVersion targetVersion migrations
  = Some (inr (walk_steps migrations currentVersion n)).
Proof.
  intros Hfirst.
  destruct (buildMigrationPlan_total currentVersion targetVersion migrations)
    as (r & Hr & Hout).
  rewrite Hr. f_equal.
  destruct Hout as [m steps Hm Hbefore|m version Hm Hnot Hnone|i j version Hij Hi Hj Hnot].
  - apply buildMigrationPlan_sound in Hr as (m' & Hfirst' & ->).
    by rewrite (first_reached_unique _ _ _ _ _ Hfirst Hfirst').
  - exfalso. destruct Hfirst as [Hn _].
    destruct (decide (n <= m)) as [Hle|Hgt]; [by apply (Hnot n)|].
    assert (walk migrations currentVersion (S m) = None) as Hend.
    { simpl. by rewrite Hm, Hnone. }
    rewrite (walk_None_later _ _ (S m) n Hend) in Hn by lia. done.
  - exfalso. destruct Hfirst as [Hn _].
    assert (Hall : forall k, walk migrations currentVersion k <> Some targetVersion).
    { intros k. induction k as [k IHk] using lt_wf_ind.
      destruct (decide (k <= j)) as [Hle|Hgt]; [by apply Hnot|].
      destruct (walk_cycle_closed _ _ _ _ _ Hij Hi Hj k) as (k' & Hk' & Heq); [lia|].
      rewrite <- Heq. by apply IHk. }
    by apply (Hall n).
Qed.

(** X1. The planner returns a step list exactly when following, from the
    current version, the first edge that leaves each node reaches the
    target, and the list is then the steps of the edges followed up to the
    first meeting with the target, in order. *)
Theorem buildMigrationPlan_follows_walk (currentVersion targetVersion : string)
    (migrations : list MigrationSpec) (steps : list MigrationStep) :
  buildMigrationPlan currentVersion targetVersion migrations = Some (inr steps)
  <-> exists n, first_reached migrations currentVersion targetVersion n
                /\ steps = walk_steps migrations currentVersion n.
Proof.
  split; [apply buildMigrationPlan_sound|].
  intros (n & Hfirst & ->). by apply buildMigrationPlan_complete.
Qed.

(** X2. Plans compose: when the plan from [a] to [b] and the plan from [b]
    to [c] exist and the walk from [a] does not meet [c] before [b], the
    plan from [a] to [c] is the first plan followed by the second. *)
Theorem buildMigrationPlan_compose (a b c : string) (migrations : list MigrationSpec)
    (steps1 steps2 : list MigrationStep) :
  buildMigrationPlan a b migrations = Some (inr steps1) ->
  buildMigrationPlan b c migrations = Some (inr steps2) ->
  (forall k, walk migrations a k = Some c ->
             exists j, j <= k /\ walk migrations a j = Some b) ->
  buildMigrationPlan a c migrations = Some (inr (steps1 ++ steps2)).
Proof.
  intros (n & [Hn Hbn] & ->)%buildMigrationPlan_sound
         (m & [Hm Hbm] & ->)%buildMigrationPlan_sound Hvia.
  rewrite <- (walk_steps_shift _ _ _ _ Hn).
  apply buildMigrationPlan_complete. split.
  - by rewrite (walk_shift _ _ _ _ Hn).
  - intros k Hk Hc. destruct (Hvia k Hc) as (j & Hj & Hb).
    assert (n <= j) as Hnj.
    { destruct (decide (n <= j)); [done|]. destruct (Hbn j); [lia | done]. }
    apply (Hbm (k - n)); [lia|].
    rewrite <- (walk_shift _ _ _ _ Hn). by replace (n + (k - n)) with k by lia.
Qed.

(** X2 (witness). The two edges of the sample chain. *)
Lemma buildMigrationPlan_compose_witness :
  buildMigrationPlan "1.0.0" "1.0.2" sample_chain
  = Some (inr (mig_steps (mkMigration "1.0.0" "1.0.1"
                            [mkStep json_patch None (Some sample_patch) None])
               ++ [mkStep script (Some "reindex memory") None
                          (Some (mkScript "js" "reindex()"))])).
Proof.
  apply (buildMigrationPlan_compose "1.0.0" "1.0.1" "1.0.2" sample_chain).
  - reflexivity.
  - reflexivity.
  - intros [|k] Hk; [discriminate|]. exists 1. split; [lia | reflexivity].
Defined.

Lemma find_first_app {A} (p : A -> bool) (l l' : list A) :
  find_first p (l ++ l')
  = match find_first p l with Some x => Some x | None => find_first p l' end.
Proof.
  induction l as [|x l IH]; simpl; [done|]. by destruct (p x).
Qed.

Lemma plan_loop_ext (targetVersion : string) (migrations migrations' : list MigrationSpec) :
  (forall v, find_first (fun m => String.eqb (mig_from m) v) migrations'
             = find_first (fun m => String.eqb (mig_from m) v) migrations) ->
  forall fuel version guard path,
    plan_loop fuel targetVersion migrations' version guard path
    = plan_loop fuel targetVersion migrations version guard path.
Proof.
  intros Hsame fuel. induction fuel as [|fuel IH]; intros version guard path; simpl; [done|].
  rewrite Hsame. destruct (String.eqb version targetVersion); [done|].
  case_bool_decide; [done|]. destruct (find_first _ migrations); [apply IH | done].
Qed.

(** X3. Of several edges that leave the same version only the first is
    ever used: an edge added after an edge with the same origin changes no
    plan. *)
Theorem buildMigrationPlan_first_edge_wins (currentVersion targetVersion : string)
    (migrations : list MigrationSpec) (extra : MigrationSpec) :
  In (mig_from extra) (List.map mig_from migrations) ->
  buildMigrationPlan currentVersion targetVersion (migrations ++ [extra])
  = buildMigrationPlan currentVersion targetVersion migrations.
Proof.
  intros Hin.
  assert (Hsame : forall v,
    find_first (fun m => String.eqb (mig_from m) v) (migrations ++ [extra])
    = find_first (fun m => String.eqb (mig_from m) v) migrations).
  { intros v. rewrite find_first_app.
    destruct (find_first _ migrations) as [m|] eqn:Hfind; [done|]. simpl.
    destruct (String.eqb_spec (mig_from extra) v) as [<-|]; [|done]. exfalso.
    apply in_map_iff in Hin as (m & Hfrom & Hm). clear -Hfind Hfrom Hm.
    induction migrations as [|x l IH]; simpl in *; [done|].
    destruct (String.eqb_spec (mig_from x) (mig_from extra)) as [|Hne]; [done|].
    destruct Hm as [->|Hm]; [congruence | by apply IH]. }
  destruct (buildMigrationPlan_total currentVersion targetVersion migrations)
    as (r & Hr & _).
  rewrite Hr. unfold buildMigrationPlan, buildMigrationPlan_fuel in *.
  destruct (String.eqb currentVersion targetVersion); [done|].
  rewrite (plan_loop_ext _ _ _ Hsame).
  apply (plan_loop_mono _ _ (S (length migrations))); [|done].
  rewrite length_app. simpl. lia.
Qed.

(** X3 (witness). A second edge from 1.0.0 added to the sample chain. *)
Lemma buildMigrationPlan_first_edge_wins_witness :
  buildMigrationPlan "1.0.0" "1.0.2" (sample_chain ++ [mkMigration "1.0.0" "1.0.2" []])
  = buildMigrationPlan "1.0.0" "1.0.2" sample_chain.
Proof.
  apply (buildMigrationPlan_first_edge_wins "1.0.0" "1.0.2" sample_chain).
  simpl. by left.
Defined.

(** ** DryRunEngine: endpoints, warnings, failures *)

Lemma dry_run_steps_warnings (P : Platform) (plan : list MigrationStep) :
  forall config ws config' ws',
    dry_run_steps P plan config ws = inr (config', ws') ->
    ws' = ws ++ script_warnings plan.
Proof.
  induction plan as [|step plan IH]; intros config ws config' ws'; simpl.
  - intros [= _ <-]. unfold script_warnings. simpl. by rewrite app_nil_r.
  - unfold script_warnings. simpl. destruct (step_type step).
    + destruct (applyPatch P config _) as [e|doc]; [done|]. apply IH.
    + intros Hrun. apply IH in Hrun as ->. simpl. by rewrite <- app_assoc.
Qed.

Lemma dry_run_steps_scripts (P : Platform) (plan : list MigrationStep) :
  forallb is_script plan = true ->
  forall config ws,
    dry_run_steps P plan config ws = inr (config, ws ++ script_warnings plan).
Proof.
  unfold is_script. induction plan as [|step plan IH]; intros Hall config ws; simpl.
  - unfold script_warnings. simpl. by rewrite app_nil_r.
  - simpl in Hall. apply andb_true_iff in Hall as [Hstep Hrest].
    unfold script_warnings. simpl. destruct (step_type step); [done|].
    rewrite (IH Hrest). simpl. by rewrite <- app_assoc.
Qed.

(** X4. Billing invariant of the dry run: whatever the plan does to the
    configuration, also when a patch writes the endpoint keys, the
    simulated configuration carries the billing endpoint of the instance's
    owner under both [model_endpoint] and [embedding_endpoint]. *)
Theorem performDryRun_forces_endpoints (P : Platform) (plan : list MigrationStep)
    (currentConfig : Config) (userId : string) (r : DryRunResult) :
  performDryRun P plan currentConfig userId = inr r ->
  updatedConfig r !! "model_endpoint" = Some (JStr (billing_endpoint P userId))
  /\ updatedConfig r !! "embedding_endpoint" = Some (JStr (billing_endpoint P userId)).
Proof.
  intros (config & ws & _ & ->)%performDryRun_inr. simpl. split.
  - rewrite lookup_insert_ne by done. apply lookup_insert_eq.
  - apply lookup_insert_eq.
Qed.

(** X4 (witness). The sample plan on the sample configuration. *)
Lemma performDryRun_forces_endpoints_witness :
  exists r,
    performDryRun samplePlatform sample_plan sampleConfig sample_user = inr r
    /\ updatedConfig r !! "model_endpoint"
       = Some (JStr (billing_endpoint samplePlatform sample_user))
    /\ updatedConfig r !! "embedding_endpoint"
       = Some (JStr (billing_endpoint samplePlatform sample_user)).
Proof.
  eexists. split; [reflexivity|].
  apply (performDryRun_forces_endpoints samplePlatform sample_plan sampleConfig sample_user).
  reflexivity.
Defined.

(** X5. The warnings of a dry run are one message per script step of the
    plan, in plan order, each with the description of the step or
    [no description]; patch steps add none. *)
Theorem performDryRun_warnings (P : Platform) (plan : list MigrationStep)
    (currentConfig : Config) (userId : string) (r : DryRunResult) :
  performDryRun P plan currentConfig userId = inr r ->
  warnings r = script_warnings plan.
Proof.
  intros (config & ws & Hrun & ->)%performDryRun_inr. simpl.
  by apply dry_run_steps_warnings in Hrun.
Qed.

(** X5 (witness). A plan of two script steps. *)
Lemma performDryRun_warnings_witness :
  exists r,
    performDryRun samplePlatform sample_script_plan sampleConfig sample_user = inr r
    /\ warnings r = ["Script step executed in dry-run only: reindex memory";
                     "Script step executed in dry-run only: no description"].
Proof.
  eexists. split; [reflexivity|].
  apply (performDryRun_warnings samplePlatform sample_script_plan sampleConfig sample_user).
  reflexivity.
Defined.

(** X6. Script steps are never executed: a plan without patch steps always
    simulates successfully, without a call to the patch library, and the
    simulated configuration is the current one with the two endpoints
    forced. *)
Theorem performDryRun_scripts_only (P : Platform) (plan : list MigrationStep)
    (currentConfig : Config) (userId : string) :
  forallb is_script plan = true ->
  performDryRun P plan currentConfig userId
  = inr (mkDryRun (override_entries P userId) (script_warnings plan)
                  (force_endpoints P userId currentConfig)).
Proof.
  intros Hall. unfold performDryRun.
  by rewrite (dry_run_steps_scripts P plan Hall currentConfig []).
Qed.

(** X6 (witness). The plan of two script steps. *)
Lemma performDryRun_scripts_only_witness :
  performDryRun refusingPlatform sample_script_plan sampleConfig sample_user
  = inr (mkDryRun (override_entries refusingPlatform sample_user)
                  (script_warnings sample_script_plan)
                  (force_endpoints refusingPlatform sample_user sampleConfig)).
Proof.
  apply (performDryRun_scripts_only refusingPlatform sample_script_plan).
  reflexivity.
Defined.

(** ** Validation *)

Lemma is_nil_app {A} (l l' : list A) : is_nil (l ++ l') = is_nil l && is_nil l'.
Proof. by destruct l. Qed.

Lemma is_nil_guard {A} (c : bool) (x : A) : is_nil (if c then [x] else []) = negb c.
Proof. by destruct c. Qed.

Lemma is_nil_concat {A B} (f : A -> list B) (l : list A) :
  is_nil (concat (List.map f l)) = forallb (fun x => is_nil (f x)) l.
Proof.
  induction l as [|x l IH]; simpl; [done|]. by rewrite is_nil_app, IH.
Qed.

Lemma forallb_ext_eq {A} (f g : A -> bool) (l : list A) :
  (forall x, f x = g x) -> forallb f l = forallb g l.
Proof. intros H. induction l as [|x l IH]; simpl; [done|]. by rewrite H, IH. Qed.

Lemma validateStep_nil (migration : MigrationSpec) (step : MigrationStep) :
  is_nil (validateStep migration step) = step_well_formed step.
Proof.
  unfold validateStep, step_well_formed. destruct (step_type step).
  - by destruct (step_patch step).
  - by destruct (truthy_opt _).
Qed.

Lemma validateMigration_nil (migration : MigrationSpec) :
  is_nil (validateMigration migration) = migration_well_formed migration.
Proof.
  unfold validateMigration, migration_well_formed.
  rewrite is_nil_app, is_nil_guard, is_nil_concat.
  rewrite (forallb_ext_eq _ step_well_formed) by apply validateStep_nil.
  by destruct (truthy (mig_from migration)), (truthy (mig_to migration)).
Qed.

Lemma semver_valid_truthy (v : string) : Semver.valid v = true -> truthy v = true.
Proof. destruct v; [|done]. vm_compute. discriminate. Qed.

Lemma validateAgentFile_valid (agentFile : AgentFile) :
  valid (validateAgentFile agentFile) = agent_file_well_formed agentFile.
Proof.
  unfold validateAgentFile, agent_file_well_formed. cbn [valid].
  change (match ?l with [] => true | _ :: _ => false end) with (is_nil l).
  rewrite !is_nil_app, !is_nil_guard, !negb_involutive.
  assert (Hm : is_nil match migrations agentFile with
                      | Some ms => concat (List.map validateMigration ms)
                      | None => []
                      end
               = forallb migration_well_formed (default [] (migrations agentFile))).
  { destruct (migrations agentFile) as [ms|]; [|done]. simpl. rewrite is_nil_concat.
    apply forallb_ext_eq, validateMigration_nil. }
  rewrite Hm.
  destruct (Semver.valid (version (template agentFile))) eqn:Hv.
  - rewrite (semver_valid_truthy _ Hv). simpl. rewrite !andb_true_r.
    by destruct (truthy (af_version agentFile)), (truthy (id (template agentFile))),
         (truthy (system_prompt (persona agentFile))), (truthy (model (engine agentFile))),
         (truthy (embedding (engine agentFile))).
  - simpl. rewrite !andb_false_r.
    destruct (truthy (version (template agentFile))); simpl;
      by rewrite ?andb_false_r, ?andb_false_l.
Qed.

(** X8. [validateAgentFile] accepts exactly the files in which
    [af_version], [template.id], [persona.system_prompt], [engine.model]
    and [engine.embedding] are non-empty, [template.version] is valid
    SemVer, and every declared migration has non-empty [from] and [to], a
    patch in each patch step and code in each script step. *)
Theorem validateAgentFile_accepts (agentFile : AgentFile) :
  valid (validateAgentFile agentFile) = true
  <-> truthy (af_version agentFile) = true
      /\ truthy (id (template agentFile)) = true
      /\ truthy (system_prompt (persona agentFile)) = true
      /\ truthy (model (engine agentFile)) = true
      /\ truthy (embedding (engine agentFile)) = true
      /\ Semver.valid (version (template agentFile)) = true
      /\ forall migration, In migration (default [] (migrations agentFile)) ->
           truthy (mig_from migration) = true
           /\ truthy (mig_to migration) = true
           /\ forall step, In step (mig_steps migration) -> step_well_formed step = true.
Proof.
  rewrite validateAgentFile_valid. unfold agent_file_well_formed.
  rewrite !andb_true_iff, forallb_forall. split.
  - intros [[[[[[? ?] ?] ?] ?] ?] Hm]. repeat (split; [done|]).
    intros migration Hin. specialize (Hm migration Hin).
    unfold migration_well_formed in Hm.
    rewrite !andb_true_iff, forallb_forall in Hm. destruct Hm as [[? ?] Hs]. auto.
  - intros (? & ? & ? & ? & ? & ? & Hm). repeat split; try done.
    intros migration Hin. destruct (Hm migration Hin) as (? & ? & Hs).
    unfold migration_well_formed. rewrite !andb_true_iff, forallb_forall. auto.
Qed.

Lemma has_property_spec (P : Platform) (object : Config) (key : string) :
  has_property P object key = true
  <-> is_Some (object !! key) \/ In key object_prototype_keys
      \/ (legacy_proto P = true /\ key = "__proto__").
Proof.
  unfold has_property.
  rewrite !orb_true_iff, andb_true_iff, bool_decide_eq_true, includes_In, String.eqb_eq.
  tauto.
Qed.

(** X9. [validateTemplateVariables] succeeds exactly when every variable
    that the template's schema requires is a property of the supplied
    variables object: a key of the object itself, or one of the names that
    every object inherits from [Object.prototype], such as [constructor]
    or [toString], for which the check passes although the variable is
    not supplied ([__proto__] is among them where the runtime keeps that
    accessor). A template without schema or without a [required] list
    requires none. *)
Theorem validateTemplateVariables_accepts (P : Platform) (agentFile : AgentFile)
    (variables : Config) :
  validateTemplateVariables P agentFile variables = inr tt
  <-> forall key, In key (required_variables agentFile) ->
        is_Some (variables !! key) \/ In key object_prototype_keys
        \/ (legacy_proto P = true /\ key = "__proto__").
Proof.
  unfold validateTemplateVariables, required_variables.
  destruct (variables_schema (persona agentFile)) as [schema|]; [|by split].
  destruct (required schema) as [req|]; [|by split]. simpl.
  split.
  - intros Hok key Hin. apply has_property_spec.
    destruct (List.filter _ req) as [|k l] eqn:Hmissing; [|done].
    destruct (has_property P variables key) eqn:Hkey; [done|].
    assert (In key (List.filter (fun key => negb (has_property P variables key)) req)) as Hk.
    { apply filter_In. split; [done|]. by rewrite Hkey. }
    rewrite Hmissing in Hk. destruct Hk.
  - intros Hall. rewrite filter_none; [done|].
    intros key Hin. by rewrite (proj2 (has_property_spec P variables key) (Hall key Hin)).
Qed.

(** X10. The validate endpoint and the publish endpoint agree, whatever
    the idempotency key of the publish. A body that cannot be parsed is
    answered 400 by validate and 500 by publish with the same message, and
    publish leaves the store as it is. A body that validate reports as
    invalid is answered by publish, when the idempotency guard lets the
    request pass, with the same error list and status 400, and nothing
    but the idempotency record of the request is stored; when the guard
    stops the request, publish answers 409 and stores nothing. A body
    reported valid is never answered by publish as a validation
    failure. *)
Theorem handleValidateTemplate_agrees_with_publish (P : Platform) (rawBody : string)
    (key : option string) (s : Store) :
  match handleValidateTemplate P rawBody with
  | (st, ValidationError msg) =>
      st = BadRequest
      /\ exists e,
          parseAgentFile P rawBody = inl e /\ msg = exn_message e
          /\ handlePublishTemplate P rawBody key s = (error_response e, s)
  | (st, ValidationReport format validation) =>
      st = OK
      /\ if valid validation then
           forall details, body (fst (handlePublishTemplate P rawBody key s))
                           <> ValidationFailedBody details
         else
           (exists d,
               ensureIdempotency P key rawBody s = (inr tt, set_request_dedup (fun _ => d) s)
               /\ handlePublishTemplate P rawBody key s
                  = (jsonResponse (ValidationFailedBody (errors validation)) BadRequest,
                     set_request_dedup (fun _ => d) s))
           \/ (exists msg,
                  ensureIdempotency P key rawBody s = (inl (IdempotencyError msg), s)
                  /\ handlePublishTemplate P rawBody key s
                     = (jsonResponse (ErrorBody (Some msg)) Conflict, s))
  end.
Proof.
  unfold handleValidateTemplate. rewrite handlePublishTemplate_run.
  destruct (parseAgentFile P rawBody) as [e|[[raw agentFile] format]] eqn:Hparse.
  - split; [done|]. by exists e.
  - split; [done|].
    destruct (ensureIdempotency_store P key rawBody s) as [[msg He]|[d [Hd _]]];
      rewrite ?He, ?Hd.
    + destruct (valid (validateAgentFile agentFile)); [done|]. right. by exists msg.
    + cbv zeta.
      destruct (valid (validateAgentFile agentFile)) eqn:Hvalid; cbn [negb].
      * intros details.
        destruct (assessSemver _ _) as [e|a]; [by destruct e|].
        by destruct (negb (allowed a)).
      * left. by exists d.
Qed.

(** ** VersionStore: what a publish leaves behind *)

Lemma handlePublishTemplate_success (P : Platform) (rawBody : string) (key : option string)
    (s s' : Store) (r : Response) :
  handlePublishTemplate P rawBody key s = (r, s') ->
  status r = OK ->
  exists agentFile format d a,
    let templateId := id (template agentFile) in
    let version := version (template agentFile) in
    parseAgentFile P rawBody = inr (rawBody, agentFile, format)
    /\ valid (validateAgentFile agentFile) = true
    /\ assessSemver version (selectVersions templateId s) = inr a
    /\ allowed a = true
    /\ existsb (same_version templateId version) (af_versions s) = false
    /\ r = jsonResponse (PublishBody format
               (mkPublishResponse templateId version (sha256 P rawBody) true)) OK
    /\ s' = set_af_cache (insert (templateId +:+ "/" +:+ version +:+ ".af") rawBody)
              (set_af_versions
                 (fun rows => resetLatest templateId version
                    (rows ++ [mkVersionRow templateId version rawBody
                                           (sha256 P rawBody) true]))
                 (set_af_templates (fun t => {[templateId]} ∪ t)
                    (set_request_dedup (fun _ => d) s))).
Proof.
  rewrite handlePublishTemplate_run.
  destruct (parseAgentFile P rawBody) as [e|[[raw agentFile] format]] eqn:Hparse.
  { intros [= <- <-]. by destruct e. }
  apply parseAgentFile_raw in Hparse as Hraw. subst raw.
  destruct (ensureIdempotency_store P key rawBody s) as [[e He]|[d [Hd _]]]; rewrite ?He, ?Hd.
  { by intros [= <- <-]. }
  destruct (valid (validateAgentFile agentFile)) eqn:Hvalid; cbn [negb];
    [|by intros [= <- <-]].
  cbv zeta.
  destruct (assessSemver _ _) as [e|a] eqn:Hassess; [intros [= <- <-]; by destruct e|].
  destruct (allowed a) eqn:Hallowed; cbn [negb]; [|by intros [= <- <-]].
  intros [= <- <-] _. exists agentFile, format, d, a. cbv zeta.
  repeat split; try done.
  pose proof (assessSemver_allowed_fresh _ _ _ Hassess Hallowed) as Hfresh.
  by rewrite selectVersions_includes in Hfresh.
Qed.

Lemma resetLatest_content (templateId version : string) (rows : list VersionRow) :
  List.map row_content (resetLatest templateId version rows) = List.map row_content rows.
Proof.
  unfold resetLatest. rewrite List.map_map. apply map_ext. intros r.
  by destruct (String.eqb (vr_template_id r) templateId && _).
Qed.

Lemma resetLatest_filter_key (templateId version : string) (rows : list VersionRow) :
  List.filter (same_version templateId version) (resetLatest templateId version rows)
  = List.filter (same_version templateId version) rows.
Proof.
  unfold resetLatest, same_version. induction rows as [|r rows IH]; simpl; [done|].
  destruct (String.eqb (vr_template_id r) templateId) eqn:Et;
    destruct (String.eqb (vr_version r) version) eqn:Ev; simpl;
    rewrite ?Et, ?Ev; simpl; by rewrite IH.
Qed.

Lemma filter_same_version_none (templateId version : string) (rows : list VersionRow) :
  existsb (same_version templateId version) rows = false ->
  List.filter (same_version templateId version) rows = [].
Proof.
  intros Hnone. apply filter_none. intros r Hr.
  destruct (same_version templateId version r) eqn:E; [|done].
  assert (existsb (same_version templateId version) rows = true)
    by (apply existsb_exists; eauto).
  congruence.
Qed.

(** X11. Publish and resolve round trip: after a successful publish of a
    body, resolving its template by the published version (with or
    without [use_latest]) and resolving it by [use_latest] alone both
    return the published agent file with the published body, and the body
    is mirrored in the cache under [template_id/version.af]. *)
Theorem publish_then_resolve (P : Platform) (rawBody : string) (key : option string)
    (s s' : Store) (r : Response) :
  handlePublishTemplate P rawBody key s = (r, s') ->
  status r = OK ->
  exists agentFile format,
    let templateId := id (template agentFile) in
    let version := version (template agentFile) in
    parseAgentFile P rawBody = inr (rawBody, agentFile, format)
    /\ (forall useLatest,
          resolveTemplateVersion P templateId (Some version) useLatest s'
          = (inr (agentFile, rawBody), s'))
    /\ resolveTemplateVersion P templateId None true s' = (inr (agentFile, rawBody), s')
    /\ af_cache s' !! (templateId +:+ "/" +:+ version +:+ ".af") = Some rawBody.
Proof.
  intros Hrun Hok.
  destruct (handlePublishTemplate_success _ _ _ _ _ _ Hrun Hok)
    as (agentFile & format & d & a & Hparse & Hvalid & _ & _ & Hfresh & _ & ->).
  exists agentFile, format. cbv zeta. split; [done|].
  set (t := id (template agentFile)) in *. set (v := version (template agentFile)) in *.
  assert (Hv : truthy v = true).
  { apply semver_valid_truthy.
    rewrite validateAgentFile_valid in Hvalid. unfold agent_file_well_formed in Hvalid.
    rewrite !andb_true_iff in Hvalid. tauto. }
  unfold resolveTemplateVersion, bind, gets, ret, lift, throw. simpl.
  split; [|split].
  - intros useLatest. rewrite Hv, filter_filter_and.
    change (fun x => String.eqb (vr_template_id x) t && String.eqb (vr_version x) v)
      with (same_version t v).
    rewrite resetLatest_filter_key, List.filter_app, (filter_same_version_none _ _ _ Hfresh).
    simpl. unfold same_version. simpl. rewrite !String.eqb_refl. simpl. by rewrite Hparse.
  - rewrite filter_filter_and, resetLatest_same, List.filter_app.
    rewrite (filter_none _ (af_versions s)).
    + simpl. unfold same_version. simpl. rewrite !String.eqb_refl. simpl. by rewrite Hparse.
    + intros x Hx. destruct (same_version t v x) eqn:E; [|done].
      assert (In x (List.filter (same_version t v) (af_versions s))) as Hin
        by (apply filter_In; auto).
      rewrite (filter_same_version_none _ _ _ Hfresh) in Hin. destruct Hin.
  - apply lookup_insert_eq.
Qed.

(** X11 (witness). The first publish on the empty store. *)
Lemma publish_then_resolve_witness :
  let run := handlePublishTemplate samplePlatform "1.0.0" None empty_store in
  status (fst run) = OK
  /\ exists agentFile format,
      parseAgentFile samplePlatform "1.0.0" = inr ("1.0.0", agentFile, format)
      /\ (forall useLatest,
            resolveTemplateVersion samplePlatform (id (template agentFile))
                                   (Some (version (template agentFile))) useLatest (snd run)
            = (inr (agentFile, "1.0.0"), snd run))
      /\ resolveTemplateVersion samplePlatform (id (template agentFile)) None true (snd run)
         = (inr (agentFile, "1.0.0"), snd run)
      /\ af_cache (snd run)
           !! (id (template agentFile) +:+ "/" +:+ version (template agentFile) +:+ ".af")
         = Some "1.0.0".
Proof.
  intros run.
  assert (Hok : status (fst run) = OK) by (vm_compute; reflexivity).
  split; [exact Hok|].
  apply (publish_then_resolve samplePlatform "1.0.0" None empty_store (snd run) (fst run)).
  - apply surjective_pairing.
  - exact Hok.
Defined.

Lemma assessSemver_valid_inr (nextVersion : string) (existing : list string) :
  Semver.valid nextVersion = true ->
  exists a, assessSemver nextVersion existing = inr a.
Proof.
  intros [x Hx]%valid_parse. unfold assessSemver.
  destruct (includes existing nextVersion); [eauto|].
  destruct (js_sort rcompare_total (List.filter Semver.valid existing)) as [|latest t] eqn:Hs;
    [eauto|].
  assert (Hin : In latest (List.filter Semver.valid existing)).
  { apply (js_sort_In rcompare_total). rewrite Hs. by left. }
  apply filter_In in Hin as [_ [y Hy]%valid_parse].
  rewrite (lt_of_compare _ _ _ _ Hx Hy). destruct (Semver.compareSemVer x y); eauto.
Qed.

(** Among safe versions, a version the gate lets through is not below any
    valid existing one. *)
Lemma assessSemver_allowed_highest (nextVersion : string) (existing : list string)
    (a : SemverAssessment) :
  safe_versions existing ->
  assessSemver nextVersion existing = inr a -> allowed a = true ->
  safe_version nextVersion = true ->
  forall e, In e existing -> Semver.valid e = true ->
            Semver.compare e nextVersion <> inr Gt.
Proof.
  pose proof cmp_order_precedence as Hc.
  intros Hsafe Hassess Hallowed (x & Hx & Sx)%safe_version_parse e He Hev.
  unfold assessSemver in Hassess.
  destruct (includes existing nextVersion); [by injection Hassess as <-|].
  pose proof (sorted_latest_is_max existing Hsafe) as Hmax.
  destruct (js_sort rcompare_total (List.filter Semver.valid existing)) as [|latest t].
  - by rewrite (Hmax e He) in Hev.
  - destruct Hmax as (Hlin & Hlv & Hmax). specialize (Hmax e He Hev).
    pose proof (Hsafe latest Hlin Hlv) as (y & Hy & Sy)%safe_version_parse.
    pose proof (Hsafe e He Hev) as (z & Hz & Sz)%safe_version_parse.
    unfold Semver.compare in *. rewrite Hz, Hy in Hmax. rewrite Hz, Hx.
    rewrite (compareSemVer_safe _ _ Sz Sy) in Hmax. rewrite (compareSemVer_safe _ _ Sz Sx).
    rewrite (lt_of_compare _ _ _ _ Hx Hy), (compareSemVer_safe _ _ Sx Sy) in Hassess.
    assert (precedence y x <> Gt) as Hyx.
    { rewrite (cmp_antisym _ Hc x y).
      destruct (precedence x y); simpl; try done.
      injection Hassess as <-. done. }
    intros [= Hgt]. apply (cmp_le_trans _ Hc z y x); congruence.
Qed.

Lemma in_resetLatest (templateId version : string) (rows : list VersionRow)
    (x : VersionRow) :
  In x (resetLatest templateId version rows) ->
  exists x0, In x0 rows /\ row_content x = row_content x0
             /\ (vr_is_latest x = true ->
                 vr_is_latest x0 = true
                 /\ (vr_template_id x0 = templateId -> vr_version x0 = version)).
Proof.
  unfold resetLatest. intros (x0 & <- & Hin)%in_map_iff. exists x0. split; [done|].
  destruct (String.eqb_spec (vr_template_id x0) templateId) as [Ht|Ht];
    destruct (String.eqb_spec (vr_version x0) version) as [Hv|Hv]; simpl; auto.
  all: split; [done|].
  - done.
  - intros ?. split; [done | congruence].
Qed.

(** X12. Stored versions are append-only: across any sequence of publish
    requests no row is removed and no template id, version, source or
    checksum of a stored row changes (only latest flags may); new rows are
    added at the end. *)
Theorem publish_all_append_only (P : Platform) (requests : list (string * option string))
    (s : Store) :
  exists added,
    List.map row_content (af_versions (publish_all P requests s))
    = List.map row_content (af_versions s) ++ added.
Proof.
  revert s. induction requests as [|[rawBody key] rest IH]; intros s; simpl.
  - exists []. by rewrite app_nil_r.
  - destruct (handlePublishTemplate P rawBody key s) as [r s1] eqn:Hrun. simpl.
    destruct (IH s1) as [added Hadded]. rewrite Hadded.
    apply handlePublishTemplate_cases in Hrun
      as [[_ [d ->]]|(agentFile & format & d & _ & _ & _ & _ & ->)]; [by exists added|].
    simpl. rewrite resetLatest_content, map_app, <- app_assoc. eauto.
Qed.

Lemma resetLatest_key (templateId version : string) (rows : list VersionRow) :
  List.map row_key (resetLatest templateId version rows) = List.map row_key rows.
Proof.
  unfold resetLatest. rewrite List.map_map. apply map_ext. intros r.
  by destruct (String.eqb (vr_template_id r) templateId && _).
Qed.

Lemma handlePublishTemplate_keys (P : Platform) (rawBody : string) (key : option string)
    (s : Store) :
  List.NoDup (List.map row_key (af_versions s)) ->
  List.NoDup (List.map row_key (af_versions (snd (handlePublishTemplate P rawBody key s)))).
Proof.
  intros Hnodup.
  destruct (handlePublishTemplate P rawBody key s) as [r s'] eqn:Hrun.
  apply handlePublishTemplate_cases in Hrun
    as [[_ [d ->]]|(agentFile & format & d & _ & _ & Hfresh & _ & ->)]; [done|].
  simpl. rewrite resetLatest_key, map_app. simpl.
  apply List.NoDup_app; [done | repeat constructor; by intros [] |].
  intros k Hk [<-|[]]. apply in_map_iff in Hk as (x & Hkey & Hx).
  assert (existsb (same_version (id (template agentFile)) (version (template agentFile)))
                  (af_versions s) = true); [|congruence].
  apply existsb_exists. exists x. split; [done|].
  unfold row_key in Hkey. injection Hkey as Ht Hv.
  unfold same_version. by rewrite Ht, Hv, !String.eqb_refl.
Qed.

(** X13. The primary key of [af_versions] is kept by the code itself: on a
    store in which no two rows share (template_id, version), no sequence
    of publish requests produces two rows with the same pair. *)
Theorem publish_all_unique_keys (P : Platform) (requests : list (string * option string))
    (s : Store) :
  List.NoDup (List.map row_key (af_versions s)) ->
  List.NoDup (List.map row_key (af_versions (publish_all P requests s))).
Proof.
  revert s. induction requests as [|[rawBody key] rest IH]; intros s Hnodup; simpl; [done|].
  apply IH. by apply handlePublishTemplate_keys.
Qed.

(** X13 (witness). Two publishes and a repeated one on the empty store. *)
Lemma publish_all_unique_keys_witness :
  List.NoDup (List.map row_key
    (af_versions (publish_all samplePlatform (sample_requests ++ [("1.0.0", None)])
                              empty_store))).
Proof.
  apply (publish_all_unique_keys samplePlatform (sample_requests ++ [("1.0.0", None)])
           empty_store).
  constructor.
Defined.

Lemma row_sound_content (P : Platform) (r r' : VersionRow) :
  row_content r = row_content r' -> row_sound P r -> row_sound P r'.
Proof.
  unfold row_content, row_sound. intros [= Ht Hv Hs Hc] (af & fmt & H).
  exists af, fmt. by rewrite <- Ht, <- Hv, <- Hs, <- Hc.
Qed.

Lemma handlePublishTemplate_sound_rows (P : Platform) (rawBody : string)
    (key : option string) (s : Store) :
  Forall (row_sound P) (af_versions s) ->
  Forall (row_sound P) (af_versions (snd (handlePublishTemplate P rawBody key s))).
Proof.
  intros Hall.
  destruct (handlePublishTemplate P rawBody key s) as [r s'] eqn:Hrun.
  apply handlePublishTemplate_cases in Hrun
    as [[_ [d ->]]|(agentFile & format & d & Hparse & Hvalid & _ & _ & ->)]; [done|].
  simpl. apply Forall_forall. intros x Hx%list_elem_of_In.
  apply in_resetLatest in Hx as (x0 & Hx0 & Hcontent & _).
  apply (row_sound_content P x0 x); [done|].
  apply in_app_or in Hx0 as [Hold|[<-|[]]].
  - rewrite Forall_forall in Hall. by apply Hall, list_elem_of_In.
  - by exists agentFile, format.
Qed.

(** X14. Every row that publish stores is sound: on a store whose rows
    all parse to a valid agent file carrying the row's template id and
    version, with the checksum being the hash of the stored source, every
    row still does after any sequence of publish requests. *)
Theorem publish_all_sound_rows (P : Platform) (requests : list (string * option string))
    (s : Store) :
  Forall (row_sound P) (af_versions s) ->
  Forall (row_sound P) (af_versions (publish_all P requests s)).
Proof.
  revert s. induction requests as [|[rawBody key] rest IH]; intros s Hall; simpl; [done|].
  apply IH. by apply handlePublishTemplate_sound_rows.
Qed.

(** X14 (witness). The sample publishes on the empty store. *)
Lemma publish_all_sound_rows_witness :
  Forall (row_sound samplePlatform)
         (af_versions (publish_all samplePlatform sample_requests empty_store)).
Proof.
  apply (publish_all_sound_rows samplePlatform sample_requests empty_store).
  apply Forall_nil_2.
Defined.

Lemma compareIdentifierLists_refl (p : list Semver.Identifier) :
  Semver.compareIdentifierLists p p = Eq.
Proof.
  induction p as [|a p IH]; simpl; [done|].
  by rewrite (proj2 (same_identifier_eq a a) eq_refl).
Qed.

Lemma compare_refl_valid (v : string) :
  Semver.valid v = true -> Semver.compare v v <> inr Gt.
Proof.
  intros [x Hx]%valid_parse. unfold Semver.compare. rewrite Hx.
  unfold Semver.compareSemVer, Semver.compareMain, Semver.comparePre.
  rewrite !N.compare_refl. cbn [Semver.or_else].
  destruct (Semver.prerelease x) as [|a p] eqn:Hp; [done|].
  by rewrite compareIdentifierLists_refl.
Qed.

Lemma selectVersions_In (templateId : string) (s : Store) (r : VersionRow) :
  In r (af_versions s) -> vr_template_id r = templateId ->
  In (vr_version r) (selectVersions templateId s).
Proof.
  intros Hin Ht. unfold selectVersions. apply in_map, filter_In. split; [done|].
  by rewrite Ht, String.eqb_refl.
Qed.

Lemma status_OK_or_not (r : Response) : status r = OK \/ status r <> OK.
Proof. destruct (status r); auto; by right. Qed.

Lemma valid_of_file (agentFile : AgentFile) :
  valid (validateAgentFile agentFile) = true ->
  Semver.valid (version (template agentFile)) = true.
Proof.
  intros Hfile. rewrite validateAgentFile_valid in Hfile.
  unfold agent_file_well_formed in Hfile. rewrite !andb_true_iff in Hfile. tauto.
Qed.

Lemma safe_versions_select (templateId : string) (s : Store) :
  (forall r, In r (af_versions s) -> safe_version (vr_version r) = true) ->
  safe_versions (selectVersions templateId s).
Proof.
  intros Hsafe e He _. unfold selectVersions in He.
  apply in_map_iff in He as (r & <- & [Hr _]%filter_In). by apply Hsafe.
Qed.

Lemma handlePublishTemplate_highest (P : Platform) (rawBody : string)
    (key : option string) (s : Store) :
  (forall agentFile format,
      parseAgentFile P rawBody = inr (rawBody, agentFile, format) ->
      Semver.valid (version (template agentFile)) = true ->
      safe_version (version (template agentFile)) = true) ->
  latest_is_highest s ->
  latest_is_highest (snd (handlePublishTemplate P rawBody key s)).
Proof.
  intros Hbody [Hsafe Hhigh].
  destruct (handlePublishTemplate P rawBody key s) as [r s'] eqn:Hrun.
  destruct (status_OK_or_not r) as [Hok|Hno].
  2:{ apply handlePublishTemplate_cases in Hrun
        as [[_ [d ->]]|(agentFile & format & d & _ & _ & _ & -> & _)]; [by split | done]. }
  destruct (handlePublishTemplate_success _ _ _ _ _ _ Hrun Hok)
    as (agentFile & format & d & a & Hparse & Hfile & Hassess & Hallowed & _ & _ & ->).
  set (t := id (template agentFile)) in *. set (v := version (template agentFile)) in *.
  assert (Hv : safe_version v = true) by (by apply (Hbody agentFile format), valid_of_file).
  set (new := mkVersionRow t v rawBody (sha256 P rawBody) true).
  assert (Hrows : forall x, In x (af_versions s ++ [new]) ->
            safe_version (vr_version x) = true
            /\ (vr_template_id x = t -> Semver.compare (vr_version x) v <> inr Gt)).
  { intros x [Hold|[<-|[]]]%in_app_or.
    - split; [by apply Hsafe|]. intros Ht.
      apply (assessSemver_allowed_highest v (selectVersions t s) a); try done.
      + by apply safe_versions_select.
      + by apply selectVersions_In.
      + by apply safe_version_valid, Hsafe.
    - split; [done|]. intros _. by apply compare_refl_valid, safe_version_valid. }
  simpl. split.
  - intros x (x0 & Hx0 & Hcontent & _)%in_resetLatest.
    injection Hcontent as _ -> _ _. by apply Hrows.
  - intros l x (l0 & Hl0 & Hlc & Hlatest)%in_resetLatest
               (x0 & Hx0 & Hxc & _)%in_resetLatest Hflag Hsame.
    injection Hlc as Hlt Hlv _ _. injection Hxc as Hxt Hxv _ _.
    rewrite Hlt, Hxt in Hsame. rewrite Hlv, Hxv.
    destruct (Hlatest Hflag) as [Hl0flag Hl0v].
    destruct (decide (vr_template_id l0 = t)) as [Ht|Ht].
    + rewrite (Hl0v Ht). apply Hrows; [done | congruence].
    + apply in_app_or in Hl0 as [Hl0|[<-|[]]]; [|done].
      apply in_app_or in Hx0 as [Hx0|[<-|[]]]; [|simpl in Hsame; congruence].
      by apply Hhigh.
Qed.

(** X15. Versions only move forward as long as every version is safe (no
    numeric pre-release identifier above 2^53 - 1): on a store in which
    every stored version is safe and a version flagged latest is not below
    any version of its template, the same holds after any sequence of
    publish requests whose templates carry safe versions; what
    [use_latest] selects is then always a highest version of the
    template. *)
Theorem publish_all_latest_is_highest (P : Platform)
    (requests : list (string * option string)) (s : Store) :
  safe_requests P requests ->
  latest_is_highest s ->
  latest_is_highest (publish_all P requests s).
Proof.
  revert s. induction requests as [|[rawBody key] rest IH]; intros s Hreq Hinv; simpl;
    [done|].
  apply IH.
  - intros b k af fmt Hin. apply (Hreq b k af fmt). by right.
  - apply handlePublishTemplate_highest; [|done].
    intros af fmt. apply (Hreq rawBody key af fmt). by left.
Qed.

(** X15 (witness). Version 1.0.2 and a repeated 1.0.1 sent to the sample
    store, whose latest version is 1.0.1. *)
Lemma publish_all_latest_is_highest_witness :
  latest_is_highest
    (publish_all samplePlatform [("1.0.2", None); ("1.0.1", Some "publish-4")] sample_store).
Proof.
  apply (publish_all_latest_is_highest samplePlatform
           [("1.0.2", None); ("1.0.1", Some "publish-4")] sample_store).
  - intros b k af fmt [[= <- <-]|[[= <- <-]|[]]] [= <- <-] _; vm_compute; reflexivity.
  - split.
    + intros r [<-|[<-|[]]]; vm_compute; reflexivity.
    + intros l r [<-|[<-|[]]] [<-|[<-|[]]] Hl _; try discriminate Hl;
        vm_compute; discriminate.
Defined.

(** X16. A regressive publish is refused: when the stored versions of the
    template are safe and one of them is above the safe version of the
    body, the publish does not succeed and stores no version; if it passes
    the idempotency guard and validation it is answered 400. *)
Theorem publish_regression_refused (P : Platform) (rawBody : string) (key : option string)
    (s s' : Store) (r : Response) (agentFile : AgentFile) (format : Format)
    (stored : VersionRow) :
  parseAgentFile P rawBody = inr (rawBody, agentFile, format) ->
  safe_versions (selectVersions (id (template agentFile)) s) ->
  safe_version (version (template agentFile)) = true ->
  In stored (af_versions s) ->
  vr_template_id stored = id (template agentFile) ->
  Semver.lt (version (template agentFile)) (vr_version stored) = inr true ->
  handlePublishTemplate P rawBody key s = (r, s') ->
  status r <> OK
  /\ af_versions s' = af_versions s
  /\ ((exists s1, ensureIdempotency P key rawBody s = (inr tt, s1)) ->
      valid (validateAgentFile agentFile) = true ->
      status r = BadRequest).
Proof.
  intros Hparse Hsafe Hv Hin Ht Hlt Hrun.
  assert (Hbelow : forall a,
    assessSemver (version (template agentFile))
                 (selectVersions (id (template agentFile)) s) = inr a ->
    allowed a = false).
  { intros a Hassess. destruct (allowed a) eqn:Hallowed; [|done]. exfalso.
    unfold Semver.lt, Semver.compare in Hlt.
    destruct (Semver.parse (version (template agentFile))) as [|x] eqn:Hx; [done|].
    destruct (Semver.parse (vr_version stored)) as [|y] eqn:Hy; [done|].
    assert (Hsv : Semver.valid (vr_version stored) = true) by (apply valid_parse; eauto).
    pose proof (selectVersions_In _ _ _ Hin Ht) as Hsel.
    pose proof (Hsafe _ Hsel Hsv) as (y' & Hy' & Sy)%safe_version_parse.
    pose proof Hv as (x' & Hx' & Sx)%safe_version_parse.
    rewrite Hx in Hx'. rewrite Hy in Hy'. injection Hx' as <-. injection Hy' as <-.
    apply (assessSemver_allowed_highest _ _ _ Hsafe Hassess Hallowed Hv (vr_version stored));
      [done..|].
    unfold Semver.compare. rewrite Hx, Hy.
    rewrite (compareSemVer_safe _ _ Sy Sx), (cmp_antisym _ cmp_order_precedence x y).
    rewrite (compareSemVer_safe _ _ Sx Sy) in Hlt.
    by destruct (precedence x y). }
  assert (Hfail : status r <> OK).
  { intros Hok.
    destruct (handlePublishTemplate_success _ _ _ _ _ _ Hrun Hok)
      as (af & fmt & d & a & Hp & Hfile & Hassess & Hallowed & _).
    rewrite Hparse in Hp. injection Hp as <- <-.
    by rewrite (Hbelow a Hassess) in Hallowed. }
  split; [done|]. split.
  - apply handlePublishTemplate_cases in Hrun
      as [[_ [d ->]]|(af & fmt & d & _ & _ & _ & -> & _)]; done.
  - intros [s1 Hguard] Hfile.
    rewrite handlePublishTemplate_run, Hparse, Hguard, Hfile in Hrun.
    cbn [negb] in Hrun. cbv zeta in Hrun.
    destruct (assessSemver_valid_inr (version (template agentFile))
                (selectVersions (id (template agentFile)) s1)
                (safe_version_valid _ Hv)) as [a Ha].
    rewrite Ha in Hrun.
    destruct (negb (allowed a)); by injection Hrun as <- _.
Qed.

(** X16 (witness). Version 0.9.0 sent to the sample store. *)
Lemma publish_regression_refused_witness :
  let run := handlePublishTemplate samplePlatform "0.9.0" None sample_store in
  status (fst run) <> OK
  /\ af_versions (snd run) = af_versions sample_store
  /\ status (fst run) = BadRequest.
Proof.
  intros run.
  destruct (publish_regression_refused samplePlatform "0.9.0" None sample_store (snd run)
              (fst run) (sampleAgentFile "0.9.0") yaml
              (mkVersionRow "sample-support-agent" "1.0.1" "1.0.1" "sha256:1.0.1" true))
    as (Hno & Hsame & Hbad).
  - reflexivity.
  - intros e [<-|[<-|[]]] _; vm_compute; reflexivity.
  - vm_compute. reflexivity.
  - simpl. right. by left.
  - reflexivity.
  - vm_compute. reflexivity.
  - apply surjective_pairing.
  - split; [exact Hno|]. split; [exact Hsame|].
    apply Hbad; [eexists; reflexivity | vm_compute; reflexivity].
Defined.

(** ** Creating an agent *)

(** What the profile write does on a store: it binds the agent, or it is
    refused by one of the two constraints and changes nothing. *)
Lemma upsertUserProfileAgent_cases (userId agentId : string) (s : Store) :
  (bound_elsewhere userId agentId (user_profiles s) = false
   /\ (is_Some (user_profiles s !! userId) \/ (userId ∈ auth_users s))
   /\ upsertUserProfileAgent userId agentId s
      = (inr tt, set_user_profiles (insert userId agentId) s))
  \/ (bound_elsewhere userId agentId (user_profiles s) = true
      /\ upsertUserProfileAgent userId agentId s = (inl unique_violation, s))
  \/ (bound_elsewhere userId agentId (user_profiles s) = false
      /\ user_profiles s !! userId = None /\ (userId ∉ auth_users s)
      /\ upsertUserProfileAgent userId agentId s = (inl foreign_key_violation, s)).
Proof.
  unfold upsertUserProfileAgent, bind, gets, modify, throw.
  destruct (user_profiles s !! userId) as [bound|] eqn:Hrow;
    destruct (bound_elsewhere userId agentId (user_profiles s)) eqn:Htaken.
  - right. left. done.
  - left. split; [done|]. split; [left; by eexists | done].
  - right. left. done.
  - case_bool_decide as Hknown; cbn [negb].
    + left. split; [done|]. split; [by right | done].
    + right. right. done.
Qed.

(** The create handler, branch by branch, from the store the guard has
    passed on: it fails before anything is stored; or the remote agent is
    created and the instance recorded, and then the profile write is
    refused; or it succeeds. *)
Lemma handleCreateAgent_cases (P : Platform) (payload : CreateAgentInput) (userId : string)
    (key : option string) (s s' : Store) (r : Response) :
  truthy_opt (ZUPLO_BASE_URL P) = true ->
  handleCreateAgent P payload userId key s = (r, s') ->
  (exists msg,
      ensureIdempotency P key (stringifyCreate P payload userId) s
      = (inl (IdempotencyError msg), s)
      /\ r = jsonResponse (ErrorBody (Some msg)) Conflict /\ s' = s)
  \/ (exists d,
        let s1 := set_request_dedup (fun _ => d) s in
        ensureIdempotency P key (stringifyCreate P payload userId) s = (inr tt, s1)
        /\ ((status r <> OK /\ s' = s1)
            \/ exists resolved raw config0 agentId agent,
                let s2 := set_agent_instances
                            (insert agentId
                               (mkInstance agentId userId (id (template resolved))
                                           (version (template resolved))
                                           (default ∅ (ci_variables payload)))) s1 in
                resolveTemplateVersion P (ci_template_id payload) (ci_version payload)
                                       (default false (ci_use_latest payload)) s1
                = (inr (resolved, raw), s1)
                /\ validateTemplateVariables P resolved (default ∅ (ci_variables payload))
                   = inr tt
                /\ buildAgentConfigFromTemplate P resolved userId = inr config0
                /\ lettaCreate P (create_config payload config0) = inr (agentId, agent)
                /\ ((r = jsonResponse (CreatedBody agent (sha256 P raw)) OK
                     /\ s' = set_user_profiles (insert userId agentId) s2)
                    \/ (s' = s2
                        /\ ((bound_elsewhere userId agentId (user_profiles s) = true
                             /\ r = error_response unique_violation)
                            \/ (user_profiles s !! userId = None /\ (userId ∉ auth_users s)
                                /\ r = error_response foreign_key_violation)))))).
Proof.
  intros Hzuplo. unfold handleCreateAgent, catch_handler. rewrite Hzuplo. cbn [negb].
  unfold bind at 1.
  destruct (ensureIdempotency_store P key (stringifyCreate P payload userId) s)
    as [[e He]|[d [Hd _]]]; rewrite ?He, ?Hd.
  { intros [= <- <-]. left. eauto. }
  set (s1 := set_request_dedup (fun _ => d) s).
  intros Hrun. right. exists d. cbv zeta. fold s1. split; [done|]. revert Hrun.
  unfold bind at 1.
  pose proof (resolveTemplateVersion_store P (ci_template_id payload) (ci_version payload)
                (default false (ci_use_latest payload)) s1) as Hres.
  destruct (resolveTemplateVersion _ _ _ _ s1) as [[e|[resolved raw]] s1'] eqn:Hresolve.
  all: simpl in Hres; subst s1'.
  { intros [= <- <-]. left. split; [by destruct e | done]. }
  unfold bind at 1. unfold lift at 1.
  destruct (validateTemplateVariables _ _ _) as [e|[]] eqn:Hvars.
  { intros [= <- <-]. left. split; [by destruct e | done]. }
  unfold bind at 1. unfold lift at 1.
  destruct (buildAgentConfigFromTemplate _ _ _) as [e|config0] eqn:Hconfig.
  { intros [= <- <-]. left. split; [by destruct e | done]. }
  unfold bind at 1. fold (create_config payload config0).
  unfold createLettaAgent.
  destruct (negb (truthy_opt (LETTA_API_KEY P))).
  { unfold throw. intros [= <- <-]. left. by split. }
  unfold lift at 1.
  destruct (lettaCreate P (create_config payload config0)) as [e|[agentId agent]] eqn:Hcreate.
  { intros [= <- <-]. left. split; [by destruct e | done]. }
  unfold bind at 1. unfold modify at 1. unfold bind at 1.
  set (s2 := set_agent_instances _ s1).
  intros Hrun. right. exists resolved, raw, config0, agentId, agent. cbv zeta. fold s2.
  repeat (split; [done|]).
  destruct (upsertUserProfileAgent_cases userId agentId s2)
    as [(_ & _ & Hup)|[(Htaken & Hup)|(_ & Hrow & Hknown & Hup)]];
    rewrite Hup in Hrun; injection Hrun as <- <-.
  - by left.
  - right. split; [done|]. by left.
  - right. split; [done|]. right. by repeat split.
Qed.

Lemma buildAgentConfigFromTemplate_endpoints (P : Platform) (agentFile : AgentFile)
    (userId : string) (config : Config) :
  buildAgentConfigFromTemplate P agentFile userId = inr config ->
  config !! "model_endpoint" = Some (JStr (billing_endpoint P userId))
  /\ config !! "embedding_endpoint" = Some (JStr (billing_endpoint P userId))
  /\ config !! "model" = Some (JStr (model (engine agentFile)))
  /\ config !! "system_prompt" = Some (JStr (system_prompt (persona agentFile))).
Proof.
  unfold buildAgentConfigFromTemplate. destruct (negb _); [done|]. intros [= <-].
  repeat split; repeat (first [by apply lookup_insert_eq | rewrite lookup_insert_ne by done]).
Qed.

Lemma create_config_lookup (payload : CreateAgentInput) (config0 : Config) (k : string) :
  k <> "name" -> create_config payload config0 !! k = config0 !! k.
Proof.
  intros Hk. unfold create_config. destruct (truthy_opt _); [|done].
  by rewrite lookup_insert_ne.
Qed.

(** X17. A successful create has sent to the remote API a configuration
    built from the resolved template, with the model and system prompt of
    the template and with both [model_endpoint] and [embedding_endpoint]
    set to the billing endpoint of the user; it has recorded the instance
    under the id the remote API returned, at the resolved template id and
    version with the supplied variables, and bound that id to the user's
    profile. *)
Theorem handleCreateAgent_success (P : Platform) (payload : CreateAgentInput)
    (userId : string) (key : option string) (s s' : Store) (r : Response) :
  handleCreateAgent P payload userId key s = (r, s') ->
  status r = OK ->
  exists resolved raw config agentId agent s1,
    resolveTemplateVersion P (ci_template_id payload) (ci_version payload)
                           (default false (ci_use_latest payload)) s1
    = (inr (resolved, raw), s1)
    /\ af_versions s1 = af_versions s
    /\ lettaCreate P config = inr (agentId, agent)
    /\ config !! "model_endpoint" = Some (JStr (billing_endpoint P userId))
    /\ config !! "embedding_endpoint" = Some (JStr (billing_endpoint P userId))
    /\ config !! "model" = Some (JStr (model (engine resolved)))
    /\ config !! "system_prompt" = Some (JStr (system_prompt (persona resolved)))
    /\ r = jsonResponse (CreatedBody agent (sha256 P raw)) OK
    /\ agent_instances s' !! agentId
       = Some (mkInstance agentId userId (id (template resolved))
                          (version (template resolved))
                          (default ∅ (ci_variables payload)))
    /\ user_profiles s' !! userId = Some agentId.
Proof.
  intros Hrun Hok.
  destruct (truthy_opt (ZUPLO_BASE_URL P)) eqn:Hzuplo.
  2:{ unfold handleCreateAgent in Hrun. rewrite Hzuplo in Hrun.
      injection Hrun as <- <-. done. }
  apply handleCreateAgent_cases in Hrun
    as [(msg & _ & -> & _)|(d & _ & [[Hno _]|Hdone])]; [done|done| |done].
  destruct Hdone as (resolved & raw & config0 & agentId & agent
                     & Hres & _ & Hconfig & Hcreate & Hend).
  destruct Hend as [[-> ->]|(_ & [[_ ->]|(_ & _ & ->)])]; [|done..].
  apply buildAgentConfigFromTemplate_endpoints in Hconfig as (Hm & He & Hmodel & Hprompt).
  exists resolved, raw, (create_config payload config0), agentId, agent,
         (set_request_dedup (fun _ => d) s).
  rewrite !create_config_lookup by done.
  repeat split; try done; simpl; apply lookup_insert_eq.
Qed.

(** X17 (witness). A create for the sample template on the sample store. *)
Lemma handleCreateAgent_success_witness :
  let run := handleCreateAgent samplePlatform sample_create_request sample_user None
                               sample_store in
  status (fst run) = OK
  /\ exists resolved raw config agentId agent s1,
      resolveTemplateVersion samplePlatform (ci_template_id sample_create_request)
                             (ci_version sample_create_request)
                             (default false (ci_use_latest sample_create_request)) s1
      = (inr (resolved, raw), s1)
      /\ af_versions s1 = af_versions sample_store
      /\ lettaCreate samplePlatform config = inr (agentId, agent)
      /\ config !! "model_endpoint" = Some (JStr (billing_endpoint samplePlatform sample_user))
      /\ config !! "embedding_endpoint"
         = Some (JStr (billing_endpoint samplePlatform sample_user))
      /\ config !! "model" = Some (JStr (model (engine resolved)))
      /\ config !! "system_prompt" = Some (JStr (system_prompt (persona resolved)))
      /\ fst run = jsonResponse (CreatedBody agent (sha256 samplePlatform raw)) OK
      /\ agent_instances (snd run) !! agentId
         = Some (mkInstance agentId sample_user (id (template resolved))
                            (version (template resolved))
                            (default ∅ (ci_variables sample_create_request)))
      /\ user_profiles (snd run) !! sample_user = Some agentId.
Proof.
  intros run.
  assert (Hok : status (fst run) = OK) by (vm_compute; reflexivity).
  split; [exact Hok|].
  apply (handleCreateAgent_success samplePlatform sample_create_request sample_user None
           sample_store (snd run) (fst run)).
  - apply surjective_pairing.
  - exact Hok.
Defined.

(** X18. A create that is not answered 200 binds no profile. It records
    no instance either, and writes at most the idempotency record of the
    request, unless the remote agent was created and the profile write
    was then refused by a constraint of [user_profiles] (the agent is
    bound to the profile of another user, or the user is not in
    [auth.users]): the instance row written before that stays recorded,
    and the answer is 500 with the message of the constraint. *)
Theorem handleCreateAgent_failure (P : Platform) (payload : CreateAgentInput)
    (userId : string) (key : option string) (s s' : Store) (r : Response) :
  handleCreateAgent P payload userId key s = (r, s') ->
  status r <> OK ->
  user_profiles s' = user_profiles s
  /\ ((exists d, s' = set_request_dedup (fun _ => d) s)
      \/ exists d config agentId agent instance,
          lettaCreate P config = inr (agentId, agent)
          /\ ai_agent_id instance = agentId /\ ai_user_id instance = userId
          /\ s' = set_agent_instances (insert agentId instance)
                    (set_request_dedup (fun _ => d) s)
          /\ ((bound_elsewhere userId agentId (user_profiles s) = true
               /\ r = error_response unique_violation)
              \/ (user_profiles s !! userId = None /\ (userId ∉ auth_users s)
                  /\ r = error_response foreign_key_violation))).
Proof.
  intros Hrun Hno.
  assert (Hsame : s = set_request_dedup (fun _ => request_dedup s) s) by by destruct s.
  destruct (truthy_opt (ZUPLO_BASE_URL P)) eqn:Hzuplo.
  2:{ unfold handleCreateAgent in Hrun. rewrite Hzuplo in Hrun.
      injection Hrun as <- <-. eauto. }
  apply handleCreateAgent_cases in Hrun
    as [(msg & _ & _ & ->)|(d & _ & [[_ ->]|Hdone])]; [eauto|eauto| |done].
  destruct Hdone as (resolved & raw & config0 & agentId & agent & _ & _ & _ & Hcreate & Hend).
  destruct Hend as [[-> _]|(-> & Hwhy)]; [done|].
  split; [done|]. right.
  exists d, (create_config payload config0), agentId, agent,
    (mkInstance agentId userId (id (template resolved)) (version (template resolved))
                (default ∅ (ci_variables payload))).
  by repeat split.
Qed.

(** X18 (witness). A create by a user that [auth.users] does not hold: the
    agent is created and recorded, the profile write is refused. *)
Lemma handleCreateAgent_failure_witness :
  let run := handleCreateAgent samplePlatform sample_create_request sample_stranger None
                               sample_published_store in
  fst run = error_response foreign_key_violation
  /\ is_Some (agent_instances (snd run) !! "agent-1")
  /\ user_profiles (snd run) = user_profiles sample_published_store
  /\ ((exists d, snd run = set_request_dedup (fun _ => d) sample_published_store)
      \/ exists d config agentId agent instance,
          lettaCreate samplePlatform config = inr (agentId, agent)
          /\ ai_agent_id instance = agentId
          /\ ai_user_id instance = sample_stranger
          /\ snd run
             = set_agent_instances (insert agentId instance)
                 (set_request_dedup (fun _ => d) sample_published_store)
          /\ ((bound_elsewhere sample_stranger agentId (user_profiles sample_published_store)
               = true
               /\ fst run = error_response unique_violation)
              \/ (user_profiles sample_published_store !! sample_stranger = None
                  /\ (sample_stranger ∉ auth_users sample_published_store)
                  /\ fst run = error_response foreign_key_violation))).
Proof.
  intros run.
  assert (Hr : fst run = error_response foreign_key_violation) by (vm_compute; reflexivity).
  assert (Hi : is_Some (agent_instances (snd run) !! "agent-1")).
  { eexists. vm_compute. reflexivity. }
  split; [exact Hr|]. split; [exact Hi|].
  apply (handleCreateAgent_failure samplePlatform sample_create_request sample_stranger None
           sample_published_store (snd run) (fst run)).
  - apply surjective_pairing.
  - rewrite Hr. discriminate.
Defined.

(** ** Idempotency records and handler footprints *)

Lemma ensureIdempotency_grows (P : Platform) (key : option string) (source : string)
    (s s1 : Store) (o : Exn + unit) :
  ensureIdempotency P key source s = (o, s1) ->
  forall k c, request_dedup s !! k = Some c -> request_dedup s1 !! k = Some c.
Proof.
  unfold ensureIdempotency, bind, gets, modify, throw, ret.
  destruct key as [k0|]; [|by intros [= _ <-]].
  destruct (negb (truthy k0)); [by intros [= _ <-]|]. cbv beta iota.
  destruct (request_dedup s !! k0) as [stored|] eqn:Hk0.
  - destruct (negb _); by intros [= _ <-].
  - intros [= _ <-] k c Hk. simpl. rewrite lookup_insert_ne; [done | congruence].
Qed.

Lemma upgrade_outcome_dedup (P : Platform) (agentId : string) (payload : UpgradeAgentInput)
    (s1 s' : Store) (r : Response) :
  upgrade_outcome P agentId payload s1 r s' ->
  request_dedup s' = request_dedup s1
  /\ af_templates s' = af_templates s1 /\ af_versions s' = af_versions s1
  /\ af_cache s' = af_cache s1 /\ user_profiles s' = user_profiles s1.
Proof. by intros []. Qed.

(** X19. An idempotency record is never overwritten or removed: whatever
    a publish, create or upgrade request does, a key recorded before it is
    recorded with the same fingerprint after it. *)
Theorem request_dedup_never_overwritten (P : Platform) (s s' : Store) (r : Response)
    (k c : string) :
  request_dedup s !! k = Some c ->
  (forall rawBody key,
      handlePublishTemplate P rawBody key s = (r, s') -> request_dedup s' !! k = Some c)
  /\ (forall payload userId key,
        handleCreateAgent P payload userId key s = (r, s') ->
        request_dedup s' !! k = Some c)
  /\ (forall agentId payload userId key,
        handleUpgradeAgent P agentId payload userId key s = (r, s') ->
        request_dedup s' !! k = Some c).
Proof.
  intros Hk. split; [|split].
  - intros rawBody key Hrun.
    assert (Hd : forall d, ensureIdempotency P key rawBody s
                           = (inr tt, set_request_dedup (fun _ => d) s) -> d !! k = Some c).
    { intros d Hg. apply (ensureIdempotency_grows _ _ _ _ _ _ Hg k c Hk). }
    rewrite handlePublishTemplate_run in Hrun.
    destruct (parseAgentFile P rawBody) as [e|[[raw agentFile] format]].
    { by injection Hrun as _ <-. }
    destruct (ensureIdempotency_store P key rawBody s) as [[e He]|[d [Hg _]]].
    { rewrite He in Hrun. by injection Hrun as _ <-. }
    rewrite Hg in Hrun. specialize (Hd d Hg). cbv zeta in Hrun.
    destruct (negb (valid _)); [by injection Hrun as _ <-|].
    destruct (assessSemver _ _) as [e|a]; [by injection Hrun as _ <-|].
    destruct (negb (allowed a)); by injection Hrun as _ <-.
  - intros payload userId key Hrun.
    destruct (truthy_opt (ZUPLO_BASE_URL P)) eqn:Hzuplo.
    2:{ unfold handleCreateAgent in Hrun. rewrite Hzuplo in Hrun.
        by injection Hrun as _ <-. }
    apply handleCreateAgent_cases in Hrun
      as [(msg & _ & _ & ->)|(d & Hg & Hrest)]; [done| |done].
    pose proof (ensureIdempotency_grows _ _ _ _ _ _ Hg k c Hk) as Hd.
    destruct Hrest as [[_ ->]|(? & ? & ? & ? & ? & _ & _ & _ & _ & [[_ ->]|[-> _]])]; done.
  - intros agentId payload userId key Hrun.
    destruct (truthy_opt (ZUPLO_BASE_URL P)) eqn:Hzuplo.
    2:{ unfold handleUpgradeAgent in Hrun. rewrite Hzuplo in Hrun.
        by injection Hrun as _ <-. }
    apply handleUpgradeAgent_cases in Hrun
      as [(msg & _ & _ & ->)|(d & Hg & Hout)]; [done| |done].
    pose proof (ensureIdempotency_grows _ _ _ _ _ _ Hg k c Hk) as Hd.
    apply upgrade_outcome_dedup in Hout as [-> _]. done.
Qed.

(** X19 (witness). A second key used on a store that holds a first one. *)
Lemma request_dedup_never_overwritten_witness :
  let s := snd (handlePublishTemplate samplePlatform "1.0.0" (Some "publish-1")
                                      empty_store) in
  request_dedup s !! "publish-1" = Some "sha256:1.0.0"
  /\ request_dedup (snd (handlePublishTemplate samplePlatform "1.0.1" (Some "publish-2") s))
       !! "publish-1" = Some "sha256:1.0.0".
Proof.
  intros s.
  assert (Hk : request_dedup s !! "publish-1" = Some "sha256:1.0.0")
    by (vm_compute; reflexivity).
  split; [exact Hk|].
  apply (proj1 (request_dedup_never_overwritten samplePlatform s
                  (snd (handlePublishTemplate samplePlatform "1.0.1" (Some "publish-2") s))
                  (fst (handlePublishTemplate samplePlatform "1.0.1" (Some "publish-2") s))
                  "publish-1" "sha256:1.0.0" Hk) "1.0.1" (Some "publish-2")).
  apply surjective_pairing.
Defined.

(** X20. Each handler writes only its own tables. A publish never touches
    instances, migration attempts, profiles, the queue or the remote
    agents; a create never touches templates, versions, the cache,
    migration attempts, the queue or remote updates; an upgrade never
    touches templates, versions, the cache or profiles. *)
Theorem handler_footprints (P : Platform) (s s' : Store) (r : Response) :
  (forall rawBody key,
      handlePublishTemplate P rawBody key s = (r, s') ->
      agent_instances s' = agent_instances s /\ agent_migrations s' = agent_migrations s
      /\ user_profiles s' = user_profiles s /\ upgrade_jobs s' = upgrade_jobs s
      /\ letta_updates s' = letta_updates s)
  /\ (forall payload userId key,
        handleCreateAgent P payload userId key s = (r, s') ->
        af_templates s' = af_templates s /\ af_versions s' = af_versions s
        /\ af_cache s' = af_cache s /\ agent_migrations s' = agent_migrations s
        /\ upgrade_jobs s' = upgrade_jobs s /\ letta_updates s' = letta_updates s)
  /\ (forall agentId payload userId key,
        handleUpgradeAgent P agentId payload userId key s = (r, s') ->
        af_templates s' = af_templates s /\ af_versions s' = af_versions s
        /\ af_cache s' = af_cache s /\ user_profiles s' = user_profiles s).
Proof.
  split; [|split].
  - intros rawBody key Hrun.
    apply handlePublishTemplate_cases in Hrun
      as [[_ [d ->]]|(agentFile & format & d & _ & _ & _ & _ & ->)]; done.
  - intros payload userId key Hrun.
    destruct (truthy_opt (ZUPLO_BASE_URL P)) eqn:Hzuplo.
    2:{ unfold handleCreateAgent in Hrun. rewrite Hzuplo in Hrun.
        by injection Hrun as _ <-. }
    apply handleCreateAgent_cases in Hrun
      as [(msg & _ & _ & ->)|(d & _ & Hrest)]; [done| |done].
    destruct Hrest as [[_ ->]|(? & ? & ? & ? & ? & _ & _ & _ & _ & [[_ ->]|[-> _]])]; done.
  - intros agentId payload userId key Hrun.
    destruct (truthy_opt (ZUPLO_BASE_URL P)) eqn:Hzuplo.
    2:{ unfold handleUpgradeAgent in Hrun. rewrite Hzuplo in Hrun.
        by injection Hrun as _ <-. }
    apply handleUpgradeAgent_cases in Hrun
      as [(msg & _ & _ & ->)|(d & _ & Hout)]; [done| |done].
    apply upgrade_outcome_dedup in Hout as (_ & -> & -> & -> & ->). done.
Qed.

(** ** UpgradeDispatcher: plan, ownership, updates *)

(** X21. The plan of a successful upgrade response, whether simulated,
    queued or applied, is the planner's plan from the version stored for
    the instance to the version of the resolved target template, over the
    migrations that the target template declares; and a caller that names
    itself is the owner of the instance. *)
Theorem handleUpgradeAgent_plan (P : Platform) (agentId : string)
    (payload : UpgradeAgentInput) (userId key : option string) (s s' : Store)
    (r : Response) :
  handleUpgradeAgent P agentId payload userId key s = (r, s') ->
  status r = OK ->
  exists agentRecord resolved plan,
    agent_instances s !! agentId = Some agentRecord
    /\ (truthy_opt userId = true -> userId = Some (ai_user_id agentRecord))
    /\ (exists raw,
          fst (resolveTemplateVersion P (ai_template_id agentRecord) (target_version payload)
                                      (default true (use_latest payload)) s)
          = inr (resolved, raw))
    /\ buildMigrationPlan (ai_version agentRecord) (version (template resolved))
                          (default [] (migrations resolved)) = Some (inr plan)
    /\ response_plan r = Some plan.
Proof.
  intros Hrun Hok.
  pose proof (handleUpgradeAgent_OK_configured _ _ _ _ _ _ _ _ Hrun Hok) as Hzuplo.
  destruct (handleUpgradeAgent_success _ _ _ _ _ _ _ _ Hzuplo Hrun Hok)
    as (d & agentRecord & resolved & raw & plan & currentConfig & dr
        & Hrec & Hown & Hres & Hplan & _ & _ & Hcase).
  exists agentRecord, resolved, plan. repeat split; try done.
  - exists raw.
    rewrite (resolveTemplateVersion_versions P _ _ _ s (set_request_dedup (fun _ => d) s))
      by done.
    by rewrite Hres.
  - destruct Hcase as [(_ & -> & _)|[(_ & _ & -> & _)|(_ & _ & applied & _ & -> & _)]]; done.
Qed.

(** X21 (witness). The dry-run upgrade of the sample agent. *)
Lemma handleUpgradeAgent_plan_witness :
  let run := handleUpgradeAgent samplePlatform "agent-1" sample_dry_request
                                (Some sample_user) None sample_store in
  status (fst run) = OK
  /\ exists agentRecord resolved plan,
      agent_instances sample_store !! "agent-1" = Some agentRecord
      /\ (truthy_opt (Some sample_user) = true -> Some sample_user = Some (ai_user_id agentRecord))
      /\ (exists raw,
            fst (resolveTemplateVersion samplePlatform (ai_template_id agentRecord)
                   (target_version sample_dry_request)
                   (default true (use_latest sample_dry_request)) sample_store)
            = inr (resolved, raw))
      /\ buildMigrationPlan (ai_version agentRecord) (version (template resolved))
                            (default [] (migrations resolved)) = Some (inr plan)
      /\ response_plan (fst run) = Some plan.
Proof.
  intros run.
  assert (Hok : status (fst run) = OK) by (vm_compute; reflexivity).
  split; [exact Hok|].
  apply (handleUpgradeAgent_plan samplePlatform "agent-1" sample_dry_request
           (Some sample_user) None sample_store (snd run) (fst run)).
  - apply surjective_pairing.
  - exact Hok.
Defined.

(** X22. Billing invariant of upgrades: an upgrade request sends at most
    one update to the remote API, for the instance it was asked to
    upgrade, and the configuration it sends carries the billing endpoint
    of the instance's owner under both [model_endpoint] and
    [embedding_endpoint]. *)
Theorem handleUpgradeAgent_update_endpoints (P : Platform) (agentId : string)
    (payload : UpgradeAgentInput) (userId key : option string) (s s' : Store)
    (r : Response) :
  handleUpgradeAgent P agentId payload userId key s = (r, s') ->
  letta_updates s' = letta_updates s
  \/ exists agentRecord config,
      agent_instances s !! agentId = Some agentRecord
      /\ letta_updates s' = letta_updates s ++ [(agentId, config)]
      /\ config !! "model_endpoint"
         = Some (JStr (billing_endpoint P (ai_user_id agentRecord)))
      /\ config !! "embedding_endpoint"
         = Some (JStr (billing_endpoint P (ai_user_id agentRecord))).
Proof.
  intros Hrun.
  destruct (truthy_opt (ZUPLO_BASE_URL P)) eqn:Hzuplo.
  2:{ unfold handleUpgradeAgent in Hrun. rewrite Hzuplo in Hrun.
      injection Hrun as _ <-. by left. }
  apply handleUpgradeAgent_cases in Hrun
    as [(msg & _ & _ & ->)|(d & _ & Hout)]; [by left| |done].
  inversion Hout as
    [r0 Hno
    |agentRecord toVersion plan currentConfig dr Hrec Hdry Hflag
    |agentRecord toVersion plan Hrec Hflag Hq
    |agentRecord plan currentConfig dr e Hrec Hdry Hflag Hq Hupd
    |agentRecord toVersion plan currentConfig dr applied Hrec Hdry Hflag Hq Hupd];
    subst; try (by left); right; exists agentRecord, (updatedConfig dr);
    apply performDryRun_inr in Hdry as (config & ws & _ & ->); simpl;
    (split; [exact Hrec|]); (split; [reflexivity|]);
    (split; [rewrite lookup_insert_ne by done|]); apply lookup_insert_eq.
Qed.

(** X22 (witness). The applied upgrade of the sample instance. *)
Lemma handleUpgradeAgent_update_endpoints_witness :
  let run := handleUpgradeAgent samplePlatform "agent-1" sample_sync_request
                                (Some sample_user) None sample_store in
  letta_updates (snd run) = letta_updates sample_store
  \/ exists agentRecord config,
      agent_instances sample_store !! "agent-1" = Some agentRecord
      /\ letta_updates (snd run) = letta_updates sample_store ++ [("agent-1", config)]
      /\ config !! "model_endpoint"
         = Some (JStr (billing_endpoint samplePlatform (ai_user_id agentRecord)))
      /\ config !! "embedding_endpoint"
         = Some (JStr (billing_endpoint samplePlatform (ai_user_id agentRecord))).
Proof.
  intros run.
  apply (handleUpgradeAgent_update_endpoints samplePlatform "agent-1" sample_sync_request
           (Some sample_user) None sample_store (snd run) (fst run)).
  apply surjective_pairing.
Defined.

(** X23. Access checks of the upgrade handler, for a request that the
    idempotency guard lets pass: an unknown agent id is answered 404 and a
    caller that names itself and is not the owner of the instance is
    answered 403; in both cases nothing is read from the remote API and
    nothing but the idempotency record is written. *)
Theorem handleUpgradeAgent_access (P : Platform) (agentId : string)
    (payload : UpgradeAgentInput) (userId key : option string) (s s1 : Store) :
  truthy_opt (ZUPLO_BASE_URL P) = true ->
  ensureIdempotency P key (stringifyUpgrade P payload agentId) s = (inr tt, s1) ->
  (agent_instances s !! agentId = None ->
   handleUpgradeAgent P agentId payload userId key s
   = (jsonResponse (ErrorBody (Some "Agent not found")) NotFound, s1))
  /\ (forall agentRecord caller,
        agent_instances s !! agentId = Some agentRecord ->
        userId = Some caller -> truthy caller = true -> caller <> ai_user_id agentRecord ->
        handleUpgradeAgent P agentId payload userId key s
        = (jsonResponse (ErrorBody (Some "Forbidden")) Forbidden, s1)).
Proof.
  intros Hzuplo Hguard.
  assert (Hinst : agent_instances s1 = agent_instances s).
  { destruct (ensureIdempotency_store P key (stringifyUpgrade P payload agentId) s)
      as [[e He]|[d [Hd _]]]; [congruence|].
    rewrite Hd in Hguard. by injection Hguard as <-. }
  split.
  - intros Hnone.
    unfold handleUpgradeAgent, catch_handler. rewrite Hzuplo. cbn [negb].
    unfold bind at 1. rewrite Hguard. unfold bind at 1. unfold gets at 1.
    cbv beta iota. rewrite Hinst.
    destruct (agent_instances s !! agentId); done.
  - intros agentRecord caller Hrec -> Hcaller Hne.
    unfold handleUpgradeAgent, catch_handler. rewrite Hzuplo. cbn [negb].
    unfold bind at 1. rewrite Hguard. unfold bind at 1. unfold gets at 1.
    cbv beta iota. rewrite Hinst.
    destruct (agent_instances s !! agentId) as [found|]; [|done].
    injection Hrec as ->. simpl. rewrite Hcaller. simpl.
    by destruct (String.eqb_spec caller (ai_user_id agentRecord)).
Qed.

(** X23 (witness). An unknown agent and a foreign caller on the sample
    store. *)
Lemma handleUpgradeAgent_access_witness :
  handleUpgradeAgent samplePlatform "agent-9" sample_sync_request (Some sample_user) None
                     sample_store
  = (jsonResponse (ErrorBody (Some "Agent not found")) NotFound, sample_store)
  /\ handleUpgradeAgent samplePlatform "agent-1" sample_sync_request (Some "mallory") None
                        sample_store
     = (jsonResponse (ErrorBody (Some "Forbidden")) Forbidden, sample_store).
Proof.
  split.
  - apply (proj1 (handleUpgradeAgent_access samplePlatform "agent-9" sample_sync_request
                    (Some sample_user) None sample_store sample_store eq_refl eq_refl)).
    reflexivity.
  - apply (proj2 (handleUpgradeAgent_access samplePlatform "agent-1" sample_sync_request
                    (Some "mallory") None sample_store sample_store eq_refl eq_refl)
             (mkInstance "agent-1" sample_user "sample-support-agent" "1.0.0" ∅) "mallory").
    + reflexivity.
    + reflexivity.
    + reflexivity.
    + discriminate.
Defined.



(** ** SemverGate: a proposed version that is not SemVer *)

Lemma parse_error_messages (version msg : string) :
  Semver.parse version = inl msg ->
  In msg ["version is longer than 256 characters"; "Invalid Version: " +:+ version;
          "Invalid major version"; "Invalid minor version"; "Invalid patch version"].
Proof.
  unfold Semver.parse. destruct (Nat.ltb _ _); [intros [= <-]; by left|].
  destruct (Semver.match_full version) as [[[[[ma mi] pa] ps] bs]|];
    [|intros [= <-]; right; by left].
  destruct (_ <? ma)%N; [intros [= <-]; do 2 right; by left|].
  destruct (_ <? mi)%N; [intros [= <-]; do 3 right; by left|].
  destruct (_ <? pa)%N; [intros [= <-]; do 4 right; by left|].
  done.
Qed.

(** X25. On a proposed version that is not valid SemVer and not already
    present, the gate allows the version when no existing entry is valid
    SemVer, and throws as soon as one is: the [TypeError] that the
    constructor of the package throws for the proposed version, whose
    message says that the version is too long, or is an invalid version,
    or has an invalid major, minor or patch number. *)
Theorem assessSemver_invalid_proposed (nextVersion msg : string) (existing : list string) :
  Semver.parse nextVersion = inl msg ->
  ~ In nextVersion existing ->
  assessSemver nextVersion existing
  = (if existsb Semver.valid existing then inl (TypeError msg) else inr allowance)
  /\ In msg ["version is longer than 256 characters"; "Invalid Version: " +:+ nextVersion;
             "Invalid major version"; "Invalid minor version"; "Invalid patch version"].
Proof.
  intros Hinvalid Hnot. split; [|by apply parse_error_messages].
  unfold assessSemver.
  destruct (includes existing nextVersion) eqn:Hinc; [by apply includes_In in Hinc|].
  destruct (js_sort rcompare_total (List.filter Semver.valid existing)) as [|latest t] eqn:Hs.
  - destruct (existsb Semver.valid existing) eqn:Hsome; [|done].
    apply existsb_exists in Hsome as (e & He & Hv).
    assert (In e (js_sort rcompare_total (List.filter Semver.valid existing))) as Hin
      by (apply js_sort_In, filter_In; auto).
    rewrite Hs in Hin. destruct Hin.
  - assert (Hin : In latest (List.filter Semver.valid existing)).
    { apply (js_sort_In rcompare_total). rewrite Hs. by left. }
    apply filter_In in Hin as [Hin Hv].
    assert (existsb Semver.valid existing = true) as -> by (apply existsb_exists; eauto).
    unfold Semver.lt, Semver.compare. by rewrite Hinvalid.
Qed.

(** X25 (witness). A major number above the largest safe integer, next to
    one valid entry. *)
Lemma assessSemver_invalid_proposed_witness :
  assessSemver "9007199254740992.0.0" ["legacy"; "1.0.0"]
  = (if existsb Semver.valid ["legacy"; "1.0.0"]
     then inl (TypeError "Invalid major version") else inr allowance)
  /\ In "Invalid major version"
        ["version is longer than 256 characters";
         "Invalid Version: " +:+ "9007199254740992.0.0";
         "Invalid major version"; "Invalid minor version"; "Invalid patch version"].
Proof.
  apply (assessSemver_invalid_proposed "9007199254740992.0.0" "Invalid major version"
           ["legacy"; "1.0.0"]).
  - vm_compute. reflexivity.
  - intros [H|[H|[]]]; discriminate.
Defined.

(** ** The router *)

Lemma strip_prefix_app (p s : string) : strip_prefix p (p +:+ s) = Some s.
Proof.
  induction p as [|a p IH]; simpl; [done|]. by rewrite Ascii.eqb_refl.
Qed.

Lemma list_ascii_of_string_app (s t : string) :
  list_ascii_of_string (s +:+ t) = list_ascii_of_string s ++ list_ascii_of_string t.
Proof. induction s as [|a s IH]; simpl; [done|]. by rewrite IH. Qed.

Lemma string_of_list_ascii_app (l k : list ascii) :
  string_of_list_ascii (l ++ k) = string_of_list_ascii l +:+ string_of_list_ascii k.
Proof. induction l as [|a l IH]; simpl; [done|]. by rewrite IH. Qed.

Lemma string_rev_app (s t : string) : string_rev (s +:+ t) = string_rev t +:+ string_rev s.
Proof.
  unfold string_rev. by rewrite list_ascii_of_string_app, rev_app_distr, string_of_list_ascii_app.
Qed.

Lemma string_rev_involutive (s : string) : string_rev (string_rev s) = s.
Proof.
  unfold string_rev.
  by rewrite list_ascii_of_string_of_list_ascii, rev_involutive, string_of_list_ascii_of_string.
Qed.

Lemma strip_suffix_app (p s : string) : strip_suffix p (s +:+ p) = Some s.
Proof.
  unfold strip_suffix. rewrite string_rev_app, strip_prefix_app. simpl.
  by rewrite string_rev_involutive.
Qed.

Lemma upgradeMatch_path (agentId : string) :
  truthy agentId = true -> all_chars dot_char agentId = true ->
  upgradeMatch ("agents/" +:+ agentId +:+ "/upgrade") = Some agentId.
Proof.
  intros Hid Hdot. unfold upgradeMatch.
  rewrite strip_prefix_app, strip_suffix_app, Hid, Hdot. done.
Qed.

Lemma string_length_app (s t : string) :
  String.length (s +:+ t) = String.length s + String.length t.
Proof. induction s as [|a s IH]; simpl; [done|]. by rewrite IH. Qed.

Lemma upgradeMatch_not_route (agentId : string) :
  let path := "agents/" +:+ agentId +:+ "/upgrade" in
  String.eqb path "health" = false /\ String.eqb path "templates/validate" = false
  /\ String.eqb path "templates/publish" = false /\ String.eqb path "me" = false
  /\ String.eqb path "agents/create" = false.
Proof.
  cbv zeta. repeat split; try done.
  apply String.eqb_neq. intros Heq. apply (f_equal String.length) in Heq.
  rewrite !string_length_app in Heq. simpl in Heq. lia.
Qed.

(** X26. The agent id travels through the upgrade path unchanged: for
    every non-empty agent id without line breaks, slashes included, a POST
    to [/api/v1/agents/<id>/upgrade] whose body decodes is answered by the
    upgrade handler run on exactly that id, with the [X-User-Id] and
    [Idempotency-Key] headers of the request. *)
Theorem serve_upgrade_dispatch (P : Platform) (J : BodyParser) (req : Request) (s : Store)
    (agentId : string) (payload : UpgradeAgentInput) :
  truthy agentId = true -> all_chars dot_char agentId = true ->
  pathname req = "/api/v1/agents/" +:+ agentId +:+ "/upgrade" ->
  toUpperCase (method req) = "POST" ->
  parseUpgrade J (body_text req) = inr payload ->
  serve P J req s
  = (reply_of (fst (handleUpgradeAgent P agentId payload (user_header req)
                                       (idempotency_header req) s)),
     snd (handleUpgradeAgent P agentId payload (user_header req)
                             (idempotency_header req) s)).
Proof.
  intros Hid Hdot Hpath Hmethod Hbody. unfold serve. rewrite Hpath, Hmethod, Hbody.
  assert (Hroute : route_path ("/api/v1/agents/" +:+ agentId +:+ "/upgrade")
                   = "agents/" +:+ agentId +:+ "/upgrade") by done.
  rewrite Hroute. cbv zeta.
  destruct (upgradeMatch_not_route agentId) as (-> & -> & -> & -> & ->).
  rewrite (upgradeMatch_path agentId Hid Hdot). simpl.
  by destruct (handleUpgradeAgent P agentId payload _ _ s).
Qed.

(** X26 (witness). An agent id with a slash in it. *)
Lemma serve_upgrade_dispatch_witness :
  serve samplePlatform sampleParser
        (mkRequest "/api/v1/agents/team/agent-1/upgrade" "post" None (Some sample_user) "dry")
        sample_store
  = (reply_of (fst (handleUpgradeAgent samplePlatform "team/agent-1" sample_dry_request
                                       (Some sample_user) None sample_store)),
     snd (handleUpgradeAgent samplePlatform "team/agent-1" sample_dry_request
                             (Some sample_user) None sample_store)).
Proof.
  apply (serve_upgrade_dispatch samplePlatform sampleParser
           (mkRequest "/api/v1/agents/team/agent-1/upgrade" "post" None (Some sample_user)
                      "dry")
           sample_store "team/agent-1" sample_dry_request); reflexivity.
Defined.

(** X27. No route is reachable without the API prefix: a request whose
    pathname starts with a slash, as every URL pathname does, and not
    with [/api/v1/] is answered 404 [Not Found], whatever its method,
    headers and body, and the store is left as it is. *)
Theorem serve_requires_prefix (P : Platform) (J : BodyParser) (req : Request) (s : Store)
    (rest : string) :
  pathname req = String "/" rest ->
  strip_prefix "/api/v1/" (pathname req) = None ->
  serve P J req s = (error_reply 404 "Not Found", s).
Proof.
  intros Hpath Hprefix. unfold serve, route_path. rewrite Hprefix, Hpath. simpl.
  done.
Qed.

(** X27 (witness). The health path without the prefix. *)
Lemma serve_requires_prefix_witness :
  serve samplePlatform sampleParser (mkRequest "/health" "GET" None None "") sample_store
  = (error_reply 404 "Not Found", sample_store).
Proof.
  apply (serve_requires_prefix samplePlatform sampleParser
           (mkRequest "/health" "GET" None None "") sample_store "health"); reflexivity.
Defined.

(** X28. Only POST requests write: a request whose method, in upper case,
    is not POST leaves the store as it is, whatever it is answered. *)
Theorem serve_writes_only_on_post (P : Platform) (J : BodyParser) (req : Request)
    (s : Store) :
  toUpperCase (method req) <> "POST" ->
  snd (serve P J req s) = s.
Proof.
  intros Hmethod. apply String.eqb_neq in Hmethod. unfold serve. cbv zeta.
  rewrite Hmethod, !andb_false_r.
  destruct (String.eqb (route_path (pathname req)) "health" && _); [done|].
  destruct (String.eqb (route_path (pathname req)) "me" && _).
  - by destruct (negb _).
  - by destruct (upgradeMatch _).
Qed.

(** X28 (witness). A GET on the publish path. *)
Lemma serve_writes_only_on_post_witness :
  snd (serve samplePlatform sampleParser
             (mkRequest "/api/v1/templates/publish" "get" None None "1.0.2") sample_store)
  = sample_store.
Proof.
  apply (serve_writes_only_on_post samplePlatform sampleParser
           (mkRequest "/api/v1/templates/publish" "get" None None "1.0.2") sample_store).
  discriminate.
Defined.

(** X29. User context of the create route: the user is the [X-User-Id]
    header when the header is present, also when it is empty, and the
    [user_id] of the payload otherwise; a create request that is left
    without a non-empty user this way is answered 400 before the handler
    runs, so nothing is written, not even its idempotency record. *)
Theorem serve_create_user_context (P : Platform) (J : BodyParser) (req : Request)
    (s : Store) (payload : CreateAgentInput) (payload_user : option string) :
  route_path (pathname req) = "agents/create" ->
  toUpperCase (method req) = "POST" ->
  parseCreate J (body_text req) = inr (payload, payload_user) ->
  (user_header req = Some "" \/ (user_header req = None /\ truthy_opt payload_user = false) ->
   serve P J req s = (error_reply 400 "Missing user context", s))
  /\ (forall u, truthy u = true ->
        user_header req = Some u
        \/ (user_header req = None /\ payload_user = Some u) ->
        serve P J req s
        = (reply_of (fst (handleCreateAgent P payload u (idempotency_header req) s)),
           snd (handleCreateAgent P payload u (idempotency_header req) s))).
Proof.
  intros Hpath Hmethod Hbody. unfold serve. rewrite Hpath, Hmethod, Hbody. simpl. split.
  - intros [->|[-> Hnone]]; [done|]. by rewrite Hnone.
  - intros u Hu [->|[-> ->]]; simpl; rewrite Hu; simpl;
      by destruct (handleCreateAgent P payload u _ s).
Qed.

(** X29 (witness). An empty header next to a payload that names a user. *)
Lemma serve_create_user_context_witness :
  serve samplePlatform
        (mkBodyParser (fun _ => inr (sample_create_request, Some sample_user))
                      (parseUpgrade sampleParser))
        (mkRequest "/api/v1/agents/create" "POST" (Some "create-1") (Some "") "create")
        sample_store
  = (error_reply 400 "Missing user context", sample_store).
Proof.
  apply (proj1 (serve_create_user_context samplePlatform
                  (mkBodyParser (fun _ => inr (sample_create_request, Some sample_user))
                                (parseUpgrade sampleParser))
                  (mkRequest "/api/v1/agents/create" "POST" (Some "create-1") (Some "")
                             "create")
                  sample_store sample_create_request (Some sample_user)
                  eq_refl eq_refl eq_refl)).
  by left.
Defined.

(** X30. Create and profile round trip: after a successful create for a
    user, the profile endpoint answers for that user with the id of an
    agent that is recorded as an instance of that user. *)
Theorem create_then_profile (P : Platform) (payload : CreateAgentInput) (userId : string)
    (key : option string) (s s' : Store) (r : Response) :
  handleCreateAgent P payload userId key s = (r, s') ->
  status r = OK ->
  exists agentId instance,
    handleGetProfile userId s' = mkReply 200 (ProfileBody (Some (userId, agentId)))
    /\ agent_instances s' !! agentId = Some instance
    /\ ai_agent_id instance = agentId
    /\ ai_user_id instance = userId.
Proof.
  intros Hrun Hok.
  destruct (truthy_opt (ZUPLO_BASE_URL P)) eqn:Hzuplo.
  2:{ unfold handleCreateAgent in Hrun. rewrite Hzuplo in Hrun.
      injection Hrun as <- <-. done. }
  apply handleCreateAgent_cases in Hrun
    as [(msg & _ & -> & _)|(d & _ & [[Hno _]|Hdone])]; [done|done| |done].
  destruct Hdone as (resolved & raw & config0 & agentId & agent & _ & _ & _ & _ & Hend).
  destruct Hend as [[_ ->]|(_ & [[_ ->]|(_ & _ & ->)])]; [|done..].
  eexists agentId, _. unfold handleGetProfile. simpl.
  rewrite !lookup_insert_eq. done.
Qed.

(** X30 (witness). The create for the sample template. *)
Lemma create_then_profile_witness :
  let run := handleCreateAgent samplePlatform sample_create_request sample_user None
                               sample_store in
  status (fst run) = OK
  /\ exists agentId instance,
      handleGetProfile sample_user (snd run)
      = mkReply 200 (ProfileBody (Some (sample_user, agentId)))
      /\ agent_instances (snd run) !! agentId = Some instance
      /\ ai_agent_id instance = agentId
      /\ ai_user_id instance = sample_user.
Proof.
  intros run.
  assert (Hok : status (fst run) = OK) by (vm_compute; reflexivity).
  split; [exact Hok|].
  apply (create_then_profile samplePlatform sample_create_request sample_user None
           sample_store (snd run) (fst run)).
  - apply surjective_pairing.
  - exact Hok.
Defined.
